(** * The FSRS-6 scheduler of MyOwnAnkiApp

    A shallow embedding of [app/fsrs.py] (class [FSRS]) and of the review
    route of [app/routes.py] ([review_card]), with the properties of the
    scheduler that the design document states; then of the due-card route
    ([get_due_cards]), of [app/models.py] ([Card.is_due], [Card.to_dict],
    [Deck.to_dict]), of the pure part of [app/apkg_parser.py]
    ([clean_html] and the card loop of [parse_apkg]) and of the start-up
    loop of [run.py], with properties read off the code.

    Conventions of the embedding.

    - Numbers.  A Python [float] is read as the real number it denotes
      ([R]); rounding, floating-point overflow, infinities and NaN are
      not part of this model.  Module [Binary64] replays
      [calculate_interval] on IEEE binary64 values to show where the two
      readings part.
    - Integers ([grade], [reps], [lapses]) are Python's unbounded [int]: [Z].
    - Exceptions.  [math.pow] raises [ValueError] outside its domain, and
      [timedelta(days=...)] and the sum of a [datetime] and a [timedelta]
      raise [OverflowError] outside their ranges; code that can raise
      returns a [result].
    - The clock.  [schedule_card] calls [datetime.utcnow()] itself.  A
      [clock] gives the successive readings and the number of readings
      taken so far is threaded through the call.  A [datetime] is a real
      number of seconds since [datetime.min] (0001-01-01 00:00:00), at most
      [datetime_max] (9999-12-31 23:59:59.999999); [timedelta(days=x)] is
      [x * 86400] seconds; the rounding to microseconds is not modelled.
    - [card_state] is a [dict] read with [.get(key, default)]: a record of
      optional fields.
    - A [str] that is only compared (a card's state) is a [string]; a
      [str] that is taken apart ([clean_html]) is the list of its code
      points.
    - The database session, the ZIP archive and SQLite are not modelled:
      the functions that need them take the rows they read as
      arguments.  *)

From Stdlib Require Import Reals Lra Lia ZArith String List Bool.
From Stdlib Require Import Permutation Sorted.
From Stdlib Require Floats QArith Qabs.
Import ListNotations.

Local Open Scope R_scope.

(** ** Python runtime *)

Module Py.

Inductive exn : Type :=
| ValueError       (* "math domain error" *)
| OverflowError.   (* "date value out of range" *)

Inductive result (A : Type) : Type :=
| Ok (a : A)
| Raise (e : exn).
Arguments Ok {A} a.
Arguments Raise {A} e.

Definition rbind {A B} (c : result A) (k : A -> result B) : result B :=
  match c with
  | Ok a => k a
  | Raise e => Raise e
  end.

(** [max(a, b)] is [b] when [b > a] and [a] otherwise; [min(a, b)] is [b]
    when [b < a] and [a] otherwise. *)
Definition max (a b : R) : R := if Rlt_dec a b then b else a.
Definition min (a b : R) : R := if Rlt_dec b a then b else a.

(** [y] holds an integral value. *)
Definition is_integer (y : R) : bool :=
  if Req_dec_T y (IZR (Int_part y)) then true else false.

(** [math.pow(x, y)]: [pow(x, 0.0)] is [1.0] for every [x]; a zero base
    with a negative exponent, and a negative base with a non-integral
    exponent, raise [ValueError]. *)
Definition math_pow (x y : R) : result R :=
  if Req_dec_T y 0 then Ok 1
  else if Rlt_dec 0 x then Ok (Rpower x y)
  else if Req_dec_T x 0 then
    (if Rlt_dec 0 y then Ok 0 else Raise ValueError)
  else
    (if is_integer y then Ok (powerRZ x (Int_part y)) else Raise ValueError).

(** [math.exp(x)]. *)
Definition math_exp (x : R) : R := exp x.

(** [dict.get(key, default)] on a key that may be absent. *)
Definition get {A} (field : option A) (default : A) : A :=
  match field with
  | Some v => v
  | None => default
  end.

End Py.

Import Py.

Declare Scope py_scope.
Delimit Scope py_scope with py.
Notation "x <- c ;; k" := (rbind c (fun x => k))
  (at level 61, c at next level, right associativity) : py_scope.

(** ** app/fsrs.py *)

(** The 21 parameters [w0 .. w20]. *)
Record Params : Type := mkParams {
  w0 : R; w1 : R; w2 : R; w3 : R; w4 : R; w5 : R; w6 : R;
  w7 : R; w8 : R; w9 : R; w10 : R; w11 : R; w12 : R; w13 : R;
  w14 : R; w15 : R; w16 : R; w17 : R; w18 : R; w19 : R; w20 : R
}.

Definition DEFAULT_PARAMS : Params :=
  mkParams
    0.4072 1.1829 3.1262 15.4722
    7.2102 0.5316 1.0651 0.0234
    1.616 0.1544 0.9221 2.0063 0.2272 0.2281
    1.5662 0.0 2.9469
    0.2272 2.8284 0.0
    0.15.

(** An instance of [FSRS]: the attributes set by [__init__]. *)
Record FSRS : Type := mkFSRS {
  w : Params;
  desired_retention : R;
  DECAY : R;
  FACTOR : R
}.

(** [FSRS.__init__(params=None, desired_retention=0.9)].  The base of
    [0.9 ** (1 / DECAY)] is positive, where [**] is the real power. *)
Definition FSRS_init (params : option Params) (desired_retention : R) : FSRS :=
  let decay := - 0.5 in
  {| w := get params DEFAULT_PARAMS;
     desired_retention := desired_retention;
     DECAY := decay;
     FACTOR := Rpower 0.9 (1 / decay) - 1 |}.

(** [FSRS()] *)
Definition FSRS_default : FSRS := FSRS_init None 0.9.

Section Methods.

Variable self : FSRS.

Local Open Scope py_scope.

Definition calculate_retrievability (elapsed_days stability : R) : result R :=
  if Rle_dec stability 0 then Ok 1.0
  else if Rle_dec elapsed_days 0 then Ok 1.0
  else
    let t_over_s := elapsed_days / stability in
    p <- math_pow t_over_s (DECAY self) ;;
    let base := 1 + FACTOR self * p in
    r <- math_pow base (DECAY self) ;;
    Ok (max 0.0 (min 1.0 r)).

Definition calculate_interval (stability : R) (desired_retention_arg : option R)
  : result R :=
  let desired_retention := get desired_retention_arg (desired_retention self) in
  p <- math_pow desired_retention (1 / DECAY self) ;;
  let interval := stability / FACTOR self * (p - 1) in
  Ok (max 0.1 interval).

Definition init_difficulty (grade : Z) : R :=
  let d0 := w4 (w self) - w5 (w self) * (IZR grade - 3) in
  max 1.0 (min 10.0 d0).

Definition init_stability (grade : Z) : R :=
  if (grade =? 1)%Z then w0 (w self)
  else if (grade =? 2)%Z then w1 (w self)
  else if (grade =? 3)%Z then w2 (w self)
  else w3 (w self).

Definition next_difficulty (d : R) (grade : Z) : R :=
  let delta_d :=
    if (grade =? 1)%Z then - w6 (w self) * (IZR grade - 3)
    else if (grade =? 2)%Z then - w6 (w self) * (IZR grade - 3)
    else if (grade =? 4)%Z then - w7 (w self) * (IZR grade - 3)
    else 0 in
  let d_prime := d + delta_d * (10 - d) / 9 in
  let mean_reversion := 0.5 in
  let d_double_prime :=
    mean_reversion * d_prime + (1 - mean_reversion) * w4 (w self) in
  max 1.0 (min 10.0 d_double_prime).

Definition next_stability (s d r : R) (grade : Z) (is_lapse : bool) : result R :=
  if is_lapse || (grade =? 1)%Z then
    pd <- math_pow d (- w12 (w self)) ;;
    ps <- math_pow (s + 1) (w13 (w self)) ;;
    let new_s :=
      w11 (w self) * pd * (ps - 1) * math_exp (w10 (w self) * (1 - r)) in
    Ok (min s (max 0.1 new_s))
  else
    let f_d := 11 - d in
    f_s <- (if Rlt_dec 0 s then math_pow s (- w9 (w self)) else Ok 1.0) ;;
    let f_r := math_exp (w10 (w self) * (1 - r)) - 1 in
    let '(w15_factor, w16_factor) :=
      if (grade =? 2)%Z then (0.5, 1.0)
      else if (grade =? 4)%Z then (1.0, w16 (w self))
      else (1.0, 1.0) in
    let s_inc :=
      1 + math_exp (w8 (w self)) * f_d * f_s * f_r * w15_factor * w16_factor in
    let new_s := s * s_inc in
    Ok (max 0.1 new_s).

End Methods.


(** *** The clock *)

Definition datetime : Type := R.

(** [clk n] is what the [n]-th call of [datetime.utcnow()] returns. *)
Definition clock : Type := nat -> datetime.

(** A computation that may read the clock and may raise: from the number of
    readings taken so far to a value and the new number of readings. *)
Definition io (A : Type) : Type := nat -> result (A * nat).

Definition io_ret {A} (a : A) : io A := fun n => Ok (a, n).

Definition io_bind {A B} (c : io A) (k : A -> io B) : io B :=
  fun n =>
    match c n with
    | Ok (a, n') => k a n'
    | Raise e => Raise e
    end.

Definition lift {A} (c : result A) : io A :=
  fun n =>
    match c with
    | Ok a => Ok (a, n)
    | Raise e => Raise e
    end.

Definition utcnow (clk : clock) : io datetime := fun n => Ok (clk n, S n).

Notation "x <~ c ;; k" := (io_bind c (fun x => k))
  (at level 61, c at next level, right associativity) : py_scope.

(** [timedelta(days=x)] in seconds. *)
Definition timedelta_days (x : R) : R := x * 86400.

(** [datetime.max - datetime.min] in seconds: 3652058 days, 86399 seconds
    and 999999 microseconds. *)
Definition datetime_max : R := 315537897599.999999.

(** [timedelta(days=x)]: a [timedelta] holds between -999999999 and
    999999999 whole days (and a part of a day); outside, the constructor
    raises [OverflowError]. *)
Definition timedelta (days : R) : result R :=
  if Rle_dec (- 999999999) days then
    if Rlt_dec days 1000000000 then Ok (timedelta_days days)
    else Raise OverflowError
  else Raise OverflowError.

(** [t + td] for a [datetime] and a [timedelta]: [OverflowError] when the
    sum is not between [datetime.min] and [datetime.max]. *)
Definition datetime_add (t : datetime) (td : R) : result datetime :=
  if Rle_dec 0 (t + td) then
    if Rle_dec (t + td) datetime_max then Ok (t + td)
    else Raise OverflowError
  else Raise OverflowError.

(** *** schedule_card *)

(** The [card_state] dict: each key may be absent; [last_review] may also
    be present and [None], which [.get] does not tell apart. *)
Record CardState : Type := mkCardState {
  cs_state : option string;
  cs_stability : option R;
  cs_difficulty : option R;
  cs_retrievability : option R;
  cs_last_review : option datetime;
  cs_reps : option Z;
  cs_lapses : option Z
}.

(** The dict that [schedule_card] returns. *)
Record Scheduled : Type := mkScheduled {
  state : string;
  stability : R;
  difficulty : R;
  retrievability : R;
  interval : R;
  due_date : datetime;
  reps : Z;
  lapses : Z;
  last_review : datetime
}.

Section Schedule.

Variable self : FSRS.
Variable clk : clock.

Local Open Scope py_scope.

Definition schedule_card (grade : Z) (card_state : CardState) : io Scheduled :=
  let state := get (cs_state card_state) "new"%string in
  let s := get (cs_stability card_state) 0.0 in
  let d := get (cs_difficulty card_state) 5.0 in
  let r := get (cs_retrievability card_state) 1.0 in
  let last_review := cs_last_review card_state in
  let reps := get (cs_reps card_state) 0%Z in
  let lapses := get (cs_lapses card_state) 0%Z in
  branch <~
    (if (state =? "new")%string || (reps =? 0)%Z then
       let new_s := init_stability self grade in
       let new_d := init_difficulty self grade in
       let new_state := if (grade =? 1)%Z then "learning"%string else "review"%string in
       let new_lapses := if (grade =? 1)%Z then (lapses + 1)%Z else lapses in
       io_ret (new_s, new_d, r, new_state, new_lapses)
     else
       r <~ match last_review with
            | Some lr =>
                now <~ utcnow clk ;;
                let elapsed := (now - lr) / 86400.0 in
                lift (calculate_retrievability self elapsed s)
            | None => io_ret 1.0
            end ;;
       let new_d := next_difficulty self d grade in
       let is_lapse := (grade =? 1)%Z in
       new_s <~ lift (next_stability self s d r grade is_lapse) ;;
       if (grade =? 1)%Z
       then io_ret (new_s, new_d, r, "relearning"%string, (lapses + 1)%Z)
       else io_ret (new_s, new_d, r, "review"%string, lapses)) ;;
  let '(new_s, new_d, r, new_state, new_lapses) := branch in
  new_interval <~ lift (calculate_interval self new_s None) ;;
  now_due <~ utcnow clk ;;
  td <~ lift (timedelta new_interval) ;;
  new_due <~ lift (datetime_add now_due td) ;;
  now_last <~ utcnow clk ;;
  io_ret {| state := new_state;
            stability := new_s;
            difficulty := new_d;
            retrievability := r;
            interval := new_interval;
            due_date := new_due;
            reps := (reps + 1)%Z;
            lapses := new_lapses;
            last_review := now_last |}.

End Schedule.

(** ** app/routes.py *)

(** A row of the [cards] table, with the columns the review uses. *)
Record Card : Type := mkCard {
  c_state : string;
  c_difficulty : R;
  c_stability : R;
  c_retrievability : R;
  c_due_date : datetime;
  c_last_review : option datetime;
  c_interval : R;
  c_reps : Z;
  c_lapses : Z
}.

(** *** app/models.py: cards

    [Card.is_due()]: [self.due_date <= datetime.utcnow()], one reading of
    the clock. *)
Definition Card_is_due (clk : clock) (card : Card) : io bool :=
  (now <~ utcnow clk ;;
   io_ret (if Rle_dec (c_due_date card) now then true else false))%py.

(** The dict of [Card.to_dict()]: the columns of the row (the two dates in
    ISO format) and ['is_due'], the last entry to be evaluated. *)
Record CardDict : Type := mkCardDict {
  cd_columns : Card;
  cd_is_due : bool
}.

Definition Card_to_dict (clk : clock) (card : Card) : io CardDict :=
  (b <~ Card_is_due clk card ;;
   io_ret {| cd_columns := card; cd_is_due := b |})%py.

(** *** The review route

    A row of the [reviews] table as [review_card] fills it in;
    [reviewed_at] is the column default [datetime.utcnow], evaluated when
    the row is inserted at the commit. *)
Record Review : Type := mkReview {
  rv_card_id : Z;
  rv_grade : Z;
  rv_state_before : string;
  rv_difficulty_before : R;
  rv_stability_before : R;
  rv_retrievability_before : R;
  rv_difficulty_after : R;
  rv_stability_after : R;
  rv_interval_after : R;
  rv_reviewed_at : datetime
}.

(** The database session and the number of clock readings taken. *)
Record World : Type := mkWorld {
  cards : Z -> option Card;
  reviews : list Review;
  clock_reads : nat
}.

Inductive Response : Type :=
| NotFound                                  (* 404 *)
| BadRequest (error : string)               (* 400 *)
| Success (card : CardDict) (review : Review).  (* 200 *)

(** The module-level [fsrs_scheduler = FSRS()]. *)
Definition fsrs_scheduler : FSRS := FSRS_default.

Definition grade_in_1234 (grade : option Z) : bool :=
  match grade with
  | Some g => existsb (Z.eqb g) [1; 2; 3; 4]%Z
  | None => false
  end.

Definition put_card (cs : Z -> option Card) (card_id : Z) (card : Card)
  : Z -> option Card :=
  fun k => if (k =? card_id)%Z then Some card else cs k.

(** [review_card(card_id)] with the JSON body's ["grade"] ([None] when the
    key is absent or null).  The outcome is the response and the world
    after the request, or the exception that escapes the handler.  After
    [schedule_card] the clock is read twice more: for [reviewed_at] at the
    commit, and by [is_due] in [card.to_dict()]. *)
Definition review_card (clk : clock) (card_id : Z) (grade : option Z) (wd : World)
  : result (Response * World) :=
  match cards wd card_id with
  | None => Ok (NotFound, wd)
  | Some card =>
      if negb (grade_in_1234 grade) then
        Ok (BadRequest "Invalid grade. Must be 1-4", wd)
      else
        let grade := get grade 0%Z in
        let state_before := c_state card in
        let difficulty_before := c_difficulty card in
        let stability_before := c_stability card in
        let retrievability_before := c_retrievability card in
        let card_state :=
          {| cs_state := Some (c_state card);
             cs_stability := Some (c_stability card);
             cs_difficulty := Some (c_difficulty card);
             cs_retrievability := Some (c_retrievability card);
             cs_last_review := c_last_review card;
             cs_reps := Some (c_reps card);
             cs_lapses := Some (c_lapses card) |} in
        match schedule_card fsrs_scheduler clk grade card_state (clock_reads wd) with
        | Raise e => Raise e
        | Ok (new_state, reads) =>
            let card' :=
              {| c_state := state new_state;
                 c_difficulty := difficulty new_state;
                 c_stability := stability new_state;
                 c_retrievability := retrievability new_state;
                 c_due_date := due_date new_state;
                 c_last_review := Some (last_review new_state);
                 c_interval := interval new_state;
                 c_reps := reps new_state;
                 c_lapses := lapses new_state |} in
            match
              (reviewed_at <~ utcnow clk ;;
               card_dict <~ Card_to_dict clk card' ;;
               io_ret (reviewed_at, card_dict))%py reads
            with
            | Raise e => Raise e
            | Ok ((reviewed_at, card_dict), reads') =>
                let review :=
                  {| rv_card_id := card_id;
                     rv_grade := grade;
                     rv_state_before := state_before;
                     rv_difficulty_before := difficulty_before;
                     rv_stability_before := stability_before;
                     rv_retrievability_before := retrievability_before;
                     rv_difficulty_after := c_difficulty card';
                     rv_stability_after := c_stability card';
                     rv_interval_after := c_interval card';
                     rv_reviewed_at := reviewed_at |} in
                Ok (Success card_dict review,
                    {| cards := put_card (cards wd) card_id card';
                       reviews := reviews wd ++ [review];
                       clock_reads := reads' |})
            end
        end
  end.

(** ** The formulas of the design document

    Written from the document's words, on real numbers, to be compared
    with the methods above. *)

Module Design.

Definition decayExponent : R := - 0.5.

Definition forgettingFactor : R := Rpower 0.9 (1 / decayExponent) - 1.

Definition clamp (lo hi x : R) : R := Rmax lo (Rmin hi x).

Definition computeRetrievability (elapsedDays stability : R) : R :=
  if Rle_dec stability 0 then 1
  else if Rle_dec elapsedDays 0 then 1
  else
    clamp 0 1
      (Rpower
         (1 + forgettingFactor * Rpower (elapsedDays / stability) decayExponent)
         decayExponent).

Definition computeInterval (desiredRetention stability : R) : R :=
  Rmax 0.1
    (stability / forgettingFactor
     * (Rpower desiredRetention (1 / decayExponent) - 1)).

(** [initStability]: the lookup Again, Hard, Good, Easy. *)
Definition initStability (p : Params) (grade : Z) : R :=
  match grade with
  | 1%Z => w0 p
  | 2%Z => w1 p
  | 3%Z => w2 p
  | _ => w3 p
  end.

(** [initDifficulty]: [w4 - w5 * (grade - 3)], clamped to [[1, 10]]. *)
Definition initDifficulty (p : Params) (grade : Z) : R :=
  clamp 1 10 (w4 p - w5 p * (IZR grade - 3)).

(** Step 1 of [nextDifficulty]. *)
Definition delta (p : Params) (grade : Z) : R :=
  match grade with
  | 1%Z | 2%Z => - w6 p * (IZR grade - 3)
  | 4%Z => - w7 p * (IZR grade - 3)
  | _ => 0
  end.

Definition nextDifficulty (p : Params) (D : R) (grade : Z) : R :=
  clamp 1 10 (0.5 * (D + delta p grade * (10 - D) / 9) + 0.5 * w4 p).

(** The lapse branch of [nextStability]. *)
Definition lapseStability (p : Params) (S D Rv : R) : R :=
  Rmin S
    (Rmax 0.1
       (w11 p * Rpower D (- w12 p) * (Rpower (S + 1) (w13 p) - 1)
        * exp (w10 p * (1 - Rv)))).

Definition gradeMultiplier (p : Params) (grade : Z) : R :=
  match grade with
  | 2%Z => 0.5
  | 4%Z => w16 p
  | _ => 1
  end.

(** The success branch of [nextStability]. *)
Definition successStability (p : Params) (S D Rv : R) (grade : Z) : R :=
  let f_D := 11 - D in
  let f_S := if Rlt_dec 0 S then Rpower S (- w9 p) else 1 in
  let f_R := exp (w10 p * (1 - Rv)) - 1 in
  Rmax 0.1 (S * (1 + exp (w8 p) * f_D * f_S * f_R * gradeMultiplier p grade)).

End Design.

(** ** [calculate_interval] on IEEE binary64

    The same expression as [calculate_interval], evaluated with the
    rounding of Python's [float].  [pow] is the C library's; its two
    results enter as arguments: [pow_factor] for [0.9 ** (1 / DECAY)] in
    [__init__] and [pow_dr] for [math.pow(desired_retention, 1 / DECAY)]. *)

Module Binary64.

Import Floats.
Local Open Scope float_scope.
#[local] Set Warnings "-inexact-float".

Definition max (a b : float) : float := if PrimFloat.ltb a b then b else a.

(** The binary64 value nearest to [0.9 ^ (-2)], [0.9] being the binary64
    value of the literal: [1.2345679012345678]. *)
Definition pow_0_9_m2 : float := 0x1.3c0ca4587e6b7p+0.

Definition calculate_interval (pow_factor pow_dr stability : float) : float :=
  let FACTOR := pow_factor - 1 in
  let interval := stability / FACTOR * (pow_dr - 1) in
  max 0.1 interval.

(** The rational number that a finite binary64 value denotes. *)
Definition to_Q (f : float) : QArith_base.Q :=
  match Prim2SF f with
  | S754_finite s m e =>
      QArith_base.Qmult
        (QArith_base.Qmake ((if s then (-1) else 1) * Zpos m)%Z 1)
        (QArith_base.Qpower (QArith_base.Qmake 2 1) e)
  | _ => QArith_base.Qmake 0 1
  end.

End Binary64.

(** ** Card states, weights and clocks used below *)

(** The test [state == 'new' or reps == 0] of [schedule_card]. *)
Definition first_review (card_state : CardState) : bool :=
  (get (cs_state card_state) "new" =? "new")%string
  || (get (cs_reps card_state) 0 =? 0)%Z.

(** A card as the [cards] table creates it: the column defaults. *)
Definition new_card_state : CardState :=
  {| cs_state := Some "new"%string;
     cs_stability := Some 0.0;
     cs_difficulty := Some 5.0;
     cs_retrievability := Some 1.0;
     cs_last_review := None;
     cs_reps := Some 0%Z;
     cs_lapses := Some 0%Z |}.


(** A card with history: reviewed three times, last at time 0. *)
Definition reviewed_state : CardState :=
  {| cs_state := Some "review"%string;
     cs_stability := Some 10;
     cs_difficulty := Some 5.0;
     cs_retrievability := Some 0.9;
     cs_last_review := Some 0;
     cs_reps := Some 3%Z;
     cs_lapses := Some 0%Z |}.

(** A new card whose stored retrievability is outside [[0, 1]]. *)
Definition odd_retrievability_state : CardState :=
  {| cs_state := Some "new"%string;
     cs_stability := Some 0.0;
     cs_difficulty := Some 5.0;
     cs_retrievability := Some 2.0;
     cs_last_review := None;
     cs_reps := Some 0%Z;
     cs_lapses := Some 0%Z |}.

(** [DEFAULT_PARAMS] with the sign of [w10] changed. *)
Definition params_negative_w10 : Params :=
  mkParams
    0.4072 1.1829 3.1262 15.4722
    7.2102 0.5316 1.0651 0.0234
    1.616 0.1544 (- 0.9221) 2.0063 0.2272 0.2281
    1.5662 0.0 2.9469
    0.2272 2.8284 0.0
    0.15.

(** A row of [cards] with the column defaults, and a database that holds
    it under id 1. *)
Definition new_card : Card :=
  {| c_state := "new"%string;
     c_difficulty := 5.0;
     c_stability := 0.0;
     c_retrievability := 1.0;
     c_due_date := 0;
     c_last_review := None;
     c_interval := 0.0;
     c_reps := 0%Z;
     c_lapses := 0%Z |}.

Definition one_card_world : World :=
  {| cards := fun k => if (k =? 1)%Z then Some new_card else None;
     reviews := [];
     clock_reads := 0%nat |}.

(** The [card_state] dict that [review_card] builds from a row. *)
Definition card_state_of (card : Card) : CardState :=
  {| cs_state := Some (c_state card);
     cs_stability := Some (c_stability card);
     cs_difficulty := Some (c_difficulty card);
     cs_retrievability := Some (c_retrievability card);
     cs_last_review := c_last_review card;
     cs_reps := Some (c_reps card);
     cs_lapses := Some (c_lapses card) |}.

(** A reviewed row whose stored stability, 4000000 days, is more than the
    days from [datetime.min] to [datetime.max], and a database that holds
    it under id 1. *)
Definition huge_stability_card : Card :=
  {| c_state := "review"%string;
     c_difficulty := 5.0;
     c_stability := 4000000;
     c_retrievability := 1.0;
     c_due_date := 0;
     c_last_review := Some 0;
     c_interval := 4000000;
     c_reps := 1%Z;
     c_lapses := 0%Z |}.

Definition huge_stability_world : World :=
  {| cards := fun k => if (k =? 1)%Z then Some huge_stability_card else None;
     reviews := [];
     clock_reads := 0%nat |}.

(** The row that [review_card] stores from what [schedule_card] returned. *)
Definition card_after (new_state : Scheduled) : Card :=
  {| c_state := state new_state;
     c_difficulty := difficulty new_state;
     c_stability := stability new_state;
     c_retrievability := retrievability new_state;
     c_due_date := due_date new_state;
     c_last_review := Some (last_review new_state);
     c_interval := interval new_state;
     c_reps := reps new_state;
     c_lapses := lapses new_state |}.

(** A clock that always reads [t], and one that advances by a second at
    every reading. *)
Definition frozen_clock (t : datetime) : clock := fun _ => t.
Definition ticking_clock : clock := fun n => INR n.

(** The due date of [schedule_card]:
    [now + timedelta(days=new_interval)]. *)
Definition due_date_of (now : datetime) (new_interval : R) : result datetime :=
  rbind (timedelta new_interval) (datetime_add now).

(** The interval is one that a [timedelta] can hold and the due date is a
    [datetime]: not after the year 9999. *)
Definition fits (now : datetime) (new_interval : R) : Prop :=
  - 999999999 <= new_interval < 1000000000
  /\ 0 <= now + timedelta_days new_interval <= datetime_max.

(** A reading of the clock with [days] days to go to [datetime.max]. *)
Definition days_before_max (days : R) (t : datetime) : Prop :=
  0 <= t <= datetime_max - 86400 * days.

(** The outcome of [schedule_card] on a first review. *)
Definition first_review_outcome
  (self : FSRS) (clk : clock) (grade : Z) (card_state : CardState) (n : nat)
  (new_interval : R) : Scheduled :=
  {| state := if (grade =? 1)%Z then "learning"%string else "review"%string;
     stability := init_stability self grade;
     difficulty := init_difficulty self grade;
     retrievability := get (cs_retrievability card_state) 1.0;
     interval := new_interval;
     due_date := clk n + timedelta_days new_interval;
     reps := (get (cs_reps card_state) 0 + 1)%Z;
     lapses := if (grade =? 1)%Z
               then (get (cs_lapses card_state) 0 + 1)%Z
               else get (cs_lapses card_state) 0%Z;
     last_review := clk (S n) |}.

(** The retrievability that the history branch computes, with the number
    of clock readings after it. *)
Definition history_retrievability
  (clk : clock) (card_state : CardState) (n : nat) : R * nat :=
  match cs_last_review card_state with
  | Some lr =>
      (Design.computeRetrievability
         ((clk n - lr) / 86400) (get (cs_stability card_state) 0.0),
       S n)
  | None => (1, n)
  end.

(** The outcome of [schedule_card] on a card with history, given the new
    stability. *)
Definition history_outcome
  (self : FSRS) (clk : clock) (grade : Z) (card_state : CardState) (n : nat)
  (new_s new_interval : R) : Scheduled :=
  let '(r, n1) := history_retrievability clk card_state n in
  {| state := if (grade =? 1)%Z then "relearning"%string else "review"%string;
     stability := new_s;
     difficulty :=
       next_difficulty self (get (cs_difficulty card_state) 5.0) grade;
     retrievability := r;
     interval := new_interval;
     due_date := clk n1 + timedelta_days new_interval;
     reps := (get (cs_reps card_state) 0 + 1)%Z;
     lapses := if (grade =? 1)%Z
               then (get (cs_lapses card_state) 0 + 1)%Z
               else get (cs_lapses card_state) 0%Z;
     last_review := clk (S n1) |}.

(** ** app/models.py: decks *)

(** A row of [decks] with its [cards] relationship. *)
Record Deck : Type := mkDeck {
  d_id : Z;
  d_name : string;
  d_description : option string;
  d_created_at : datetime;
  d_cards : list Card
}.

(** [sum(1 for c in cards if p(c))]. *)
Definition sum_if {A} (p : A -> bool) (l : list A) : Z :=
  fold_left (fun acc c => if p c then (acc + 1)%Z else acc) l 0%Z.

(** [sum(1 for c in cards if c.is_due())], from the running total [acc]:
    one reading of the clock for each card, in order. *)
Fixpoint sum_due (clk : clock) (l : list Card) (acc : Z) : io Z :=
  match l with
  | [] => io_ret acc
  | c :: rest =>
      (b <~ Card_is_due clk c ;;
       sum_due clk rest (if b then (acc + 1)%Z else acc))%py
  end.

Record Stats : Type := mkStats {
  st_total : Z;
  st_new : Z;
  st_learning : Z;
  st_review : Z;
  st_due : Z
}.

(** The dict of [Deck.to_dict()] ([created_at] in ISO format). *)
Record DeckDict : Type := mkDeckDict {
  dd_id : Z;
  dd_name : string;
  dd_description : option string;
  dd_created_at : datetime;
  dd_stats : Stats
}.

(** [Deck.to_dict()]. *)
Definition Deck_to_dict (clk : clock) (deck : Deck) : io DeckDict :=
  let total_cards := Z.of_nat (length (d_cards deck)) in
  let new_cards := sum_if (fun c => (c_state c =? "new")%string) (d_cards deck) in
  let learning_cards :=
    sum_if (fun c => (c_state c =? "learning")%string) (d_cards deck) in
  let review_cards :=
    sum_if (fun c => (c_state c =? "review")%string) (d_cards deck) in
  (due_count <~ sum_due clk (d_cards deck) 0%Z ;;
   io_ret {| dd_id := d_id deck;
             dd_name := d_name deck;
             dd_description := d_description deck;
             dd_created_at := d_created_at deck;
             dd_stats := {| st_total := total_cards;
                            st_new := new_cards;
                            st_learning := learning_cards;
                            st_review := review_cards;
                            st_due := due_count |} |})%py.

(** ** app/routes.py: the due cards of a deck *)

(** [[card for card in cards if card.is_due()]]. *)
Fixpoint filter_due (clk : clock) (l : list Card) : io (list Card) :=
  match l with
  | [] => io_ret []
  | c :: rest =>
      (b <~ Card_is_due clk c ;;
       tl <~ filter_due clk rest ;;
       io_ret (if b then c :: tl else tl))%py
  end.

(** The sort key [(c.state != 'new', c.due_date)]. *)
Definition due_key (c : Card) : bool * datetime :=
  (negb (c_state c =? "new")%string, c_due_date c).

(** [k1 < k2] on such tuples: [False < True], then the dates. *)
Definition key_lt (k1 k2 : bool * datetime) : bool :=
  match fst k1, fst k2 with
  | false, true => true
  | true, false => false
  | _, _ => if Rlt_dec (snd k1) (snd k2) then true else false
  end.

(** [list.sort(key=...)] is stable: an element goes before the first one
    whose key is not smaller than its own. *)
Fixpoint insert_by_key (x : Card) (l : list Card) : list Card :=
  match l with
  | [] => [x]
  | y :: rest =>
      if key_lt (due_key y) (due_key x) then y :: insert_by_key x rest
      else x :: y :: rest
  end.

Definition sort_by_key (l : list Card) : list Card :=
  fold_right insert_by_key [] l.

(** [[card.to_dict() for card in cards]]. *)
Fixpoint to_dicts (clk : clock) (l : list Card) : io (list CardDict) :=
  match l with
  | [] => io_ret []
  | c :: rest =>
      (d <~ Card_to_dict clk c ;;
       tl <~ to_dicts clk rest ;;
       io_ret (d :: tl))%py
  end.

Inductive DueResponse : Type :=
| DeckNotFound                          (* 404 *)
| DueCards (cards : list CardDict).     (* 200 *)

(** [get_due_cards(deck_id)] on the [decks] table. *)
Definition get_due_cards (clk : clock) (decks : Z -> option Deck) (deck_id : Z)
  : io DueResponse :=
  match decks deck_id with
  | None => io_ret DeckNotFound
  | Some deck =>
      (due_cards <~ filter_due clk (d_cards deck) ;;
       let due_cards := sort_by_key due_cards in
       dicts <~ to_dicts clk due_cards ;;
       io_ret (DueCards dicts))%py
  end.

(** [c.due_date <= t]. *)
Definition due_by (t : datetime) (c : Card) : bool :=
  if Rle_dec (c_due_date c) t then true else false.

(** Two cards with the same sort key. *)
Definition same_key (a b : Card) : bool :=
  Bool.eqb (fst (due_key a)) (fst (due_key b))
  && (if Req_dec_T (snd (due_key a)) (snd (due_key b)) then true else false).

(** The order of the response: a new card is never behind one that is not
    new, and of two cards that are both new, or both not, the one due
    earlier is never behind. *)
Definition due_order (a b : Card) : Prop :=
  (c_state b = "new"%string -> c_state a = "new"%string)
  /\ ((c_state a = "new"%string <-> c_state b = "new"%string) ->
      c_due_date a <= c_due_date b).

(** A deck of two cards: one reviewed and due at time 100, one new and due
    at time 0; and a [decks] table that holds it under id 1. *)
Definition sample_deck : Deck :=
  {| d_id := 1;
     d_name := "sample";
     d_description := None;
     d_created_at := 0;
     d_cards :=
       [ {| c_state := "relearning"%string;
            c_difficulty := 5.0;
            c_stability := 1.0;
            c_retrievability := 0.9;
            c_due_date := 100;
            c_last_review := Some 10;
            c_interval := 1.0;
            c_reps := 2%Z;
            c_lapses := 1%Z |};
         new_card ] |}.

Definition sample_decks : Z -> option Deck :=
  fun k => if (k =? 1)%Z then Some sample_deck else None.

(** A card in a state that [Deck.to_dict] counts in none of ['new'],
    ['learning'] and ['review']. *)
Definition uncounted (c : Card) : bool :=
  negb ((c_state c =? "new")%string
        || (c_state c =? "learning")%string
        || (c_state c =? "review")%string).

(** ** app/apkg_parser.py *)

(** A Python [str]: its code points. *)
Definition pystr : Type := list N.

(** The code points of an ASCII literal. *)
Definition u (s : string) : pystr :=
  map Ascii.N_of_ascii (list_ascii_of_string s).

(** The position of the first ['>'] (code point 62). *)
Fixpoint find_gt (text : pystr) : option nat :=
  match text with
  | [] => None
  | c :: rest =>
      if (c =? 62)%N then Some 0%nat
      else match find_gt rest with
           | Some i => Some (S i)
           | None => None
           end
  end.

(** [re.sub(r'<[^>]+>', '', text)]: the text is scanned from the left; a
    ['<'] (code point 60) starts a match when at least one character other
    than ['>'] follows it before the next ['>'], and the match runs up to
    that ['>']; the scan goes on after the match.  [skip] counts the
    characters of the current match that are still to be dropped. *)
Fixpoint re_sub_tags (skip : nat) (text : pystr) : pystr :=
  match text with
  | [] => []
  | c :: rest =>
      match skip with
      | S k => re_sub_tags k rest
      | O =>
          if (c =? 60)%N then
            match find_gt rest with
            | Some (S i) => re_sub_tags (S (S i)) rest
            | _ => c :: re_sub_tags 0 rest
            end
          else c :: re_sub_tags 0 rest
      end
  end.

(** [text.startswith(old)]. *)
Fixpoint starts_with (old text : pystr) : bool :=
  match old, text with
  | [], _ => true
  | _ :: _, [] => false
  | a :: old', c :: text' => (a =? c)%N && starts_with old' text'
  end.

(** [text.replace(old, new)] for a non-empty [old]: the occurrences of
    [old] are replaced from the left, none overlapping the one before. *)
Fixpoint replace_from (old new : pystr) (skip : nat) (text : pystr) : pystr :=
  match text with
  | [] => []
  | c :: rest =>
      match skip with
      | S k => replace_from old new k rest
      | O =>
          if starts_with old text
          then new ++ replace_from old new (pred (length old)) rest
          else c :: replace_from old new 0 rest
      end
  end.

Definition replace (old new text : pystr) : pystr :=
  replace_from old new 0 text.

(** [str.isspace] on one character: the white space that [strip()]
    removes. *)
Definition is_space (c : N) : bool :=
  ((9 <=? c) && (c <=? 13))%N
  || ((28 <=? c) && (c <=? 32))%N
  || (c =? 133)%N || (c =? 160)%N || (c =? 5760)%N
  || ((8192 <=? c) && (c <=? 8202))%N
  || (c =? 8232)%N || (c =? 8233)%N || (c =? 8239)%N
  || (c =? 8287)%N || (c =? 12288)%N.

Fixpoint lstrip (text : pystr) : pystr :=
  match text with
  | [] => []
  | c :: rest => if is_space c then lstrip rest else text
  end.

Definition rstrip (text : pystr) : pystr := rev (lstrip (rev text)).

(** [text.strip()]. *)
Definition strip (text : pystr) : pystr := rstrip (lstrip text).

Definition clean_html (text : pystr) : pystr :=
  let text := re_sub_tags 0 text in
  let text := replace (u "&nbsp;") (u " ") text in
  let text := replace (u "&lt;") (u "<") text in
  let text := replace (u "&gt;") (u ">") text in
  let text := replace (u "&amp;") (u "&") text in
  let text := strip text in
  text.

(** [text.split(sep)] for a one-character [sep]: the pieces between the
    separators, at least one piece. *)
Fixpoint split (sep : N) (text : pystr) : list pystr :=
  match text with
  | [] => [[]]
  | c :: rest =>
      if (c =? sep)%N then [] :: split sep rest
      else match split sep rest with
           | piece :: pieces => (c :: piece) :: pieces
           | [] => [[c]]
           end
  end.

(** The dict [{note[0]: note[1] for note in notes}]: a later row wins
    over an earlier one with the same id. *)
Definition note_dict (notes : list (Z * pystr)) : Z -> option pystr :=
  fold_left
    (fun d note k => if (k =? fst note)%Z then Some (snd note) else d k)
    notes (fun _ => None).

(** The loop of [parse_apkg] over the rows of [cards] ([id], [nid],
    [ord]), given the rows of [notes] ([id], [flds]): the value of
    ['cards'] in the dict that [parse_apkg] returns, as [(front, back)]
    pairs. *)
Definition parse_apkg_cards
  (notes : list (Z * pystr)) (cards_data : list (Z * Z * Z))
  : list (pystr * pystr) :=
  let note_dict := note_dict notes in
  fold_left
    (fun cards row =>
       let '(card_id, note_id, ord_num) := row in
       match note_dict note_id with
       | Some flds =>
           let fields := split 31 flds in
           let front := if (0 <? length fields)%nat then nth 0 fields [] else [] in
           let back := if (1 <? length fields)%nat then nth 1 fields [] else [] in
           let front := clean_html front in
           let back := clean_html back in
           cards ++ [(front, back)]
       | None => cards
       end)
    cards_data [].

(** A text without ['<'] and without ['&']: nothing for [clean_html] to
    remove or decode. *)
Definition plain (text : pystr) : Prop :=
  ~ In 60%N text /\ ~ In 38%N text.

(** A text that [strip()] leaves as it is: no white space at either end. *)
Definition trimmed (text : pystr) : Prop :=
  match text with
  | [] => True
  | c :: _ => is_space c = false /\ is_space (last text c) = false
  end.

(** ** run.py *)

(** What the start-up script does, in order: a call of [db.create_all()],
    the two [print]s (the second with the numbers it shows), a
    [time.sleep] and [app.run]. *)
Inductive event : Type :=
| Ev_create_all
| Ev_print_connected
| Ev_print_waiting (retry_count max_retries : nat)
| Ev_sleep (seconds : nat)
| Ev_app_run.

(** The [while retry_count < max_retries] loop.  [db_up k] tells whether
    the call of [db.create_all()] made after [k] failures succeeds; any
    exception counts as a failure.  [fuel] bounds the iterations of the
    model; the loop itself stops by its test or by [break]. *)
Fixpoint wait_for_database
  (db_up : nat -> bool) (max_retries retry_count fuel : nat) : list event :=
  match fuel with
  | O => []
  | S fuel' =>
      if (retry_count <? max_retries)%nat then
        Ev_create_all ::
        (if db_up retry_count then [Ev_print_connected]
         else
           let retry_count := S retry_count in
           Ev_print_waiting retry_count max_retries :: Ev_sleep 1 ::
           wait_for_database db_up max_retries retry_count fuel')
      else []
  end.

(** The script run as [__main__], with [max_retries = 30]. *)
Definition run_main (db_up : nat -> bool) (fuel : nat) : list event :=
  let max_retries := 30%nat in
  let retry_count := 0%nat in
  wait_for_database db_up max_retries retry_count fuel ++ [Ev_app_run].

Definition is_create_all (e : event) : bool :=
  match e with Ev_create_all => true | _ => false end.

Definition is_sleep (e : event) : bool :=
  match e with Ev_sleep _ => true | _ => false end.

(** ** Successive reviews *)


(** What the scheduler relies on in a stored card: a positive difficulty,
    a retrievability in [[0, 1]], a count of reviews that is not negative
    and, once the card has history, a stability of at least 0.1. *)
Definition card_ok (card : Card) : Prop :=
  0 < c_difficulty card
  /\ 0 <= c_retrievability card <= 1
  /\ (0 <= c_reps card)%Z
  /\ (first_review (card_state_of card) = false -> 0.1 <= c_stability card).



(** A clock that never runs backwards. *)
Definition monotone (clk : clock) : Prop :=
  forall i j, (i <= j)%nat -> clk i <= clk j.

(** ** Python's operations on the reals *)

Lemma max_Rmax (a b : R) : Py.max a b = Rmax a b.
Proof.
  unfold Py.max, Rmax.
  destruct (Rlt_dec a b), (Rle_dec a b); lra.
Qed.

Lemma min_Rmin (a b : R) : Py.min a b = Rmin a b.
Proof.
  unfold Py.min, Rmin.
  destruct (Rlt_dec b a), (Rle_dec a b); lra.
Qed.

Lemma max_lower (a b : R) : a <= Py.max a b.
Proof. unfold Py.max. destruct (Rlt_dec a b); lra. Qed.

Lemma max_upper (a b c : R) : a <= c -> b <= c -> Py.max a b <= c.
Proof. unfold Py.max. destruct (Rlt_dec a b); lra. Qed.

Lemma min_upper (a b : R) : Py.min a b <= a.
Proof. unfold Py.min. destruct (Rlt_dec b a); lra. Qed.

Lemma min_lower (a b c : R) : c <= a -> c <= b -> c <= Py.min a b.
Proof. unfold Py.min. destruct (Rlt_dec b a); lra. Qed.

Lemma max_mono (a b c : R) : b <= c -> Py.max a b <= Py.max a c.
Proof. unfold Py.max. destruct (Rlt_dec a b), (Rlt_dec a c); lra. Qed.

(** The clamp [max(lo, min(hi, x))] lands in [[lo, hi]]. *)
Lemma clamp_bounds (lo hi x : R) :
  lo <= hi -> lo <= Py.max lo (Py.min hi x) <= hi.
Proof.
  intros Hle. split.
  - apply max_lower.
  - apply max_upper; [exact Hle | apply min_upper].
Qed.

Lemma math_pow_pos (x y : R) : 0 < x -> math_pow x y = Ok (Rpower x y).
Proof.
  intros Hx. unfold math_pow.
  destruct (Req_dec_T y 0) as [-> | _].
  - now rewrite Rpower_O.
  - destruct (Rlt_dec 0 x); [reflexivity | contradiction].
Qed.

Lemma Rpower_one (y : R) : Rpower 1 y = 1.
Proof. unfold Rpower. rewrite ln_1, Rmult_0_r. apply exp_0. Qed.

Lemma Rpower_pos (x y : R) : 0 < Rpower x y.
Proof. unfold Rpower. apply exp_pos. Qed.

Lemma Rpower_m2 (x : R) : 0 < x -> Rpower x (- 2) = / (x * x).
Proof.
  intros Hx. replace (- 2) with (Ropp (INR 2)) by (simpl; lra).
  rewrite Rpower_Ropp, Rpower_pow by exact Hx.
  simpl. now rewrite Rmult_1_r.
Qed.

Lemma is_integer_IZR (z : Z) : is_integer (IZR z) = true.
Proof.
  unfold is_integer.
  destruct (Req_dec_T (IZR z) (IZR (Int_part (IZR z)))) as [_ | Hne];
    [reflexivity |].
  exfalso. apply Hne. f_equal. apply Int_part_spec. lra.
Qed.

(** [math.pow(x, -2.0)] is [1 / x^2] for every nonzero [x], and raises at 0. *)
Lemma math_pow_m2 (x : R) : x <> 0 -> math_pow x (- 2) = Ok (/ (x * x)).
Proof.
  intros Hx. unfold math_pow.
  destruct (Req_dec_T (- 2) 0) as [E | _]; [lra |].
  destruct (Rlt_dec 0 x) as [Hpos | Hneg].
  - now rewrite Rpower_m2.
  - destruct (Req_dec_T x 0) as [E | _]; [contradiction |].
    replace (- 2) with (IZR (- 2)) by lra. rewrite is_integer_IZR.
    replace (Int_part (IZR (- 2))) with (- 2)%Z
      by (apply Int_part_spec; lra).
    f_equal. simpl. rewrite Rmult_1_r. reflexivity.
Qed.

Lemma math_pow_m2_zero : math_pow 0 (- 2) = Raise ValueError.
Proof.
  unfold math_pow.
  destruct (Req_dec_T (- 2) 0) as [E | _]; [lra |].
  destruct (Rlt_dec 0 0) as [H | _]; [lra |].
  destruct (Req_dec_T 0 0) as [_ | H]; [| lra].
  destruct (Rlt_dec 0 (- 2)) as [H | _]; [lra | reflexivity].
Qed.

Lemma math_pow_raises (x y : R) (e : exn) :
  math_pow x y = Raise e -> e = ValueError.
Proof.
  unfold math_pow.
  destruct (Req_dec_T y 0); [discriminate |].
  destruct (Rlt_dec 0 x); [discriminate |].
  destruct (Req_dec_T x 0).
  - destruct (Rlt_dec 0 y); [discriminate | now intros [= <-]].
  - destruct (is_integer y); [discriminate | now intros [= <-]].
Qed.

(** ** The constants set by [__init__] *)

Lemma inv_DECAY_init (params : option Params) (dr : R) :
  1 / DECAY (FSRS_init params dr) = - 2.
Proof. simpl. lra. Qed.

Lemma FACTOR_init (params : option Params) (dr : R) :
  FACTOR (FSRS_init params dr) = 19 / 81.
Proof.
  simpl. replace (1 / - 0.5) with (- 2) by lra.
  rewrite Rpower_m2 by lra. lra.
Qed.

Lemma forgettingFactor_value : Design.forgettingFactor = 19 / 81.
Proof. exact (FACTOR_init None 0.9). Qed.

(** ** The methods, one by one *)

Section MethodFacts.

Variable params : option Params.
Variable dr : R.

Let self : FSRS := FSRS_init params dr.

(** [calculate_retrievability] never raises: past its two guards both
    bases of [math.pow] are positive. *)
Lemma calculate_retrievability_design (elapsed_days s : R) :
  calculate_retrievability self elapsed_days s
  = Ok (Design.computeRetrievability elapsed_days s).
Proof.
  unfold calculate_retrievability, Design.computeRetrievability.
  destruct (Rle_dec s 0) as [Hs | Hs]; [f_equal; lra |].
  destruct (Rle_dec elapsed_days 0) as [Ht | Ht]; [f_equal; lra |].
  assert (Hq : 0 < elapsed_days / s)
    by (apply Rdiv_lt_0_compat; lra).
  rewrite math_pow_pos by exact Hq. cbn [rbind].
  assert (Hb : 0 < 1 + FACTOR self * Rpower (elapsed_days / s) (DECAY self)).
  { unfold self. rewrite FACTOR_init.
    pose proof (Rpower_pos (elapsed_days / s) (DECAY (FSRS_init params dr))).
    nra. }
  rewrite math_pow_pos by exact Hb. cbn [rbind].
  rewrite max_Rmax, min_Rmin. unfold Design.clamp.
  unfold self at 1 2. rewrite FACTOR_init, forgettingFactor_value.
  replace 0.0 with 0 by lra. replace 1.0 with 1 by lra.
  reflexivity.
Qed.

Lemma calculate_retrievability_bounds (elapsed_days s r : R) :
  calculate_retrievability self elapsed_days s = Ok r -> 0 <= r <= 1.
Proof.
  unfold calculate_retrievability.
  destruct (Rle_dec s 0); [intros [= <-]; lra |].
  destruct (Rle_dec elapsed_days 0); [intros [= <-]; lra |].
  destruct (math_pow _ _); [cbn [rbind] | discriminate].
  destruct (math_pow _ _); [cbn [rbind] | discriminate].
  intros [= <-].
  pose proof (clamp_bounds 0.0 1.0 a0). lra.
Qed.

(** [calculate_interval] returns whenever the retention in force is not 0,
    where [math.pow(0.0, -2.0)] raises. *)
Lemma calculate_interval_value (s : R) (arg : option R) :
  get arg dr <> 0 ->
  calculate_interval self s arg
  = Ok (Py.max 0.1 (s / (19 / 81) * (/ (get arg dr * get arg dr) - 1))).
Proof.
  intros Hdr. unfold calculate_interval.
  unfold self at 2. rewrite inv_DECAY_init.
  change (desired_retention self) with dr.
  rewrite math_pow_m2 by exact Hdr. cbn [rbind].
  unfold self. now rewrite FACTOR_init.
Qed.

Lemma calculate_interval_zero (s : R) (arg : option R) :
  get arg dr = 0 -> calculate_interval self s arg = Raise ValueError.
Proof.
  intros Hdr. unfold calculate_interval.
  unfold self at 2. rewrite inv_DECAY_init.
  change (desired_retention self) with dr.
  rewrite Hdr, math_pow_m2_zero. reflexivity.
Qed.

End MethodFacts.

Lemma gradeMultiplier_good (p : Params) (grade : Z) :
  grade <> 2%Z -> grade <> 4%Z -> Design.gradeMultiplier p grade = 1.
Proof.
  intros H2 H4. unfold Design.gradeMultiplier.
  destruct grade as [| q | q]; try reflexivity.
  destruct q as [q | q |]; try reflexivity.
  destruct q as [q | q |]; try reflexivity; [| congruence].
  destruct q as [q | q |]; try reflexivity; congruence.
Qed.

Section StabilityFacts.

Variable self : FSRS.

Lemma next_stability_lapse (s d r : R) (grade : Z) (is_lapse : bool) :
  is_lapse || (grade =? 1)%Z = true ->
  0 < d -> 0 < s + 1 ->
  next_stability self s d r grade is_lapse
  = Ok (Design.lapseStability (w self) s d r).
Proof.
  intros Hb Hd Hs. unfold next_stability. rewrite Hb.
  rewrite !math_pow_pos by assumption. cbn [rbind].
  rewrite min_Rmin, max_Rmax. reflexivity.
Qed.

Lemma next_stability_success (s d r : R) (grade : Z) :
  grade <> 1%Z ->
  next_stability self s d r grade false
  = Ok (Design.successStability (w self) s d r grade).
Proof.
  intros Hg. unfold next_stability, Design.successStability.
  apply Z.eqb_neq in Hg. rewrite Hg. cbn [orb].
  assert (Hfs : (if Rlt_dec 0 s then math_pow s (- w9 (w self)) else Ok 1.0)
                = Ok (if Rlt_dec 0 s then Rpower s (- w9 (w self)) else 1)).
  { destruct (Rlt_dec 0 s); [now apply math_pow_pos | f_equal; lra]. }
  rewrite Hfs. cbn [rbind].
  unfold math_exp.
  destruct (grade =? 2)%Z eqn:E2.
  - apply Z.eqb_eq in E2. subst grade. cbn [Design.gradeMultiplier].
    rewrite max_Rmax. do 2 f_equal. lra.
  - destruct (grade =? 4)%Z eqn:E4.
    + apply Z.eqb_eq in E4. subst grade. cbn [Design.gradeMultiplier].
      rewrite max_Rmax. do 2 f_equal. lra.
    + apply Z.eqb_neq in E2, E4.
      rewrite gradeMultiplier_good by assumption.
      rewrite max_Rmax. do 2 f_equal. lra.
Qed.

(** What [next_stability] raises is the [ValueError] of [math.pow]. *)
Lemma next_stability_raises
  (s d r : R) (grade : Z) (is_lapse : bool) (e : exn) :
  next_stability self s d r grade is_lapse = Raise e -> e = ValueError.
Proof.
  unfold next_stability.
  destruct (is_lapse || (grade =? 1)%Z).
  - destruct (math_pow d _) eqn:H1; cbn [rbind].
    + destruct (math_pow (s + 1) _) eqn:H2; cbn [rbind]; [discriminate |].
      intros [= <-]. exact (math_pow_raises _ _ _ H2).
    + intros [= <-]. exact (math_pow_raises _ _ _ H1).
  - destruct (Rlt_dec 0 s).
    + destruct (math_pow s _) eqn:H1; cbn [rbind].
      * destruct (grade =? 2)%Z; [discriminate |].
        destruct (grade =? 4)%Z; discriminate.
      * intros [= <-]. exact (math_pow_raises _ _ _ H1).
    + cbn [rbind]. destruct (grade =? 2)%Z; [discriminate |].
      destruct (grade =? 4)%Z; discriminate.
Qed.

Lemma next_difficulty_bounds (d : R) (grade : Z) :
  1 <= next_difficulty self d grade <= 10.
Proof.
  unfold next_difficulty.
  match goal with |- _ <= Py.max _ (Py.min _ ?x) <= _ =>
    pose proof (clamp_bounds 1.0 10.0 x) end.
  lra.
Qed.

Lemma init_difficulty_bounds (grade : Z) :
  1 <= init_difficulty self grade <= 10.
Proof.
  unfold init_difficulty.
  match goal with |- _ <= Py.max _ (Py.min _ ?x) <= _ =>
    pose proof (clamp_bounds 1.0 10.0 x) end.
  lra.
Qed.

End StabilityFacts.

(** ** Stability *)

Lemma Rmax_mono_r (a b c : R) : b <= c -> Rmax a b <= Rmax a c.
Proof.
  intros H. unfold Rmax.
  destruct (Rle_dec a b), (Rle_dec a c); lra.
Qed.

Lemma exp_ge_1 (x : R) : 0 <= x -> 1 <= exp x.
Proof. intros H. pose proof (exp_ineq1_le x). lra. Qed.

(** The part of the stability increment that does not depend on the grade
    is nonnegative when [w10 >= 0], [D < 11] and [R <= 1]. *)
Lemma increment_nonneg (p : Params) (S D Rv : R) :
  0 <= w10 p -> D <= 10 -> Rv <= 1 ->
  0 <= exp (w8 p) * (11 - D)
       * (if Rlt_dec 0 S then Rpower S (- w9 p) else 1)
       * (exp (w10 p * (1 - Rv)) - 1).
Proof.
  intros Hw HD HR.
  assert (H8 : 0 < exp (w8 p)) by apply exp_pos.
  assert (HfS : 0 < (if Rlt_dec 0 S then Rpower S (- w9 p) else 1))
    by (destruct (Rlt_dec 0 S); [apply Rpower_pos | lra]).
  assert (HfR : 0 <= exp (w10 p * (1 - Rv)) - 1).
  { assert (0 <= w10 p * (1 - Rv)) by nra.
    pose proof (exp_ge_1 (w10 p * (1 - Rv))). lra. }
  apply Rmult_le_pos; [| exact HfR].
  apply Rmult_le_pos; [| lra].
  apply Rmult_le_pos; lra.
Qed.

(** C3: for grade 1 (Again), whatever the [is_lapse] flag, [next_stability]
    returns exactly [min(S, max(0.1, w11 * D^(-w12) * ((S+1)^w13 - 1) *
    e^(w10*(1-R))))] wherever the two real powers are defined ([D > 0] and
    [S + 1 > 0]); the value is at most [S], and so is every value that
    [next_stability] returns for grade 1: a lapse never increases
    stability. *)
Theorem next_stability_again_design
  (self : FSRS) (S D Rv : R) (is_lapse : bool) :
  (0 < D -> -1 < S ->
   next_stability self S D Rv 1 is_lapse
   = Ok (Design.lapseStability (w self) S D Rv))
  /\ Design.lapseStability (w self) S D Rv <= S
  /\ (forall v, next_stability self S D Rv 1 is_lapse = Ok v -> v <= S).
Proof.
  split; [| split].
  - intros HD HS. apply next_stability_lapse; [| exact HD | lra].
    now rewrite orb_true_r.
  - unfold Design.lapseStability. apply Rmin_l.
  - intros v. unfold next_stability. rewrite orb_true_r.
    destruct (math_pow D _); [cbn [rbind] | discriminate].
    destruct (math_pow (S + 1) _); [cbn [rbind] | discriminate].
    intros [= <-]. apply min_upper.
Qed.

Lemma next_stability_again_design_witness :
  next_stability FSRS_default 10 5 0.9 1 true
  = Ok (Design.lapseStability DEFAULT_PARAMS 10 5 0.9)
  /\ Design.lapseStability DEFAULT_PARAMS 10 5 0.9 <= 10.
Proof.
  destruct (next_stability_again_design FSRS_default 10 5 0.9 true)
    as [Heq [Hle _]].
  split; [apply Heq; lra | exact Hle].
Defined.

(** C4, as amended: for weights with [w10 >= 0] and [w16 >= 1] (those of
    [DEFAULT_PARAMS] among them), every prior stability [S >= 0],
    difficulty [D] in [[1, 10]] and retrievability [R] in [[0, 1]], the
    success branch of [next_stability] returns
    [max(0.1, S * (1 + e^w8 * (11 - D) * f_S * f_R * m))] with [m = 0.5]
    for Hard, [m = 1] for Good and [m = w16] for Easy, and its value for
    Easy is at least its value for Good, which is at least its value for
    Hard. *)
Theorem next_stability_success_monotone (self : FSRS) (S D Rv : R) :
  0 <= w10 (w self) -> 1 <= w16 (w self) ->
  0 <= S -> 1 <= D <= 10 -> 0 <= Rv <= 1 ->
  next_stability self S D Rv 2 false
  = Ok (Design.successStability (w self) S D Rv 2)
  /\ next_stability self S D Rv 3 false
     = Ok (Design.successStability (w self) S D Rv 3)
  /\ next_stability self S D Rv 4 false
     = Ok (Design.successStability (w self) S D Rv 4)
  /\ Design.successStability (w self) S D Rv 2
     <= Design.successStability (w self) S D Rv 3
     <= Design.successStability (w self) S D Rv 4
  /\ Design.gradeMultiplier (w self) 2 = 0.5
  /\ Design.gradeMultiplier (w self) 3 = 1
  /\ Design.gradeMultiplier (w self) 4 = w16 (w self).
Proof.
  intros Hw10 Hw16 HS [_ HD] [_ HR].
  repeat split; try (apply next_stability_success; discriminate).
  - unfold Design.successStability. cbn [Design.gradeMultiplier].
    pose proof (increment_nonneg (w self) S D Rv Hw10 HD HR) as HX.
    set (X := exp _ * _ * _ * _) in *.
    pose proof (Rmult_le_pos S X HS HX).
    apply Rmax_mono_r. nra.
  - unfold Design.successStability. cbn [Design.gradeMultiplier].
    pose proof (increment_nonneg (w self) S D Rv Hw10 HD HR) as HX.
    set (X := exp _ * _ * _ * _) in *.
    pose proof (Rmult_le_pos S X HS HX).
    apply Rmax_mono_r. nra.
Qed.

Lemma next_stability_success_monotone_witness :
  Design.successStability DEFAULT_PARAMS 10 5 0.9 2
  <= Design.successStability DEFAULT_PARAMS 10 5 0.9 3
  <= Design.successStability DEFAULT_PARAMS 10 5 0.9 4.
Proof.
  assert (H : 0 <= w10 (w FSRS_default)) by (simpl; lra).
  assert (H' : 1 <= w16 (w FSRS_default)) by (simpl; lra).
  destruct (next_stability_success_monotone FSRS_default 10 5 0.9 H H')
    as (_ & _ & _ & Hm & _); [lra | lra | lra |].
  exact Hm.
Defined.

(** Against C4 as stated: with [DEFAULT_PARAMS] but [w10 = -0.9221], at
    [S = 1], [D = 10], [R = 0.9], a Good answer leaves the card less stable
    than a Hard one.  The order needs a condition on the weights. *)
Lemma next_stability_good_below_hard :
  exists h g,
    next_stability (FSRS_init (Some params_negative_w10) 0.9) 1 10 0.9 2 false
    = Ok h
    /\ next_stability (FSRS_init (Some params_negative_w10) 0.9) 1 10 0.9 3 false
       = Ok g
    /\ g < h.
Proof.
  rewrite !next_stability_success by discriminate.
  do 2 eexists. split; [reflexivity |]. split; [reflexivity |].
  unfold Design.successStability. cbn [Design.gradeMultiplier].
  cbn [w FSRS_init get params_negative_w10 w8 w9 w10 w16].
  destruct (Rlt_dec 0 1) as [_ | H]; [| lra].
  rewrite Rpower_one.
  match goal with
  | |- context [exp ?a * (11 - 10) * 1 * (exp ?b - 1)] =>
      assert (HE : 0 < exp a <= 9);
      [| assert (HF : - 0.09221 <= exp b - 1 < 0);
         [| set (E := exp a) in *; set (F := exp b - 1) in * ] ]
  end.
  { split; [apply exp_pos |].
    apply Rle_trans with (exp (1 + 1)).
    - left. apply exp_increasing. lra.
    - rewrite exp_plus. pose proof exp_le_3. pose proof (exp_pos 1). nra. }
  { match goal with |- _ <= exp ?b - 1 < _ =>
      replace b with (- 0.09221) by lra end.
    split.
    - pose proof (exp_ineq1_le (- 0.09221)). lra.
    - pose proof (exp_increasing (- 0.09221) 0). rewrite exp_0 in *. lra. }
  assert (HX : - 0.83 <= E * (11 - 10) * 1 * F < 0) by nra.
  set (X := E * (11 - 10) * 1 * F) in *.
  rewrite !Rmax_right by lra. lra.
Qed.

(** ** Retrievability *)

(** C5: [calculate_retrievability] returns exactly 1.0 whenever
    [stability <= 0] or [elapsed_days <= 0], and otherwise
    [(1 + forgettingFactor * (elapsed_days / stability)^(-0.5))^(-0.5)]
    clamped to [[0, 1]]; it never raises.  In particular it returns 1.0 at
    [(0, 10)] and at [(t, 0)] for every [t]. *)
Theorem calculate_retrievability_spec
  (params : option Params) (dr elapsed_days stability : R) :
  calculate_retrievability (FSRS_init params dr) elapsed_days stability
  = Ok (Design.computeRetrievability elapsed_days stability)
  /\ (stability <= 0 \/ elapsed_days <= 0 ->
      calculate_retrievability (FSRS_init params dr) elapsed_days stability
      = Ok 1)
  /\ (0 < stability -> 0 < elapsed_days ->
      calculate_retrievability (FSRS_init params dr) elapsed_days stability
      = Ok (Rmax 0
              (Rmin 1
                 (Rpower
                    (1 + Design.forgettingFactor
                         * Rpower (elapsed_days / stability) (- 0.5))
                    (- 0.5)))))
  /\ calculate_retrievability (FSRS_init params dr) 0 10 = Ok 1
  /\ calculate_retrievability (FSRS_init params dr) elapsed_days 0 = Ok 1.
Proof.
  repeat split.
  - apply calculate_retrievability_design.
  - intros H. rewrite calculate_retrievability_design.
    unfold Design.computeRetrievability.
    destruct (Rle_dec stability 0); [reflexivity |].
    destruct (Rle_dec elapsed_days 0); [reflexivity | lra].
  - intros Hs Ht. rewrite calculate_retrievability_design.
    unfold Design.computeRetrievability.
    destruct (Rle_dec stability 0); [lra |].
    destruct (Rle_dec elapsed_days 0); [lra | reflexivity].
  - unfold calculate_retrievability.
    destruct (Rle_dec 10 0); [lra |].
    destruct (Rle_dec 0 0); [f_equal; lra | lra].
  - unfold calculate_retrievability.
    destruct (Rle_dec 0 0); [f_equal; lra | lra].
Qed.

Lemma calculate_retrievability_spec_witness :
  calculate_retrievability FSRS_default 3 0 = Ok 1
  /\ calculate_retrievability FSRS_default 3 10
     = Ok (Rmax 0
             (Rmin 1
                (Rpower
                   (1 + Design.forgettingFactor * Rpower (3 / 10) (- 0.5))
                   (- 0.5)))).
Proof.
  destruct (calculate_retrievability_spec None 0.9 3 0) as (_ & H1 & _).
  destruct (calculate_retrievability_spec None 0.9 3 10) as (_ & _ & H2 & _).
  split; [apply H1; left; lra | apply H2; lra].
Defined.

(** ** Difficulty *)

(** C7: for every difficulty [D] and grade [g] in 1..4,
    [next_difficulty(D, g)] is [0.5 * (D + delta * (10 - D) / 9) + 0.5 * w4]
    clamped to [[1, 10]], where [delta = -w6 * (g - 3)] for Again and Hard
    (so [2 * w6] and [w6]), [delta = -w7 * (g - 3) = -w7] for Easy and
    [delta = 0] for Good: Again and Hard share [w6], and the reversion
    factor is the constant 0.5. *)
Theorem next_difficulty_design (self : FSRS) (D : R) (g : Z) :
  (1 <= g <= 4)%Z ->
  next_difficulty self D g = Design.nextDifficulty (w self) D g
  /\ Design.nextDifficulty (w self) D g
     = Rmax 1
         (Rmin 10
            (0.5 * (D + Design.delta (w self) g * (10 - D) / 9)
             + 0.5 * w4 (w self)))
  /\ Design.delta (w self) 1 = - w6 (w self) * (1 - 3)
  /\ Design.delta (w self) 2 = - w6 (w self) * (2 - 3)
  /\ Design.delta (w self) 3 = 0
  /\ Design.delta (w self) 4 = - w7 (w self) * (4 - 3).
Proof.
  intros Hg. repeat split; try reflexivity.
  unfold next_difficulty, Design.nextDifficulty, Design.clamp.
  rewrite max_Rmax, min_Rmin.
  assert (Hcases : g = 1%Z \/ g = 2%Z \/ g = 3%Z \/ g = 4%Z) by lia.
  destruct Hcases as [-> | [-> | [-> | ->]]];
    cbn [Z.eqb Pos.eqb Design.delta];
    replace 1.0 with 1 by lra; replace 10.0 with 10 by lra;
    do 2 f_equal; lra.
Qed.

Lemma next_difficulty_design_witness :
  next_difficulty FSRS_default 5 1
  = Design.nextDifficulty DEFAULT_PARAMS 5 1.
Proof.
  apply (next_difficulty_design FSRS_default 5 1). lia.
Defined.

(** ** Interval *)

Lemma calculate_interval_bound
  (params : option Params) (dr s v : R) (arg : option R) :
  calculate_interval (FSRS_init params dr) s arg = Ok v -> 0.1 <= v.
Proof.
  unfold calculate_interval.
  destruct (math_pow _ _); [cbn [rbind] | discriminate].
  intros [= <-]. apply max_lower.
Qed.

(** C10, as amended: in real arithmetic, when the desired retention is 0.9
    (the default), [calculate_interval(S)] is exactly [max(0.1, S)] for
    every stability [S]: the factor [0.9^(1/DECAY) - 1] cancels with
    [FACTOR], the same expression.  (On binary64 the quotient and the
    product round, see [Binary64].) *)
Theorem calculate_interval_default_retention (params : option Params) (S : R) :
  calculate_interval (FSRS_init params 0.9) S None = Ok (Rmax 0.1 S)
  /\ calculate_interval (FSRS_init params 0.5) S (Some 0.9) = Ok (Rmax 0.1 S)
  /\ Design.computeInterval 0.9 S = Rmax 0.1 S.
Proof.
  repeat split.
  - rewrite calculate_interval_value by (cbn [get]; lra).
    rewrite max_Rmax. cbn [get].
    replace (S / (19 / 81) * (/ (0.9 * 0.9) - 1)) with S by lra.
    reflexivity.
  - rewrite calculate_interval_value by (cbn [get]; lra).
    rewrite max_Rmax. cbn [get].
    replace (S / (19 / 81) * (/ (0.9 * 0.9) - 1)) with S by lra.
    reflexivity.
  - unfold Design.computeInterval.
    fold Design.forgettingFactor.
    change (Rpower 0.9 (1 / Design.decayExponent) - 1)
      with Design.forgettingFactor.
    rewrite forgettingFactor_value.
    replace (S / (19 / 81) * (19 / 81)) with S by lra.
    reflexivity.
Qed.

Module Binary64Facts.

Import Floats.
Local Open Scope float_scope.
#[local] Set Warnings "-inexact-float".

(** [pow_0_9_m2] is within a tenth of a unit in the last place ([2^-52],
    the value being in [[1, 2)]) of the real [x^(-2)], [x] the binary64
    value of [0.9]: it is what a [pow] with an error below 0.9 ulp
    returns. *)
Lemma pow_0_9_m2_nearest :
  let x := Binary64.to_Q 0.9 in
  let p := Binary64.to_Q Binary64.pow_0_9_m2 in
  QArith_base.Qle
    (QArith_base.Qmult
       (QArith_base.Qmult
          (Qabs.Qabs
             (QArith_base.Qminus
                (QArith_base.Qmult (QArith_base.Qmult p x) x)
                (QArith_base.Qmake 1 1)))
          (QArith_base.Qpower (QArith_base.Qmake 2 1) 52))
       (QArith_base.Qmake 10 1))
    (QArith_base.Qmult x x).
Proof. apply QArith_base.Qle_bool_iff. vm_compute. reflexivity. Qed.

(** With either neighbour of that value the cancellation fails as well, at
    stability 15.4722 (the default [w3]). *)
Lemma calculate_interval_binary64_inexact_neighbours :
  (let p := next_down Binary64.pow_0_9_m2 in
   Binary64.calculate_interval p p 15.4722 <> Binary64.max 0.1 15.4722)
  /\ (let p := next_up Binary64.pow_0_9_m2 in
      Binary64.calculate_interval p p 15.4722 <> Binary64.max 0.1 15.4722).
Proof.
  split; intros p H;
    apply (f_equal (fun x => PrimFloat.eqb x (Binary64.max 0.1 15.4722))) in H;
    vm_compute in H; discriminate H.
Qed.

(** Against C10 as stated: on binary64, with the correctly rounded
    [pow(0.9, -2.0)], the interval of stability 63.0 at retention 0.9 is
    63.00000000000001 and not [max(0.1, 63.0)]: the factor does not cancel
    exactly. *)
Lemma calculate_interval_binary64_inexact :
  Binary64.calculate_interval Binary64.pow_0_9_m2 Binary64.pow_0_9_m2 63
  = 63.00000000000001
  /\ Binary64.calculate_interval Binary64.pow_0_9_m2 Binary64.pow_0_9_m2 63
     <> Binary64.max 0.1 63.
Proof.
  split; [vm_compute; reflexivity |].
  intros H.
  apply (f_equal (fun x => PrimFloat.eqb x (Binary64.max 0.1 63))) in H.
  vm_compute in H. discriminate H.
Qed.

End Binary64Facts.

(** ** Due dates *)

Lemma due_date_of_fits (now : datetime) (new_interval : R) :
  fits now new_interval ->
  due_date_of now new_interval = Ok (now + timedelta_days new_interval).
Proof.
  intros [[Hlo Hhi] [H0 Hmax]]. unfold due_date_of, timedelta.
  destruct (Rle_dec (- 999999999) new_interval); [| contradiction].
  destruct (Rlt_dec new_interval 1000000000); [| contradiction].
  cbn [rbind]. unfold datetime_add.
  destruct (Rle_dec 0 (now + timedelta_days new_interval)); [| contradiction].
  destruct (Rle_dec (now + timedelta_days new_interval) datetime_max);
    [reflexivity | contradiction].
Qed.

Lemma due_date_of_overflow (now : datetime) (new_interval : R) :
  ~ fits now new_interval ->
  due_date_of now new_interval = Raise OverflowError.
Proof.
  intros Hno. unfold due_date_of, timedelta.
  destruct (Rle_dec (- 999999999) new_interval); [| reflexivity].
  destruct (Rlt_dec new_interval 1000000000); [| reflexivity].
  cbn [rbind]. unfold datetime_add.
  destruct (Rle_dec 0 (now + timedelta_days new_interval)); [| reflexivity].
  destruct (Rle_dec (now + timedelta_days new_interval) datetime_max);
    [| reflexivity].
  exfalso. apply Hno. unfold fits. auto.
Qed.

Lemma fits_dec (now : datetime) (new_interval : R) :
  {fits now new_interval} + {~ fits now new_interval}.
Proof.
  unfold fits.
  destruct (Rle_dec (- 999999999) new_interval); [| right; tauto].
  destruct (Rlt_dec new_interval 1000000000); [| right; tauto].
  destruct (Rle_dec 0 (now + timedelta_days new_interval)); [| right; tauto].
  destruct (Rle_dec (now + timedelta_days new_interval) datetime_max);
    [left; tauto | right; tauto].
Qed.

Lemma due_date_of_ok (now : datetime) (new_interval : R) (due : datetime) :
  due_date_of now new_interval = Ok due ->
  fits now new_interval /\ due = now + timedelta_days new_interval.
Proof.
  intros Hrun. destruct (fits_dec now new_interval) as [Hfits | Hno].
  - rewrite due_date_of_fits in Hrun by exact Hfits.
    injection Hrun as <-. split; [exact Hfits | reflexivity].
  - rewrite due_date_of_overflow in Hrun by exact Hno. discriminate.
Qed.

Lemma due_date_of_raise (now : datetime) (new_interval : R) (e : exn) :
  due_date_of now new_interval = Raise e ->
  ~ fits now new_interval /\ e = OverflowError.
Proof.
  intros Hrun. destruct (fits_dec now new_interval) as [Hfits | Hno].
  - rewrite due_date_of_fits in Hrun by exact Hfits. discriminate.
  - rewrite due_date_of_overflow in Hrun by exact Hno.
    injection Hrun as <-. split; [exact Hno | reflexivity].
Qed.

(** An interval of at most [days] days fits a clock that reads [days] days
    before [datetime.max] or earlier. *)
Lemma fits_headroom (days : R) (now : datetime) (new_interval : R) :
  0 <= new_interval <= days -> days <= 999999999 ->
  days_before_max days now ->
  fits now new_interval.
Proof.
  unfold fits, days_before_max, timedelta_days. intros Hi Hdays Hnow.
  split; lra.
Qed.

(** The last lines of [schedule_card]: the due date, then [last_review]. *)
Lemma schedule_card_tail
  {A} (clk : clock) (new_interval : R) (k : datetime -> io A) (n : nat) :
  io_bind (utcnow clk)
    (fun now_due =>
       io_bind (lift (timedelta new_interval))
         (fun td => io_bind (lift (datetime_add now_due td)) k)) n
  = match due_date_of (clk n) new_interval with
    | Raise e => Raise e
    | Ok new_due => k new_due (S n)
    end.
Proof.
  unfold io_bind, utcnow, lift, due_date_of, rbind.
  destruct (timedelta new_interval) as [td | e]; [| reflexivity].
  destruct (datetime_add (clk n) td); reflexivity.
Qed.

(** ** schedule_card, branch by branch *)

Section ScheduleFacts.

Variable params : option Params.
Variable dr : R.
Variable clk : clock.

Let self : FSRS := FSRS_init params dr.

(** The interval that [calculate_interval] gives to a stability. *)
Let interval_of (s : R) : R :=
  Py.max 0.1 (s / (19 / 81) * (/ (dr * dr) - 1)).

Lemma schedule_card_first_review (grade : Z) (card_state : CardState) (n : nat) :
  first_review card_state = true ->
  dr <> 0 ->
  schedule_card self clk grade card_state n
  = match due_date_of (clk n) (interval_of (init_stability self grade)) with
    | Raise e => Raise e
    | Ok _ =>
        Ok (first_review_outcome self clk grade card_state n
              (interval_of (init_stability self grade)),
            S (S n))
    end.
Proof.
  intros Hfirst Hdr. unfold first_review in Hfirst.
  unfold schedule_card. rewrite Hfirst.
  unfold io_bind at 1. unfold io_ret at 1.
  unfold io_bind at 1. unfold lift at 1.
  unfold self at 1. rewrite calculate_interval_value by exact Hdr.
  cbn [get]. fold self. fold (interval_of (init_stability self grade)).
  rewrite schedule_card_tail.
  destruct (due_date_of _ _) as [due |] eqn:Hdue; [| reflexivity].
  apply due_date_of_ok in Hdue as [_ ->].
  unfold io_bind, utcnow, io_ret, first_review_outcome.
  reflexivity.
Qed.

Lemma schedule_card_first_review_ok
  (grade : Z) (card_state : CardState) (n : nat) :
  first_review card_state = true ->
  dr <> 0 ->
  fits (clk n) (interval_of (init_stability self grade)) ->
  schedule_card self clk grade card_state n
  = Ok (first_review_outcome self clk grade card_state n
          (interval_of (init_stability self grade)),
        S (S n)).
Proof.
  intros Hfirst Hdr Hfits.
  rewrite schedule_card_first_review by assumption.
  now rewrite due_date_of_fits.
Qed.

Lemma schedule_card_history (grade : Z) (card_state : CardState) (n : nat) :
  first_review card_state = false ->
  dr <> 0 ->
  schedule_card self clk grade card_state n
  = match
      next_stability self
        (get (cs_stability card_state) 0.0)
        (get (cs_difficulty card_state) 5.0)
        (fst (history_retrievability clk card_state n))
        grade (grade =? 1)%Z
    with
    | Raise e => Raise e
    | Ok new_s =>
        match
          due_date_of (clk (snd (history_retrievability clk card_state n)))
            (interval_of new_s)
        with
        | Raise e => Raise e
        | Ok _ =>
            Ok (history_outcome self clk grade card_state n new_s
                  (interval_of new_s),
                S (S (snd (history_retrievability clk card_state n))))
        end
    end.
Proof.
  intros Hfirst Hdr. unfold first_review in Hfirst.
  unfold schedule_card. rewrite Hfirst.
  unfold history_outcome, history_retrievability.
  destruct (cs_last_review card_state) as [lr |].
  - unfold io_bind at 1. unfold io_bind at 1. unfold io_bind at 1.
    unfold utcnow at 1. unfold lift at 1.
    unfold self at 1. rewrite calculate_retrievability_design.
    replace 86400.0 with 86400 by lra.
    cbn [fst snd].
    unfold io_bind at 1. unfold lift at 1.
    fold self.
    destruct (next_stability self _ _ _ grade (grade =? 1)%Z) as [new_s | e];
      [| reflexivity].
    destruct (grade =? 1)%Z;
      unfold io_ret at 1; unfold io_bind at 1; unfold lift at 1;
      unfold self at 1; rewrite calculate_interval_value by exact Hdr;
      cbn [get]; fold (interval_of new_s);
      rewrite schedule_card_tail;
      (destruct (due_date_of _ _) as [due |] eqn:Hdue; [| reflexivity]);
      apply due_date_of_ok in Hdue as [_ ->];
      unfold io_bind, utcnow, io_ret; reflexivity.
  - unfold io_bind at 1. unfold io_bind at 1. unfold io_ret at 1.
    cbn [fst snd].
    replace 1.0 with 1 by lra.
    unfold io_bind at 1. unfold lift at 1.
    destruct (next_stability self _ _ _ grade (grade =? 1)%Z) as [new_s | e];
      [| reflexivity].
    destruct (grade =? 1)%Z;
      unfold io_ret at 1; unfold io_bind at 1; unfold lift at 1;
      unfold self at 1; rewrite calculate_interval_value by exact Hdr;
      cbn [get]; fold (interval_of new_s);
      rewrite schedule_card_tail;
      (destruct (due_date_of _ _) as [due |] eqn:Hdue; [| reflexivity]);
      apply due_date_of_ok in Hdue as [_ ->];
      unfold io_bind, utcnow, io_ret; reflexivity.
Qed.

Lemma schedule_card_history_ok
  (grade : Z) (card_state : CardState) (n : nat) (new_s : R) :
  first_review card_state = false ->
  dr <> 0 ->
  next_stability self
    (get (cs_stability card_state) 0.0)
    (get (cs_difficulty card_state) 5.0)
    (fst (history_retrievability clk card_state n))
    grade (grade =? 1)%Z = Ok new_s ->
  fits (clk (snd (history_retrievability clk card_state n)))
    (interval_of new_s) ->
  schedule_card self clk grade card_state n
  = Ok (history_outcome self clk grade card_state n new_s (interval_of new_s),
        S (S (snd (history_retrievability clk card_state n)))).
Proof.
  intros Hfirst Hdr Hnew Hfits.
  rewrite schedule_card_history by assumption.
  cbv zeta. rewrite Hnew. now rewrite due_date_of_fits.
Qed.

End ScheduleFacts.

(** The retrievability of the history branch is in [[0, 1]], and it takes
    at most one reading of the clock. *)
Lemma history_retrievability_bounds
  (clk : clock) (card_state : CardState) (n : nat) :
  0 <= fst (history_retrievability clk card_state n) <= 1.
Proof.
  unfold history_retrievability.
  destruct (cs_last_review card_state) as [lr |]; cbn [fst]; [| lra].
  apply (calculate_retrievability_bounds None 0.9
           ((clk n - lr) / 86400) (get (cs_stability card_state) 0.0)).
  apply calculate_retrievability_design.
Qed.

Lemma history_retrievability_reads
  (clk : clock) (card_state : CardState) (n : nat) :
  snd (history_retrievability clk card_state n) = n
  \/ snd (history_retrievability clk card_state n) = S n.
Proof.
  unfold history_retrievability.
  destruct (cs_last_review card_state); [right | left]; reflexivity.
Qed.

(** ** The module's scheduler: default weights, retention 0.9 *)

(** At the default retention the interval is the stability itself, floored
    at 0.1 day. *)
Lemma interval_default (s : R) :
  Py.max 0.1 (s / (19 / 81) * (/ (0.9 * 0.9) - 1)) = Py.max 0.1 s.
Proof.
  f_equal. replace (/ (0.9 * 0.9) - 1) with (19 / 81) by lra. lra.
Qed.

Lemma init_stability_default_bounds (g : Z) :
  0.1 <= init_stability (FSRS_init None 0.9) g <= 16.
Proof.
  unfold init_stability. cbn [w FSRS_init get DEFAULT_PARAMS w0 w1 w2 w3].
  destruct (g =? 1)%Z; [lra |].
  destruct (g =? 2)%Z; [lra |].
  destruct (g =? 3)%Z; lra.
Qed.

(** A first review under [FSRS()] is due in at most 16 days. *)
Lemma first_review_fits_default (now : datetime) (g : Z) :
  days_before_max 16 now ->
  fits now
    (Py.max 0.1
       (init_stability (FSRS_init None 0.9) g / (19 / 81)
        * (/ (0.9 * 0.9) - 1))).
Proof.
  intros Hnow. rewrite interval_default.
  pose proof (init_stability_default_bounds g) as Hs.
  apply (fits_headroom 16); [| lra | exact Hnow].
  split; [pose proof (max_lower 0.1 (init_stability (FSRS_init None 0.9) g));
          lra
         | apply max_upper; lra].
Qed.

(** Settles that a reading of one of the clocks below leaves the days
    asked for before [datetime.max]. *)
Ltac clock_headroom :=
  unfold days_before_max, frozen_clock, ticking_clock, datetime_max;
  cbn [INR]; lra.

(** Runs [schedule_card] of [FSRS()] on a concrete card that takes the
    first-review branch; expects [Hdr : 0.9 <> 0]. *)
Ltac run_first_review :=
  apply (schedule_card_first_review_ok None 0.9);
  [reflexivity | assumption | apply first_review_fits_default; clock_headroom].

Lemma exp_le_9 (x : R) : x <= 2 -> exp x <= 9.
Proof.
  intros Hx.
  assert (H2 : exp 2 <= 9).
  { replace 2 with (1 + 1) by lra. rewrite exp_plus.
    pose proof exp_le_3. pose proof (exp_pos 1). nra. }
  destruct (Rle_lt_or_eq_dec x 2 Hx) as [Hlt | ->]; [| exact H2].
  pose proof (exp_increasing x 2 Hlt). lra.
Qed.

Lemma exp_le_3_below (x : R) : x <= 1 -> exp x <= 3.
Proof.
  intros Hx. pose proof exp_le_3.
  destruct (Rle_lt_or_eq_dec x 1 Hx) as [Hlt | ->]; [| assumption].
  pose proof (exp_increasing x 1 Hlt). lra.
Qed.

(** [S * S^(-a)] for [0 <= a <= 1] does not exceed [max(1, S)]. *)
Lemma stability_power_bound (s a : R) :
  0 <= a <= 1 -> 0 < s <= 100 -> 0 <= s * Rpower s (- a) <= 100.
Proof.
  intros Ha Hs. pose proof (Rpower_pos s (- a)) as Hpos.
  split; [nra |].
  destruct (Rle_dec 1 s) as [Hge | Hlt].
  - assert (Hone : Rpower s (- a) <= 1).
    { rewrite Rpower_Ropp.
      pose proof (Rle_Rpower_l 1 s a) as H1.
      rewrite Rpower_one in H1.
      rewrite <- Rinv_1. apply Rinv_le_contravar; lra. }
    nra.
  - assert (Heq : s * Rpower s (- a) = Rpower s (1 + - a)).
    { rewrite Rpower_plus, Rpower_1 by lra. reflexivity. }
    rewrite Heq.
    pose proof (Rle_Rpower_l s 1 (1 + - a)) as H1.
    rewrite Rpower_one in H1. lra.
Qed.

Lemma gradeMultiplier_default (g : Z) :
  0 <= Design.gradeMultiplier DEFAULT_PARAMS g <= 2.9469.
Proof.
  destruct (Z.eq_dec g 2) as [-> | H2]; [cbn; lra |].
  destruct (Z.eq_dec g 4) as [-> | H4]; [cbn; lra |].
  rewrite gradeMultiplier_good by assumption. lra.
Qed.

(** With the default weights a passing grade takes a stability of at most
    100 days to less than 60000 days. *)
Lemma successStability_default_bound (s d r : R) (g : Z) :
  0 <= s <= 100 -> 0 < d -> 0 <= r <= 1 ->
  0.1 <= Design.successStability DEFAULT_PARAMS s d r g <= 60000.
Proof.
  intros Hs Hd Hr. unfold Design.successStability.
  split; [apply Rmax_l |].
  apply Rmax_lub; [lra |].
  pose proof (gradeMultiplier_default g) as Hm.
  set (m := Design.gradeMultiplier DEFAULT_PARAMS g) in *.
  cbn [DEFAULT_PARAMS w8 w9 w10].
  assert (He8 : 0 < exp 1.616 <= 9)
    by (split; [apply exp_pos | apply exp_le_9; lra]).
  assert (HfR : 0 <= exp (0.9221 * (1 - r)) - 1 <= 2).
  { split.
    - assert (1 <= exp (0.9221 * (1 - r))) by (apply exp_ge_1; nra). lra.
    - assert (exp (0.9221 * (1 - r)) <= 3) by (apply exp_le_3_below; nra).
      lra. }
  set (e8 := exp 1.616) in *.
  set (fR := exp (0.9221 * (1 - r)) - 1) in *.
  set (fS := if Rlt_dec 0 s then Rpower s _ else 1).
  assert (HfS : 0 <= s * fS <= 100).
  { unfold fS. destruct (Rlt_dec 0 s) as [Hpos | Hneg].
    - apply stability_power_bound; lra.
    - lra. }
  set (sfS := s * fS) in *.
  assert (HX : 0 <= e8 * sfS * fR * m <= 9 * 100 * 2 * 2.9469).
  { assert (H1 : 0 <= e8 * sfS <= 9 * 100).
    { split; [apply Rmult_le_pos; lra |].
      apply Rmult_le_compat; lra. }
    assert (H2 : 0 <= e8 * sfS * fR <= 9 * 100 * 2).
    { split; [apply Rmult_le_pos; lra |].
      apply Rmult_le_compat; lra. }
    split; [apply Rmult_le_pos; lra |].
    apply Rmult_le_compat; lra. }
  set (X := e8 * sfS * fR * m) in *.
  replace (s * (1 + e8 * (11 - d) * fS * fR * m))
    with (s + (11 - d) * X) by (unfold X, sfS; ring).
  nra.
Qed.

Lemma lapseStability_upper (p : Params) (s d r : R) :
  Design.lapseStability p s d r <= s.
Proof. unfold Design.lapseStability. apply Rmin_l. Qed.

(** ** First review *)

Lemma init_stability_design (self : FSRS) (g : Z) :
  (1 <= g <= 4)%Z -> init_stability self g = Design.initStability (w self) g.
Proof.
  intros Hg. unfold init_stability, Design.initStability.
  assert (Hcases : g = 1%Z \/ g = 2%Z \/ g = 3%Z \/ g = 4%Z) by lia.
  destruct Hcases as [-> | [-> | [-> | ->]]]; reflexivity.
Qed.

Lemma init_difficulty_design (self : FSRS) (g : Z) :
  init_difficulty self g = Design.initDifficulty (w self) g.
Proof.
  unfold init_difficulty, Design.initDifficulty, Design.clamp.
  rewrite max_Rmax, min_Rmin.
  replace 1.0 with 1 by lra. replace 10.0 with 10 by lra. reflexivity.
Qed.

Lemma initDifficulty_default (g : Z) :
  (1 <= g <= 4)%Z ->
  Design.initDifficulty DEFAULT_PARAMS g = 7.2102 - 0.5316 * (IZR g - 3).
Proof.
  intros Hg. unfold Design.initDifficulty, Design.clamp.
  cbn [DEFAULT_PARAMS w4 w5].
  assert (Hcases : g = 1%Z \/ g = 2%Z \/ g = 3%Z \/ g = 4%Z) by lia.
  destruct Hcases as [-> | [-> | [-> | ->]]];
    (rewrite Rmin_right by lra); (rewrite Rmax_right by lra); reflexivity.
Qed.

(** C6: on a first review (state ['new'] or [reps == 0]) with a grade in
    1..4, every state that [schedule_card] returns has
    [stability = initStability(grade)], the entry of [w0..w3] for Again,
    Hard, Good, Easy, and [difficulty = initDifficulty(grade)], the clamp
    to [[1, 10]] of [w4 - w5 * (grade - 3)], whatever the clock reads; and
    [reps + 1], state ['learning'] and one more lapse for Again, ['review']
    and the lapses unchanged otherwise.  It returns exactly when the due
    date fits a [datetime] (otherwise [OverflowError]).  With
    [DEFAULT_PARAMS] the stabilities are 0.4072, 1.1829, 3.1262, 15.4722
    and the difficulties 8.2734, 7.7418, 7.2102, 6.6786; with them and
    retention 0.9 the call returns at every time that is 16 days before
    [datetime.max] or earlier. *)
Theorem schedule_card_first_review_exact
  (params : option Params) (dr : R) (clk : clock)
  (g : Z) (card_state : CardState) (n : nat) :
  dr <> 0 ->
  (1 <= g <= 4)%Z ->
  first_review card_state = true ->
  let p := get params DEFAULT_PARAMS in
  let run := schedule_card (FSRS_init params dr) clk g card_state n in
  let new_interval :=
    Py.max 0.1 (Design.initStability p g / (19 / 81) * (/ (dr * dr) - 1)) in
  (forall out m,
     run = Ok (out, m) ->
     m = S (S n)
     /\ stability out = Design.initStability p g
     /\ difficulty out = Design.initDifficulty p g
     /\ (g = 1%Z -> stability out = w0 p)
     /\ (g = 2%Z -> stability out = w1 p)
     /\ (g = 3%Z -> stability out = w2 p)
     /\ (g = 4%Z -> stability out = w3 p)
     /\ difficulty out = Rmax 1 (Rmin 10 (w4 p - w5 p * (IZR g - 3)))
     /\ interval out = new_interval
     /\ reps out = (get (cs_reps card_state) 0 + 1)%Z
     /\ (g = 1%Z ->
         state out = "learning"%string
         /\ lapses out = (get (cs_lapses card_state) 0 + 1)%Z)
     /\ (g <> 1%Z ->
         state out = "review"%string
         /\ lapses out = get (cs_lapses card_state) 0%Z)
     /\ (p = DEFAULT_PARAMS ->
         (g = 1%Z -> stability out = 0.4072 /\ difficulty out = 8.2734)
         /\ (g = 2%Z -> stability out = 1.1829 /\ difficulty out = 7.7418)
         /\ (g = 3%Z -> stability out = 3.1262 /\ difficulty out = 7.2102)
         /\ (g = 4%Z -> stability out = 15.4722 /\ difficulty out = 6.6786)))
  /\ (fits (clk n) new_interval -> exists out, run = Ok (out, S (S n)))
  /\ (~ fits (clk n) new_interval -> run = Raise OverflowError)
  /\ (p = DEFAULT_PARAMS -> dr = 0.9 -> days_before_max 16 (clk n) ->
      exists out, run = Ok (out, S (S n))).
Proof.
  intros Hdr Hg Hfirst p run new_interval.
  assert (Hrun : run
                 = match due_date_of (clk n) new_interval with
                   | Raise e => Raise e
                   | Ok _ =>
                       Ok (first_review_outcome (FSRS_init params dr) clk g
                             card_state n new_interval,
                           S (S n))
                   end).
  { unfold run, new_interval, p.
    rewrite <- (init_stability_design (FSRS_init params dr)) by exact Hg.
    apply schedule_card_first_review; assumption. }
  assert (Hfits : fits (clk n) new_interval ->
                  exists out, run = Ok (out, S (S n))).
  { intros Hf. rewrite Hrun, due_date_of_fits by exact Hf. now eexists. }
  split; [| split; [exact Hfits | split]].
  - intros out m Hok. rewrite Hrun in Hok.
    destruct (due_date_of (clk n) new_interval); [| discriminate].
    injection Hok as <- <-.
    cbn [first_review_outcome stability difficulty reps state lapses interval].
    assert (Hs : init_stability (FSRS_init params dr) g
                 = Design.initStability p g)
      by (now apply init_stability_design).
    assert (Hd : init_difficulty (FSRS_init params dr) g
                 = Design.initDifficulty p g)
      by apply init_difficulty_design.
    rewrite Hs, Hd.
    split; [reflexivity |]. split; [reflexivity |]. split; [reflexivity |].
    split; [now intros -> |]. split; [now intros -> |].
    split; [now intros -> |]. split; [now intros -> |].
    split; [reflexivity |]. split; [reflexivity |]. split; [reflexivity |].
    split; [now intros -> |].
    split.
    { intros Hne. apply Z.eqb_neq in Hne. now rewrite Hne. }
    intros Hp. rewrite Hp, initDifficulty_default by exact Hg.
    split; [intros ->; cbn; split; [reflexivity | lra] |].
    split; [intros ->; cbn; split; [reflexivity | lra] |].
    split; intros ->; cbn; split; first [reflexivity | lra].
  - intros Hno. rewrite Hrun. now rewrite due_date_of_overflow.
  - intros Hp -> Hnow. apply Hfits. unfold new_interval. rewrite Hp.
    rewrite <- (init_stability_design (FSRS_init None 0.9)) by exact Hg.
    now apply first_review_fits_default.
Qed.

Lemma schedule_card_first_review_exact_witness :
  exists out,
    schedule_card FSRS_default ticking_clock 3 new_card_state 0%nat
    = Ok (out, 2%nat)
    /\ stability out = 3.1262 /\ difficulty out = 7.2102
    /\ state out = "review"%string /\ reps out = 1%Z /\ lapses out = 0%Z.
Proof.
  assert (Hdr : 0.9 <> 0) by lra.
  assert (Hg : (1 <= 3 <= 4)%Z) by lia.
  destruct (schedule_card_first_review_exact None 0.9 ticking_clock 3
              new_card_state 0%nat Hdr Hg eq_refl)
    as (Hout & _ & _ & Hreturns).
  assert (Hnow : days_before_max 16 (ticking_clock 0%nat)) by clock_headroom.
  destruct (Hreturns eq_refl eq_refl Hnow) as (out & Hrun).
  destruct (Hout out 2%nat Hrun)
    as (_ & _ & _ & _ & _ & _ & _ & _ & _ & Hreps & _ & Hgood & Hdefault).
  assert (Hne : 3%Z <> 1%Z) by discriminate.
  destruct (Hgood Hne) as (Hst & Hl).
  destruct (Hdefault eq_refl) as (_ & _ & H3 & _).
  destruct (H3 eq_refl) as (Hs & Hd).
  exists out. repeat split; assumption.
Defined.

(** C9: on a first review, the [retrievability] of every state that
    [schedule_card] returns is the one of the prior state (1.0 when the key
    is absent), not recomputed and not clamped: a value outside [[0, 1]]
    comes back as it is.  The call returns exactly when the due date fits
    a [datetime], and raises [OverflowError] otherwise. *)
Theorem schedule_card_first_review_retrievability
  (params : option Params) (dr : R) (clk : clock)
  (g : Z) (card_state : CardState) (n : nat) :
  dr <> 0 ->
  first_review card_state = true ->
  let run := schedule_card (FSRS_init params dr) clk g card_state n in
  let new_interval :=
    Py.max 0.1
      (init_stability (FSRS_init params dr) g / (19 / 81)
       * (/ (dr * dr) - 1)) in
  (forall out m,
     run = Ok (out, m) ->
     retrievability out = get (cs_retrievability card_state) 1.0)
  /\ (fits (clk n) new_interval ->
      exists out,
        run = Ok (out, S (S n))
        /\ retrievability out = get (cs_retrievability card_state) 1.0)
  /\ (~ fits (clk n) new_interval -> run = Raise OverflowError).
Proof.
  intros Hdr Hfirst run new_interval.
  assert (Hrun : run
                 = match due_date_of (clk n) new_interval with
                   | Raise e => Raise e
                   | Ok _ =>
                       Ok (first_review_outcome (FSRS_init params dr) clk g
                             card_state n new_interval,
                           S (S n))
                   end)
    by (apply schedule_card_first_review; assumption).
  split; [| split].
  - intros out m Hok. rewrite Hrun in Hok.
    destruct (due_date_of (clk n) new_interval); [| discriminate].
    injection Hok as <- <-. reflexivity.
  - intros Hf. rewrite Hrun, due_date_of_fits by exact Hf.
    eexists. split; reflexivity.
  - intros Hno. rewrite Hrun. now rewrite due_date_of_overflow.
Qed.

Lemma schedule_card_first_review_retrievability_witness :
  (exists out,
     schedule_card FSRS_default ticking_clock 3 odd_retrievability_state 0%nat
     = Ok (out, 2%nat)
     /\ retrievability out = 2.0)
  /\ schedule_card (FSRS_init None 0.001) (frozen_clock 0) 3
       odd_retrievability_state 0%nat
     = Raise OverflowError.
Proof.
  split.
  - assert (Hdr : 0.9 <> 0) by lra.
    destruct (schedule_card_first_review_retrievability None 0.9 ticking_clock
                3 odd_retrievability_state 0%nat Hdr eq_refl)
      as (_ & Hreturns & _).
    apply Hreturns. apply first_review_fits_default. clock_headroom.
  - assert (Hdr : 0.001 <> 0) by lra.
    destruct (schedule_card_first_review_retrievability None 0.001
                (frozen_clock 0) 3 odd_retrievability_state 0%nat Hdr eq_refl)
      as (_ & _ & Hraises).
    apply Hraises. unfold fits, frozen_clock, timedelta_days, datetime_max.
    intros (_ & _ & Hmax).
    match type of Hmax with
    | _ + Py.max 0.1 ?x * _ <= _ =>
        assert (Hx : 13000000 <= x)
          by (cbn; replace (/ (0.001 * 0.001)) with 1000000 by lra; lra);
        pose proof (max_mono 0.1 13000000 x Hx);
        pose proof (max_lower 13000000 0.1);
        assert (Hflip : Py.max 0.1 13000000 = 13000000)
          by (unfold Py.max; destruct (Rlt_dec 0.1 13000000); lra)
    end.
    lra.
Defined.

(** ** Bounds of the new state *)

(** Under [FSRS()] a card with history whose stability is at most 100 days
    gets a new stability, of less than 60000 days. *)
Lemma next_stability_default (s d r : R) (g : Z) :
  0 <= s <= 100 -> 0 < d -> 0 <= r <= 1 ->
  exists new_s,
    next_stability (FSRS_init None 0.9) s d r g (g =? 1)%Z = Ok new_s
    /\ new_s <= 60000
    /\ (g = 1%Z -> new_s <= s).
Proof.
  intros Hs Hd Hr. destruct (g =? 1)%Z eqn:Eg.
  - eexists. split; [apply next_stability_lapse; [reflexivity | lra | lra] |].
    pose proof (lapseStability_upper (w (FSRS_init None 0.9)) s d r).
    split; [lra | intros _; assumption].
  - apply Z.eqb_neq in Eg. eexists.
    split; [apply next_stability_success; exact Eg |].
    split; [apply successStability_default_bound; assumption |].
    intros E. contradiction.
Qed.

(** An interval of [FSRS()] for a stability of at most [days] days fits a
    clock that reads [days] days before [datetime.max] or earlier. *)
Lemma interval_fits_default (days : R) (now : datetime) (new_s : R) :
  new_s <= days -> 0.1 <= days <= 999999999 ->
  days_before_max days now ->
  fits now (Py.max 0.1 (new_s / (19 / 81) * (/ (0.9 * 0.9) - 1))).
Proof.
  intros Hs Hdays Hnow. rewrite interval_default.
  apply (fits_headroom days); [| lra | exact Hnow].
  split; [pose proof (max_lower 0.1 new_s); lra | apply max_upper; lra].
Qed.


(** On a first review the stored retrievability comes back as it is: 2.0
    in, 2.0 out. *)
Lemma schedule_card_retrievability_above_one :
  exists out n,
    schedule_card FSRS_default ticking_clock 3 odd_retrievability_state 0%nat
    = Ok (out, n)
    /\ ~ retrievability out <= 1.
Proof.
  assert (Hdr : 0.9 <> 0) by lra.
  do 2 eexists.
  split; [run_first_review |].
  cbn. lra.
Qed.

Lemma init_stability_floor (self : FSRS) (g : Z) :
  0.1 <= w0 (w self) -> 0.1 <= w1 (w self) ->
  0.1 <= w2 (w self) -> 0.1 <= w3 (w self) ->
  0.1 <= init_stability self g.
Proof.
  intros H0 H1 H2 H3. unfold init_stability.
  destruct (g =? 1)%Z; [exact H0 |].
  destruct (g =? 2)%Z; [exact H1 |].
  destruct (g =? 3)%Z; [exact H2 | exact H3].
Qed.

(** [schedule_card] under [FSRS()], on a new card or on one with stability
    in [[0, 100]] and a positive difficulty, at a time that is 60000 days
    before [datetime.max] or earlier: it returns. *)
Lemma schedule_card_default_returns
  (clk : clock) (g : Z) (card_state : CardState) (n : nat) :
  (first_review card_state = false ->
   0 <= get (cs_stability card_state) 0.0 <= 100
   /\ 0 < get (cs_difficulty card_state) 5.0) ->
  days_before_max 60000 (clk n) ->
  days_before_max 60000 (clk (S n)) ->
  exists out m,
    schedule_card (FSRS_init None 0.9) clk g card_state n = Ok (out, m).
Proof.
  intros Hhist Hn HSn. assert (Hdr : 0.9 <> 0) by lra.
  destruct (first_review card_state) eqn:Hbranch.
  - do 2 eexists.
    apply schedule_card_first_review_ok; [assumption | assumption |].
    apply first_review_fits_default.
    unfold days_before_max in *. lra.
  - destruct (Hhist eq_refl) as [Hs Hd].
    destruct (next_stability_default
                (get (cs_stability card_state) 0.0)
                (get (cs_difficulty card_state) 5.0)
                (fst (history_retrievability clk card_state n)) g Hs Hd
                (history_retrievability_bounds clk card_state n))
      as (new_s & Hnew & Hupper & _).
    do 2 eexists.
    apply (schedule_card_history_ok None 0.9 clk g card_state n new_s);
      [assumption | assumption | exact Hnew |].
    apply (interval_fits_default 60000); [exact Hupper | lra |].
    destruct (history_retrievability_reads clk card_state n) as [-> | ->];
      assumption.
Qed.



(** ** The clock *)

(** [schedule_card] looks at no reading of the clock past the third one. *)
Lemma schedule_card_clock_agree
  (self : FSRS) (clk1 clk2 : clock) (g : Z) (card_state : CardState) (n : nat) :
  (forall k, (n <= k < n + 3)%nat -> clk1 k = clk2 k) ->
  schedule_card self clk1 g card_state n = schedule_card self clk2 g card_state n.
Proof.
  intros Hclk.
  assert (H0 : clk1 n = clk2 n) by (apply Hclk; lia).
  assert (H1 : clk1 (S n) = clk2 (S n)) by (apply Hclk; lia).
  assert (H2 : clk1 (S (S n)) = clk2 (S (S n))) by (apply Hclk; lia).
  unfold schedule_card.
  destruct ((get (cs_state card_state) "new" =? "new")%string
            || (get (cs_reps card_state) 0 =? 0)%Z).
  - unfold io_bind, io_ret, lift, utcnow.
    destruct (calculate_interval self _ None); [| reflexivity].
    rewrite H0. destruct (timedelta _); [| reflexivity].
    destruct (datetime_add _ _); [| reflexivity].
    now rewrite H1.
  - destruct (cs_last_review card_state) as [lr |].
    + unfold io_bind, io_ret, lift, utcnow. rewrite H0.
      destruct (calculate_retrievability self _ _); [| reflexivity].
      destruct (next_stability self _ _ _ g _); [| reflexivity].
      destruct (g =? 1)%Z;
        (destruct (calculate_interval self _ None); [| reflexivity]);
        rewrite H1; (destruct (timedelta _); [| reflexivity]);
        (destruct (datetime_add _ _); [| reflexivity]);
        now rewrite H2.
    + unfold io_bind, io_ret, lift, utcnow.
      destruct (next_stability self _ _ _ g _); [| reflexivity].
      destruct (g =? 1)%Z;
        (destruct (calculate_interval self _ None); [| reflexivity]);
        rewrite H0; (destruct (timedelta _); [| reflexivity]);
        (destruct (datetime_add _ _); [| reflexivity]);
        now rewrite H1.
Qed.

(** Against C8 as stated: two calls with the same grade and the same prior
    state, at two different times, return different [last_review] and
    [due_date]: the time is not an argument, [schedule_card] reads it. *)
Lemma schedule_card_reads_clock :
  exists out1 out2,
    schedule_card FSRS_default (frozen_clock 0) 3 new_card_state 0%nat
    = Ok (out1, 2%nat)
    /\ schedule_card FSRS_default (frozen_clock 1) 3 new_card_state 0%nat
       = Ok (out2, 2%nat)
    /\ last_review out1 <> last_review out2
    /\ due_date out1 <> due_date out2
    /\ out1 <> out2.
Proof.
  assert (Hdr : 0.9 <> 0) by lra.
  do 2 eexists.
  split; [run_first_review |].
  split; [run_first_review |].
  cbn [first_review_outcome last_review due_date]. unfold frozen_clock.
  split; [intros Heq; lra |]. split; [intros Heq; lra |].
  intros Heq. apply (f_equal last_review) in Heq.
  cbn [last_review first_review_outcome] in Heq. lra.
Qed.

(** Within one call [due_date] and [last_review] come from two successive
    readings of the clock. *)
Lemma schedule_card_two_readings :
  exists out,
    schedule_card FSRS_default ticking_clock 3 new_card_state 0%nat
    = Ok (out, 2%nat)
    /\ due_date out = 0 + timedelta_days (interval out)
    /\ last_review out = 1.
Proof.
  assert (Hdr : 0.9 <> 0) by lra.
  eexists.
  split; [run_first_review |].
  cbn [first_review_outcome last_review due_date interval].
  unfold ticking_clock. cbn [INR].
  split; reflexivity.
Qed.

(** C8, as amended: [schedule_card] takes no timestamp, it reads the clock
    itself, two or three times in a call.  It is a function of the grade,
    the prior state and those readings: two schedulers built from the same
    weights and desired retention, run on the same grade and prior state
    under clocks that agree on the three readings from the current one,
    give the same result; [last_review] is the last reading taken and
    [due_date] the reading before it plus the interval; and [state],
    [difficulty], [reps] and [lapses] (on a first review also [stability],
    [retrievability] and [interval]) do not depend on the clock at all. *)
Theorem schedule_card_deterministic_given_clock
  (params : option Params) (dr : R) (clk1 clk2 : clock)
  (g : Z) (card_state : CardState) (n : nat) :
  ((forall k, (n <= k < n + 3)%nat -> clk1 k = clk2 k) ->
   schedule_card (FSRS_init params dr) clk1 g card_state n
   = schedule_card (FSRS_init params dr) clk2 g card_state n)
  /\ (forall out1 m1 out2 m2,
        dr <> 0 ->
        schedule_card (FSRS_init params dr) clk1 g card_state n = Ok (out1, m1) ->
        schedule_card (FSRS_init params dr) clk2 g card_state n = Ok (out2, m2) ->
        m1 = m2
        /\ (n + 2 <= m1 <= n + 3)%nat
        /\ last_review out1 = clk1 (pred m1)
        /\ due_date out1
           = clk1 (pred (pred m1)) + timedelta_days (interval out1)
        /\ state out1 = state out2
        /\ difficulty out1 = difficulty out2
        /\ reps out1 = reps out2
        /\ lapses out1 = lapses out2
        /\ (first_review card_state = true ->
            stability out1 = stability out2
            /\ retrievability out1 = retrievability out2
            /\ interval out1 = interval out2)).
Proof.
  split; [apply schedule_card_clock_agree |].
  intros out1 m1 out2 m2 Hdr Hrun1 Hrun2.
  destruct (first_review card_state) eqn:Hbranch.
  - rewrite schedule_card_first_review in Hrun1, Hrun2 by assumption.
    destruct (due_date_of _ _) in Hrun1; [| discriminate].
    destruct (due_date_of _ _) in Hrun2; [| discriminate].
    injection Hrun1 as <- <-. injection Hrun2 as <- <-.
    cbn [first_review_outcome last_review due_date interval state difficulty
         reps lapses stability retrievability pred].
    repeat split; lia.
  - rewrite schedule_card_history in Hrun1, Hrun2 by assumption.
    cbv zeta in Hrun1, Hrun2.
    destruct (next_stability _ _ _ _ g _) as [s1 |] in Hrun1; [| discriminate].
    destruct (next_stability _ _ _ _ g _) as [s2 |] in Hrun2; [| discriminate].
    destruct (due_date_of _ _) in Hrun1; [| discriminate].
    destruct (due_date_of _ _) in Hrun2; [| discriminate].
    injection Hrun1 as <- <-. injection Hrun2 as <- <-.
    unfold history_outcome, history_retrievability.
    destruct (cs_last_review card_state) as [lr |];
      cbn [snd last_review due_date interval state difficulty reps lapses pred];
      (repeat split; try lia; discriminate).
Qed.

Lemma schedule_card_deterministic_given_clock_witness :
  schedule_card FSRS_default ticking_clock 3 new_card_state 0%nat
  = schedule_card FSRS_default
      (fun k => if (k <? 3)%nat then INR k else 0) 3 new_card_state 0%nat
  /\ exists out1 out2,
       schedule_card FSRS_default (frozen_clock 0) 3 new_card_state 0%nat
       = Ok (out1, 2%nat)
       /\ schedule_card FSRS_default (frozen_clock 1) 3 new_card_state 0%nat
          = Ok (out2, 2%nat)
       /\ last_review out1 = 0
       /\ state out1 = state out2 /\ difficulty out1 = difficulty out2
       /\ stability out1 = stability out2 /\ interval out1 = interval out2.
Proof.
  assert (Hdr : 0.9 <> 0) by lra.
  split.
  - apply (schedule_card_deterministic_given_clock None 0.9 ticking_clock
             (fun k => if (k <? 3)%nat then INR k else 0) 3 new_card_state
             0%nat).
    intros k Hk. unfold ticking_clock.
    destruct (k <? 3)%nat eqn:E; [reflexivity |].
    apply Nat.ltb_ge in E. lia.
  - assert (Hfits1 : days_before_max 16 (frozen_clock 0 0%nat))
      by clock_headroom.
    assert (Hfits2 : days_before_max 16 (frozen_clock 1 0%nat))
      by clock_headroom.
    pose proof (schedule_card_first_review_ok None 0.9 (frozen_clock 0) 3
                  new_card_state 0%nat eq_refl Hdr
                  (first_review_fits_default _ 3 Hfits1)) as Hrun1.
    pose proof (schedule_card_first_review_ok None 0.9 (frozen_clock 1) 3
                  new_card_state 0%nat eq_refl Hdr
                  (first_review_fits_default _ 3 Hfits2)) as Hrun2.
    cbv zeta in Hrun1, Hrun2.
    destruct (schedule_card_deterministic_given_clock None 0.9
                (frozen_clock 0) (frozen_clock 1) 3 new_card_state 0%nat)
      as [_ Hframe].
    destruct (Hframe _ 2%nat _ 2%nat Hdr Hrun1 Hrun2)
      as (_ & _ & Hlast & _ & Hst & Hd & _ & _ & Hfirst).
    destruct (Hfirst eq_refl) as (Hs & _ & Hi).
    do 2 eexists.
    split; [exact Hrun1 |]. split; [exact Hrun2 |].
    repeat split; assumption.
Defined.

(** ** The grade check *)


Lemma grade_in_1234_spec (g : Z) :
  grade_in_1234 (Some g) = true <-> (1 <= g <= 4)%Z.
Proof.
  unfold grade_in_1234. cbn [existsb]. rewrite !orb_true_iff, !Z.eqb_eq.
  split; [intros [-> | [-> | [-> | [-> | H]]]]; [lia .. | discriminate] | lia].
Qed.


(** [review_card] on a stored card and a grade in 1..4: what
    [schedule_card] raises escapes; what it returns is stored, and the clock
    is read for [reviewed_at] and then by [is_due]. *)
Lemma review_card_run
  (clk : clock) (card_id g : Z) (wd : World) (card : Card) :
  cards wd card_id = Some card ->
  grade_in_1234 (Some g) = true ->
  review_card clk card_id (Some g) wd
  = match
      schedule_card fsrs_scheduler clk g (card_state_of card) (clock_reads wd)
    with
    | Raise e => Raise e
    | Ok (out, m) =>
        let review :=
          {| rv_card_id := card_id;
             rv_grade := g;
             rv_state_before := c_state card;
             rv_difficulty_before := c_difficulty card;
             rv_stability_before := c_stability card;
             rv_retrievability_before := c_retrievability card;
             rv_difficulty_after := difficulty out;
             rv_stability_after := stability out;
             rv_interval_after := interval out;
             rv_reviewed_at := clk m |} in
        Ok (Success {| cd_columns := card_after out;
                       cd_is_due := due_by (clk (S m)) (card_after out) |}
              review,
            {| cards := put_card (cards wd) card_id (card_after out);
               reviews := reviews wd ++ [review];
               clock_reads := S (S m) |})
    end.
Proof.
  intros Hcard Hg. unfold review_card. rewrite Hcard, Hg. cbn [negb get].
  fold (card_state_of card).
  destruct (schedule_card fsrs_scheduler clk g (card_state_of card)
              (clock_reads wd)) as [[out m] | e]; reflexivity.
Qed.



(** * Further properties of the scheduler *)

(** ** The forgetting curve as coded *)

Lemma Rpower_neg_half_antimono (a b : R) :
  0 < a <= b -> Rpower b (- 0.5) <= Rpower a (- 0.5).
Proof.
  intros [Ha Hab].
  replace (- 0.5) with (Ropp 0.5) by lra. rewrite !Rpower_Ropp.
  apply Rinv_le_contravar; [apply Rpower_pos |].
  apply Rle_Rpower_l; lra.
Qed.

Lemma Rpower_neg_half_below_one (b : R) : 1 < b -> Rpower b (- 0.5) < 1.
Proof.
  intros Hb.
  replace (- 0.5) with (Ropp 0.5) by lra. rewrite Rpower_Ropp.
  assert (H : 1 < Rpower b 0.5).
  { rewrite <- (Rpower_O b) at 1 by lra. apply Rpower_lt; lra. }
  rewrite <- Rinv_1. apply Rinv_lt_contravar; lra.
Qed.

Lemma Rpower_100_81 : Rpower (100 / 81) (- 0.5) = 0.9.
Proof.
  replace (- 0.5) with (Ropp (/ 2)) by lra.
  rewrite Rpower_Ropp, Rpower_sqrt by lra.
  rewrite (sqrt_lem_1 (100 / 81) (10 / 9)) by lra. lra.
Qed.

(** Past the two guards the clamp of [calculate_retrievability] is idle:
    the value is the double power itself, strictly between 0 and 1. *)
Lemma computeRetrievability_open (t s : R) :
  0 < s -> 0 < t ->
  Design.computeRetrievability t s
  = Rpower (1 + 19 / 81 * Rpower (t / s) (- 0.5)) (- 0.5)
  /\ 0 < Design.computeRetrievability t s < 1.
Proof.
  intros Hs Ht. unfold Design.computeRetrievability.
  destruct (Rle_dec s 0) as [H | _]; [lra |].
  destruct (Rle_dec t 0) as [H | _]; [lra |].
  rewrite forgettingFactor_value. unfold Design.decayExponent.
  set (b := 1 + 19 / 81 * Rpower (t / s) (- 0.5)).
  assert (Hb : 1 < b).
  { unfold b. pose proof (Rpower_pos (t / s) (- 0.5)). lra. }
  pose proof (Rpower_pos b (- 0.5)) as Hpos.
  pose proof (Rpower_neg_half_below_one b Hb) as Hlt.
  unfold Design.clamp.
  rewrite Rmin_right by lra. rewrite Rmax_right by lra.
  split; [reflexivity | lra].
Qed.

(** X1: the retrievability that [calculate_retrievability] gives at
    [elapsed_days = stability] is 0.9 for every positive stability, and so,
    at the default desired retention 0.9, the retrievability at the
    interval that [calculate_interval] schedules is the desired
    retention. *)
Theorem retrievability_at_scheduled_interval (params : option Params) (dr s : R) :
  (0 < s -> calculate_retrievability (FSRS_init params dr) s s = Ok 0.9)
  /\ (0.1 <= s ->
      exists i,
        calculate_interval (FSRS_init params 0.9) s None = Ok i
        /\ calculate_retrievability (FSRS_init params 0.9) i s = Ok 0.9).
Proof.
  assert (Hat : forall dr', 0 < s ->
            calculate_retrievability (FSRS_init params dr') s s = Ok 0.9).
  { intros dr' Hs. rewrite calculate_retrievability_design. f_equal.
    destruct (computeRetrievability_open s s Hs Hs) as [-> _].
    replace (s / s) with 1 by (field; lra).
    rewrite Rpower_one.
    replace (1 + 19 / 81 * 1) with (100 / 81) by lra.
    apply Rpower_100_81. }
  split; [apply Hat |].
  intros Hs. exists s. split.
  - rewrite calculate_interval_value by (cbn [get]; lra).
    cbn [get]. f_equal. rewrite max_Rmax.
    replace (s / (19 / 81) * (/ (0.9 * 0.9) - 1)) with s by lra.
    apply Rmax_right. exact Hs.
  - apply Hat. lra.
Qed.

Lemma retrievability_at_scheduled_interval_witness :
  calculate_retrievability FSRS_default 3.1262 3.1262 = Ok 0.9
  /\ exists i,
       calculate_interval FSRS_default 3.1262 None = Ok i
       /\ calculate_retrievability FSRS_default i 3.1262 = Ok 0.9.
Proof.
  destruct (retrievability_at_scheduled_interval None 0.9 3.1262) as [H1 H2].
  split; [apply H1; lra | apply H2; lra].
Defined.

(** X2: for a positive stability, [calculate_retrievability] does not
    decrease when [elapsed_days] grows over the positive numbers: as coded
    (the inner power of [t / S] has the negative exponent [DECAY]) it is
    below 0.9 before [t = S] and above 0.9 after, always strictly between 0
    and 1. *)
Theorem calculate_retrievability_increasing
  (params : option Params) (dr s t1 t2 : R) :
  0 < s -> 0 < t1 <= t2 ->
  exists r1 r2,
    calculate_retrievability (FSRS_init params dr) t1 s = Ok r1
    /\ calculate_retrievability (FSRS_init params dr) t2 s = Ok r2
    /\ 0 < r1 /\ r1 <= r2 /\ r2 < 1
    /\ (t2 <= s -> r2 <= 0.9)
    /\ (s <= t1 -> 0.9 <= r1).
Proof.
  intros Hs [Ht1 Ht12].
  assert (Ht2 : 0 < t2) by lra.
  assert (Hmono : forall a b, 0 < a <= b ->
            Design.computeRetrievability a s
            <= Design.computeRetrievability b s).
  { intros a b [Ha Hab].
    destruct (computeRetrievability_open a s Hs Ha) as [-> _].
    destruct (computeRetrievability_open b s Hs) as [-> _]; [lra |].
    apply Rpower_neg_half_antimono.
    pose proof (Rpower_pos (b / s) (- 0.5)).
    split; [lra |].
    assert (Rpower (b / s) (- 0.5) <= Rpower (a / s) (- 0.5)).
    { apply Rpower_neg_half_antimono. split.
      - apply Rdiv_lt_0_compat; lra.
      - unfold Rdiv. apply Rmult_le_compat_r; [| exact Hab].
        left. now apply Rinv_0_lt_compat. }
    lra. }
  assert (Hat : Design.computeRetrievability s s = 0.9).
  { destruct (computeRetrievability_open s s Hs Hs) as [-> _].
    replace (s / s) with 1 by (field; lra).
    rewrite Rpower_one.
    replace (1 + 19 / 81 * 1) with (100 / 81) by lra.
    apply Rpower_100_81. }
  exists (Design.computeRetrievability t1 s),
         (Design.computeRetrievability t2 s).
  split; [apply calculate_retrievability_design |].
  split; [apply calculate_retrievability_design |].
  destruct (computeRetrievability_open t1 s Hs Ht1) as [_ [H1 _]].
  destruct (computeRetrievability_open t2 s Hs Ht2) as [_ [_ H2]].
  split; [exact H1 |]. split; [apply Hmono; lra |]. split; [exact H2 |].
  split.
  - intros Hle. rewrite <- Hat. apply Hmono. lra.
  - intros Hle. rewrite <- Hat. apply Hmono. lra.
Qed.

Lemma calculate_retrievability_increasing_witness :
  exists r1 r2,
    calculate_retrievability FSRS_default 1 10 = Ok r1
    /\ calculate_retrievability FSRS_default 5 10 = Ok r2
    /\ 0 < r1 /\ r1 <= r2 /\ r2 <= 0.9.
Proof.
  assert (Hs : 0 < 10) by lra.
  assert (Ht : 0 < 1 <= 5) by lra.
  destruct (calculate_retrievability_increasing None 0.9 10 1 5 Hs Ht)
    as (r1 & r2 & H1 & H2 & Hpos & Hle & _ & Hbelow & _).
  exists r1, r2. repeat split; try assumption. apply Hbelow. lra.
Defined.

(** ** Intervals *)

(** X3: for desired retentions [0 < dr1 <= dr2 <= 1] and a stability
    [S >= 0], [calculate_interval] gives the higher retention the shorter
    (or equal) interval; at a fixed retention in (0, 1] a larger stability
    never gets a shorter interval; and at retention 1 the interval is the
    floor 0.1 for every stability. *)
Theorem calculate_interval_monotone
  (params : option Params) (dr0 dr1 dr2 s s' : R) :
  0 < dr1 <= dr2 -> dr2 <= 1 -> 0 <= s <= s' ->
  exists i1 i2 i2' i_one,
    calculate_interval (FSRS_init params dr0) s (Some dr1) = Ok i1
    /\ calculate_interval (FSRS_init params dr0) s (Some dr2) = Ok i2
    /\ calculate_interval (FSRS_init params dr0) s' (Some dr2) = Ok i2'
    /\ calculate_interval (FSRS_init params dr0) s' (Some 1) = Ok i_one
    /\ i2 <= i1 /\ i2 <= i2' /\ i_one = 0.1.
Proof.
  intros [H1 H12] H2 [Hs Hss].
  assert (Hsq : 0 < dr1 * dr1 <= dr2 * dr2) by nra.
  assert (Hinv : / (dr2 * dr2) <= / (dr1 * dr1))
    by (apply Rinv_le_contravar; lra).
  assert (Hone : 1 <= / (dr2 * dr2)).
  { rewrite <- Rinv_1. apply Rinv_le_contravar; nra. }
  do 4 eexists.
  split; [apply calculate_interval_value; cbn [get]; lra |].
  split; [apply calculate_interval_value; cbn [get]; lra |].
  split; [apply calculate_interval_value; cbn [get]; lra |].
  split; [apply calculate_interval_value; cbn [get]; lra |].
  cbn [get]. split; [| split].
  - apply max_mono.
    apply Rmult_le_compat_l; [| lra].
    apply Rmult_le_pos; [exact Hs | lra].
  - apply max_mono.
    apply Rmult_le_compat_r; [lra |].
    apply Rmult_le_compat_r; lra.
  - rewrite max_Rmax. apply Rmax_left.
    replace (/ (1 * 1)) with 1 by (rewrite Rmult_1_r, Rinv_1; reflexivity).
    lra.
Qed.

Lemma calculate_interval_monotone_witness :
  exists i1 i2 i2' i_one,
    calculate_interval FSRS_default 10 (Some 0.8) = Ok i1
    /\ calculate_interval FSRS_default 10 (Some 0.9) = Ok i2
    /\ calculate_interval FSRS_default 20 (Some 0.9) = Ok i2'
    /\ calculate_interval FSRS_default 20 (Some 1) = Ok i_one
    /\ i2 <= i1 /\ i2 <= i2' /\ i_one = 0.1.
Proof.
  apply (calculate_interval_monotone None 0.9 0.8 0.9 10 20); lra.
Defined.

(** X4: a scheduler built with [desired_retention = 0] cannot schedule
    anything: [schedule_card] raises [ValueError] (from
    [math.pow(0.0, -2.0)] in [calculate_interval]) for every grade, every
    prior state and every clock. *)
Theorem schedule_card_zero_retention
  (params : option Params) (clk : clock)
  (g : Z) (card_state : CardState) (n : nat) :
  schedule_card (FSRS_init params 0) clk g card_state n = Raise ValueError.
Proof.
  assert (Hint : forall s,
            calculate_interval (FSRS_init params 0) s None = Raise ValueError)
    by (intros s; now apply calculate_interval_zero).
  unfold schedule_card.
  destruct ((get (cs_state card_state) "new" =? "new")%string
            || (get (cs_reps card_state) 0 =? 0)%Z).
  - unfold io_bind, io_ret, lift. now rewrite Hint.
  - destruct (cs_last_review card_state) as [lr |].
    + unfold io_bind, io_ret, lift, utcnow.
      rewrite calculate_retrievability_design.
      destruct (next_stability _ _ _ _ g _) as [new_s | e] eqn:Hnew;
        [| apply next_stability_raises in Hnew; now subst e].
      destruct (g =? 1)%Z; now rewrite Hint.
    + unfold io_bind, io_ret, lift, utcnow.
      destruct (next_stability _ _ _ _ g _) as [new_s | e] eqn:Hnew;
        [| apply next_stability_raises in Hnew; now subst e].
      destruct (g =? 1)%Z; now rewrite Hint.
Qed.

(** ** Difficulty *)

Lemma clamp_mono (lo hi x y : R) :
  x <= y -> Py.max lo (Py.min hi x) <= Py.max lo (Py.min hi y).
Proof.
  intros H. rewrite !max_Rmax, !min_Rmin.
  apply Rmax_mono_r. unfold Rmin.
  destruct (Rle_dec hi x), (Rle_dec hi y); lra.
Qed.

Lemma clamp_idle (lo hi x : R) :
  lo <= x <= hi -> Py.max lo (Py.min hi x) = x.
Proof.
  intros [Hlo Hhi]. rewrite max_Rmax, min_Rmin.
  rewrite Rmin_right by exact Hhi. now apply Rmax_right.
Qed.

(** X5: when the baseline [w4] is in [[1, 10]], a Good answer moves the
    difficulty of a card half of the way to [w4]:
    [next_difficulty(d, 3) = (d + w4) / 2] for every [d] in [[1, 10]], so
    [w4] is the one difficulty that Good leaves in place. *)
Theorem next_difficulty_good_halves (self : FSRS) (d : R) :
  1 <= w4 (w self) <= 10 -> 1 <= d <= 10 ->
  next_difficulty self d 3 = (d + w4 (w self)) / 2
  /\ next_difficulty self d 3 - w4 (w self) = (d - w4 (w self)) / 2
  /\ (next_difficulty self d 3 = d <-> d = w4 (w self)).
Proof.
  intros Hw Hd.
  assert (Heq : next_difficulty self d 3 = (d + w4 (w self)) / 2).
  { unfold next_difficulty. cbn [Z.eqb Pos.eqb].
    rewrite clamp_idle by lra. lra. }
  rewrite Heq. repeat split; lra.
Qed.

Lemma next_difficulty_good_halves_witness :
  next_difficulty FSRS_default 9 3 = (9 + 7.2102) / 2.
Proof.
  apply (next_difficulty_good_halves FSRS_default 9); cbn; lra.
Defined.

(** X6: a worse answer never gives a lower difficulty.  With [w5 >= 0],
    [init_difficulty] does not increase with the grade; with [w6 >= 0],
    [w7 >= 0] and a difficulty [d <= 10], [next_difficulty] for Again is at
    least the one for Hard, which is at least the one for Good, which is at
    least the one for Easy. *)
Theorem difficulty_antitone_in_grade (self : FSRS) (d : R) (g g' : Z) :
  0 <= w5 (w self) -> 0 <= w6 (w self) -> 0 <= w7 (w self) ->
  d <= 10 -> (g <= g')%Z ->
  init_difficulty self g' <= init_difficulty self g
  /\ next_difficulty self d 4 <= next_difficulty self d 3
  /\ next_difficulty self d 3 <= next_difficulty self d 2
  /\ next_difficulty self d 2 <= next_difficulty self d 1.
Proof.
  intros H5 H6 H7 Hd Hg.
  split; [| split; [| split]].
  - unfold init_difficulty. apply clamp_mono.
    apply IZR_le in Hg. nra.
  - unfold next_difficulty. cbn [Z.eqb Pos.eqb]. apply clamp_mono. nra.
  - unfold next_difficulty. cbn [Z.eqb Pos.eqb]. apply clamp_mono. nra.
  - unfold next_difficulty. cbn [Z.eqb Pos.eqb]. apply clamp_mono. nra.
Qed.

Lemma difficulty_antitone_in_grade_witness :
  init_difficulty FSRS_default 4 <= init_difficulty FSRS_default 1
  /\ next_difficulty FSRS_default 5 4 <= next_difficulty FSRS_default 5 3
  /\ next_difficulty FSRS_default 5 3 <= next_difficulty FSRS_default 5 2
  /\ next_difficulty FSRS_default 5 2 <= next_difficulty FSRS_default 5 1.
Proof.
  apply (difficulty_antitone_in_grade FSRS_default 5 1 4);
    try (cbn; lra); lia.
Defined.

(** ** Stability after a passing grade *)

Lemma gradeMultiplier_nonneg (p : Params) (g : Z) :
  0 <= w16 p -> 0 <= Design.gradeMultiplier p g.
Proof.
  intros H16.
  destruct (Z.eq_dec g 2) as [-> | H2]; [cbn; lra |].
  destruct (Z.eq_dec g 4) as [-> | H4]; [exact H16 |].
  rewrite gradeMultiplier_good by assumption. lra.
Qed.

(** X7: a passing grade never lowers the stability.  For weights with
    [w10 >= 0] and [w16 >= 0], a stability [s >= 0], a difficulty
    [d <= 10] and a retrievability [r <= 1], [next_stability] on its
    success branch (any grade other than 1) returns a value that is at
    least [s] and at least 0.1. *)
Theorem next_stability_success_no_loss (self : FSRS) (s d r : R) (g : Z) :
  g <> 1%Z ->
  0 <= w10 (w self) -> 0 <= w16 (w self) ->
  0 <= s -> d <= 10 -> r <= 1 ->
  exists v,
    next_stability self s d r g false = Ok v /\ s <= v /\ 0.1 <= v.
Proof.
  intros Hg H10 H16 Hs Hd Hr.
  eexists. split; [now apply next_stability_success |].
  unfold Design.successStability.
  pose proof (increment_nonneg (w self) s d r H10 Hd Hr) as HX.
  pose proof (gradeMultiplier_nonneg (w self) g H16) as Hm.
  set (X := exp _ * _ * _ * _) in *.
  set (m := Design.gradeMultiplier (w self) g) in *.
  assert (HXm : 0 <= X * m) by now apply Rmult_le_pos.
  assert (HsXm : 0 <= s * (X * m)) by now apply Rmult_le_pos.
  split.
  - apply Rle_trans with (s * (1 + X * m)); [lra | apply Rmax_r].
  - apply Rmax_l.
Qed.

Lemma next_stability_success_no_loss_witness :
  exists v,
    next_stability FSRS_default 10 5 0.9 3 false = Ok v
    /\ 10 <= v /\ 0.1 <= v.
Proof.
  apply (next_stability_success_no_loss FSRS_default 10 5 0.9 3);
    try (cbn; lra). discriminate.
Defined.

(** The success branch at retrievability 1: the increment vanishes. *)
Lemma successStability_at_one (p : Params) (s d : R) (g : Z) :
  Design.successStability p s d 1 g = Rmax 0.1 s.
Proof.
  unfold Design.successStability.
  replace (w10 p * (1 - 1)) with 0 by lra. rewrite exp_0.
  f_equal. ring.
Qed.

(** X8: a card with history that is answered with a passing grade when no
    time has passed (no [last_review] stored, or a clock that does not
    read later than [last_review]): every state that [schedule_card]
    returns keeps the stability, floored at 0.1, whatever the weights and
    whichever of Hard, Good and Easy was given: the retrievability is taken
    as 1.0 and the increment is 0.  The call returns exactly when the due
    date for that stability fits a [datetime], and raises [OverflowError]
    otherwise. *)
Theorem schedule_card_no_elapsed_time
  (params : option Params) (dr : R) (clk : clock)
  (g : Z) (card_state : CardState) (n : nat) :
  dr <> 0 ->
  first_review card_state = false ->
  g <> 1%Z ->
  match cs_last_review card_state with
  | Some lr => clk n <= lr
  | None => True
  end ->
  let run := schedule_card (FSRS_init params dr) clk g card_state n in
  let new_s := Rmax 0.1 (get (cs_stability card_state) 0.0) in
  let new_interval := Py.max 0.1 (new_s / (19 / 81) * (/ (dr * dr) - 1)) in
  let due_reading :=
    match cs_last_review card_state with
    | Some _ => S n
    | None => n
    end in
  (forall out m,
     run = Ok (out, m) ->
     retrievability out = 1
     /\ stability out = new_s
     /\ interval out = new_interval
     /\ state out = "review"%string)
  /\ (fits (clk due_reading) new_interval ->
      exists out,
        run = Ok (out, S (S due_reading))
        /\ retrievability out = 1
        /\ stability out = new_s)
  /\ (~ fits (clk due_reading) new_interval -> run = Raise OverflowError).
Proof.
  intros Hdr Hbranch Hg Hlr run new_s new_interval due_reading.
  pose proof (schedule_card_history params dr clk g card_state n Hbranch Hdr)
    as Hrun.
  cbv zeta in Hrun. fold run in Hrun.
  assert (Hr : fst (history_retrievability clk card_state n) = 1).
  { unfold history_retrievability.
    destruct (cs_last_review card_state) as [lr |]; [| reflexivity].
    cbn [fst]. unfold Design.computeRetrievability.
    destruct (Rle_dec (get (cs_stability card_state) 0.0) 0);
      [reflexivity |].
    destruct (Rle_dec ((clk n - lr) / 86400) 0) as [_ | Hpos];
      [reflexivity |].
    exfalso. apply Hpos.
    apply Rmult_le_reg_r with 86400; [lra |].
    unfold Rdiv. rewrite Rmult_assoc, Rinv_l by lra. lra. }
  assert (Hreads : snd (history_retrievability clk card_state n) = due_reading).
  { unfold history_retrievability, due_reading.
    destruct (cs_last_review card_state); reflexivity. }
  assert (Eg : (g =? 1)%Z = false) by now apply Z.eqb_neq.
  rewrite Eg, next_stability_success in Hrun by exact Hg.
  rewrite Hr, Hreads, successStability_at_one in Hrun.
  fold new_s in Hrun. fold new_interval in Hrun.
  assert (Hout : retrievability
                   (history_outcome (FSRS_init params dr) clk g card_state n
                      new_s new_interval) = 1
                 /\ stability
                      (history_outcome (FSRS_init params dr) clk g card_state n
                         new_s new_interval) = new_s
                 /\ interval
                      (history_outcome (FSRS_init params dr) clk g card_state n
                         new_s new_interval) = new_interval
                 /\ state
                      (history_outcome (FSRS_init params dr) clk g card_state n
                         new_s new_interval) = "review"%string).
  { unfold history_outcome.
    destruct (history_retrievability clk card_state n) as [r n1].
    cbn [fst] in Hr. subst r.
    cbn [retrievability stability interval state]. rewrite Eg.
    repeat split; reflexivity. }
  split; [| split].
  - intros out m Hok. rewrite Hrun in Hok.
    destruct (due_date_of _ _); [| discriminate].
    injection Hok as <- <-. exact Hout.
  - intros Hfits. rewrite Hrun, due_date_of_fits by exact Hfits.
    eexists. split; [reflexivity |].
    split; [apply Hout | apply Hout].
  - intros Hno. rewrite Hrun. now rewrite due_date_of_overflow.
Qed.

Lemma schedule_card_no_elapsed_time_witness :
  (exists out m,
     schedule_card FSRS_default (frozen_clock 0) 4 reviewed_state 0%nat
     = Ok (out, m)
     /\ retrievability out = 1
     /\ stability out = Rmax 0.1 10)
  /\ schedule_card FSRS_default (frozen_clock 0) 4
       (card_state_of huge_stability_card) 0%nat
     = Raise OverflowError.
Proof.
  assert (Hdr : 0.9 <> 0) by lra.
  assert (Hg : 4%Z <> 1%Z) by discriminate.
  assert (Hlr : frozen_clock 0 0%nat <= 0) by (unfold frozen_clock; lra).
  split.
  - destruct (schedule_card_no_elapsed_time None 0.9 (frozen_clock 0) 4
                reviewed_state 0%nat Hdr eq_refl Hg Hlr)
      as (_ & Hreturns & _).
    destruct Hreturns as (out & Hrun & Hr & Hs).
    { cbn [cs_last_review reviewed_state cs_stability get].
      apply (interval_fits_default 100);
        [apply Rmax_lub; lra | lra | clock_headroom]. }
    exists out, 3%nat. repeat split; assumption.
  - destruct (schedule_card_no_elapsed_time None 0.9 (frozen_clock 0) 4
                (card_state_of huge_stability_card) 0%nat Hdr eq_refl Hg Hlr)
      as (_ & _ & Hraises).
    apply Hraises.
    cbn [cs_last_review cs_stability card_state_of huge_stability_card
         c_last_review c_stability get].
    rewrite interval_default, max_Rmax.
    rewrite (Rmax_right 0.1 4000000) by lra.
    rewrite Rmax_right by lra.
    unfold fits, frozen_clock, timedelta_days, datetime_max. lra.
Defined.

(** ** Reviews through the route *)

Lemma DEFAULT_PARAMS_floor (g : Z) : 0.1 <= init_stability FSRS_default g.
Proof. apply init_stability_floor; cbn; lra. Qed.

(** One call of the module's scheduler on a stored card that is
    [card_ok]: it raises nothing but [OverflowError], and what it returns
    is in range. *)
Lemma schedule_card_step (clk : clock) (g : Z) (card : Card) (n : nat) :
  card_ok card ->
  (forall e,
     schedule_card fsrs_scheduler clk g (card_state_of card) n = Raise e ->
     e = OverflowError)
  /\ (forall out m,
        schedule_card fsrs_scheduler clk g (card_state_of card) n
        = Ok (out, m) ->
        (n + 2 <= m <= n + 3)%nat
        /\ 1 <= difficulty out <= 10
        /\ 0.1 <= stability out
        /\ 0 <= retrievability out <= 1
        /\ reps out = (c_reps card + 1)%Z
        /\ lapses out = (c_lapses card + (if (g =? 1)%Z then 1 else 0))%Z
        /\ (state out =? "new")%string = false
        /\ (g = 1%Z ->
            (first_review (card_state_of card) = false ->
             c_stability card <= 100) ->
            stability out <= 100)).
Proof.
  intros (Hd & Hr & Hreps & Hs).
  assert (Hdr : 0.9 <> 0) by lra.
  unfold fsrs_scheduler, FSRS_default.
  destruct (first_review (card_state_of card)) eqn:Hbranch.
  - rewrite schedule_card_first_review by assumption.
    destruct (due_date_of _ _) as [due | e'] eqn:Hdue.
    + split; [discriminate |].
      intros out m [= <- <-].
      cbn [first_review_outcome difficulty stability retrievability reps
           lapses state card_state_of get cs_reps cs_lapses cs_retrievability].
      split; [lia |].
      split; [apply init_difficulty_bounds |].
      split; [apply DEFAULT_PARAMS_floor |].
      split; [exact Hr |].
      split; [reflexivity |].
      split; [destruct (g =? 1)%Z; lia |].
      split; [destruct (g =? 1)%Z; reflexivity |].
      intros _ _.
      pose proof (init_stability_default_bounds g). lra.
    + split; [| discriminate].
      intros e [= <-]. now apply due_date_of_raise in Hdue.
  - specialize (Hs eq_refl).
    rewrite schedule_card_history by assumption. cbv zeta.
    pose proof (history_retrievability_bounds clk (card_state_of card) n)
      as Hret.
    assert (Hnew : exists new_s,
               next_stability (FSRS_init None 0.9)
                 (get (cs_stability (card_state_of card)) 0.0)
                 (get (cs_difficulty (card_state_of card)) 5.0)
                 (fst (history_retrievability clk (card_state_of card) n))
                 g (g =? 1)%Z = Ok new_s
               /\ 0.1 <= new_s
               /\ (g = 1%Z -> new_s <= c_stability card)).
    { cbn [card_state_of get cs_stability cs_difficulty].
      destruct (g =? 1)%Z eqn:Eg.
      - eexists. split; [| split].
        + apply next_stability_lapse; [reflexivity | exact Hd | lra].
        + unfold Design.lapseStability.
          apply Rmin_glb; [exact Hs | apply Rmax_l].
        + intros _. apply lapseStability_upper.
      - apply Z.eqb_neq in Eg. eexists. split; [| split].
        + apply next_stability_success. exact Eg.
        + unfold Design.successStability. apply Rmax_l.
        + intros E. contradiction. }
    destruct Hnew as (new_s & -> & Hfloor & Hlapse).
    destruct (due_date_of _ _) as [due | e'] eqn:Hdue.
    + split; [discriminate |].
      intros out m [= <- <-].
      destruct (history_retrievability_reads clk (card_state_of card) n)
        as [Hreads | Hreads].
      all: rewrite Hreads.
      all: unfold history_outcome.
      all: destruct (history_retrievability clk (card_state_of card) n)
             as [r n1].
      all: cbn [fst] in Hret.
      all: cbn [difficulty stability retrievability reps lapses state
                card_state_of get cs_reps cs_lapses].
      all: split; [lia |].
      all: split; [apply next_difficulty_bounds |].
      all: split; [exact Hfloor |].
      all: split; [exact Hret |].
      all: split; [reflexivity |].
      all: split; [destruct (g =? 1)%Z; lia |].
      all: split; [destruct (g =? 1)%Z; reflexivity |].
      all: intros Hg Hle; specialize (Hlapse Hg); specialize (Hle eq_refl); lra.
    + split; [| discriminate].
      intros e [= <-]. now apply due_date_of_raise in Hdue.
Qed.

(** One valid review of a stored card that is [card_ok]: a 200 that stores
    a card that is [card_ok] again, or [OverflowError], which takes a
    stored stability above 100 days or a clock less than 60000 days before
    [datetime.max]. *)
Lemma review_card_step
  (clk : clock) (card_id g : Z) (wd : World) (card : Card) :
  cards wd card_id = Some card ->
  card_ok card ->
  (1 <= g <= 4)%Z ->
  (review_card clk card_id (Some g) wd = Raise OverflowError
   /\ (days_before_max 60000 (clk (clock_reads wd)) ->
       days_before_max 60000 (clk (S (clock_reads wd))) ->
       first_review (card_state_of card) = false
       /\ 100 < c_stability card))
  \/ exists card' review wd',
       review_card clk card_id (Some g) wd = Ok (Success card' review, wd')
       /\ cards wd' card_id = Some (cd_columns card')
       /\ card_ok (cd_columns card')
       /\ (1 <= c_difficulty (cd_columns card') <= 10
           /\ 0.1 <= c_stability (cd_columns card')
           /\ (c_state (cd_columns card') =? "new")%string = false)
       /\ c_reps (cd_columns card') = (c_reps card + 1)%Z
       /\ c_lapses (cd_columns card')
          = (c_lapses card + (if (g =? 1)%Z then 1 else 0))%Z
       /\ reviews wd' = reviews wd ++ [review]
       /\ (clock_reads wd + 4 <= clock_reads wd' <= clock_reads wd + 5)%nat
       /\ (g = 1%Z ->
           (first_review (card_state_of card) = false ->
            c_stability card <= 100) ->
           c_stability (cd_columns card') <= 100).
Proof.
  intros Hcard Hok Hg.
  destruct (schedule_card_step clk g card (clock_reads wd) Hok)
    as (Hraise & Hreturn).
  apply grade_in_1234_spec in Hg.
  rewrite (review_card_run clk card_id g wd card Hcard Hg). cbv zeta.
  destruct (schedule_card fsrs_scheduler clk g (card_state_of card)
              (clock_reads wd)) as [[out m] | e] eqn:Hrun.
  - right.
    destruct (Hreturn out m eq_refl)
      as (Hm & Hd & Hs & Hr & Hreps & Hlapses & Hstate & Hagain).
    do 3 eexists. split; [reflexivity |].
    cbn [cards reviews clock_reads cd_columns]. unfold put_card.
    rewrite Z.eqb_refl.
    split; [reflexivity |].
    assert (Hreps' : (0 <= c_reps card)%Z) by apply Hok.
    split.
    { unfold card_ok, first_review.
      cbn [card_after c_difficulty c_retrievability c_reps c_stability c_state
           card_state_of cs_state cs_reps get].
      split; [lra |]. split; [exact Hr |]. split; [lia |].
      intros _. exact Hs. }
    cbn [card_after c_difficulty c_stability c_state c_reps c_lapses].
    split; [split; [exact Hd | split; [exact Hs | exact Hstate]] |].
    split; [exact Hreps |]. split; [exact Hlapses |].
    split; [reflexivity |]. split; [lia |]. exact Hagain.
  - left. rewrite (Hraise e eq_refl). split; [reflexivity |].
    intros Hn HSn.
    destruct (first_review (card_state_of card)) eqn:Hbranch.
    + exfalso.
      destruct (schedule_card_default_returns clk g (card_state_of card)
                  (clock_reads wd)) as (out & m & Hok');
        [rewrite Hbranch; discriminate | exact Hn | exact HSn |].
      unfold fsrs_scheduler, FSRS_default in Hrun.
      rewrite Hok' in Hrun. discriminate.
    + split; [reflexivity |].
      destruct (Rlt_dec 100 (c_stability card)) as [Hgt | Hle];
        [exact Hgt | exfalso].
      destruct Hok as (Hd & _ & _ & Hs). specialize (Hs Hbranch).
      destruct (schedule_card_default_returns clk g (card_state_of card)
                  (clock_reads wd)) as (out & m & Hok');
        [intros _; cbn [card_state_of cs_stability cs_difficulty get];
         split; [lra | exact Hd]
        | exact Hn | exact HSn |].
      unfold fsrs_scheduler, FSRS_default in Hrun.
      rewrite Hok' in Hrun. discriminate.
Qed.





(** X10: whatever [review_card] answers, it touches no card but the one
    reviewed.  On a 404 or a 400 the world is what it was; on a 200 the
    reviewed card is replaced by the returned one, one row is appended to
    [reviews], and that row records the grade, the state, difficulty,
    stability and retrievability from before the review and the
    difficulty, stability and interval after it. *)
Theorem review_card_frame
  (clk : clock) (card_id : Z) (grade : option Z)
  (wd wd' : World) (resp : Response) :
  review_card clk card_id grade wd = Ok (resp, wd') ->
  (forall k, k <> card_id -> cards wd' k = cards wd k)
  /\ match resp with
     | Success card' review =>
         exists old g,
           cards wd card_id = Some old
           /\ grade = Some g
           /\ cards wd' card_id = Some (cd_columns card')
           /\ reviews wd' = reviews wd ++ [review]
           /\ rv_card_id review = card_id
           /\ rv_grade review = g
           /\ rv_state_before review = c_state old
           /\ rv_difficulty_before review = c_difficulty old
           /\ rv_stability_before review = c_stability old
           /\ rv_retrievability_before review = c_retrievability old
           /\ rv_difficulty_after review = c_difficulty (cd_columns card')
           /\ rv_stability_after review = c_stability (cd_columns card')
           /\ rv_interval_after review = c_interval (cd_columns card')
     | _ => wd' = wd
     end.
Proof.
  unfold review_card.
  destruct (cards wd card_id) as [old |] eqn:Hcard.
  - destruct (negb (grade_in_1234 grade)) eqn:Hgate.
    + intros [= <- <-]. split; reflexivity.
    + destruct grade as [g |]; [| discriminate Hgate]. cbn [get].
      destruct (schedule_card fsrs_scheduler clk g _ (clock_reads wd))
        as [[out m] | e]; [| discriminate].
      unfold io_bind, utcnow, Card_to_dict, Card_is_due, io_ret.
      intros [= <- <-]. cbn [cards reviews cd_columns]. split.
      * intros k Hk. unfold put_card.
        apply Z.eqb_neq in Hk. now rewrite Hk.
      * exists old, g. unfold put_card. rewrite Z.eqb_refl.
        repeat split; reflexivity.
  - intros [= <- <-]. split; reflexivity.
Qed.

(** A Good answer to the new card of [one_card_world] is a 200. *)
Lemma review_card_new_card (clk : clock) :
  days_before_max 60000 (clk 0%nat) ->
  days_before_max 60000 (clk 1%nat) ->
  exists card' review wd',
    review_card clk 1 (Some 3%Z) one_card_world
    = Ok (Success card' review, wd').
Proof.
  intros Hn HSn.
  assert (Hok : card_ok new_card)
    by (unfold card_ok; cbn; repeat split; try lra; try lia).
  assert (Hg : (1 <= 3 <= 4)%Z) by lia.
  destruct (review_card_step clk 1 3 one_card_world new_card eq_refl Hok Hg)
    as [[_ Hwhy] | (card' & review & wd' & Hrun & _)].
  - destruct Hwhy as [Hhist _]; [exact Hn | exact HSn |].
    vm_compute in Hhist. discriminate Hhist.
  - now exists card', review, wd'.
Qed.

(** A Good answer to the card of [huge_stability_world] is a 500: the due
    date is past [datetime.max] at every time. *)
Lemma review_card_overflows (t : datetime) :
  0 <= t ->
  review_card (frozen_clock t) 1 (Some 3%Z) huge_stability_world
  = Raise OverflowError.
Proof.
  intros Ht. assert (Hdr : 0.9 <> 0) by lra.
  rewrite (review_card_run (frozen_clock t) 1 3 huge_stability_world
             huge_stability_card eq_refl eq_refl).
  cbv zeta. unfold fsrs_scheduler, FSRS_default.
  rewrite schedule_card_history by (reflexivity || assumption).
  cbv zeta.
  rewrite next_stability_success by discriminate.
  assert (Hup : 4000000
                <= Design.successStability (w (FSRS_init None 0.9))
                     (get (cs_stability (card_state_of huge_stability_card)) 0.0)
                     (get (cs_difficulty (card_state_of huge_stability_card)) 5.0)
                     (fst (history_retrievability (frozen_clock t)
                             (card_state_of huge_stability_card)
                             (clock_reads huge_stability_world)))
                     3).
  { pose proof (history_retrievability_bounds (frozen_clock t)
                  (card_state_of huge_stability_card)
                  (clock_reads huge_stability_world)) as Hr.
    cbn [cs_stability cs_difficulty card_state_of huge_stability_card
         c_stability c_difficulty get].
    unfold Design.successStability.
    rewrite gradeMultiplier_good by discriminate.
    match goal with
    | |- _ <= Rmax 0.1 (4000000 * (1 + ?e8 * ?fD * ?fS * ?fR * 1)) =>
        assert (H8 : 0 < e8) by apply exp_pos;
        assert (HD : 0 <= fD) by lra;
        assert (HS : 0 < fS)
          by (destruct (Rlt_dec 0 4000000); [apply Rpower_pos | lra]);
        assert (HR : 0 <= fR)
          by (assert (1 <= fR + 1)
                by (replace (fR + 1) with (exp (w10 (w (FSRS_init None 0.9))
                          * (1 - fst (history_retrievability (frozen_clock t)
                                        (card_state_of huge_stability_card)
                                        (clock_reads huge_stability_world)))))
                      by (cbn; lra);
                    apply exp_ge_1; cbn [w FSRS_init get DEFAULT_PARAMS w10];
                    nra);
              lra);
        pose proof (Rmult_le_pos _ _
                      (Rmult_le_pos _ _
                         (Rmult_le_pos _ _ (Rlt_le _ _ H8) HD)
                         (Rlt_le _ _ HS)) HR);
        pose proof (Rmax_r 0.1 (4000000 * (1 + e8 * fD * fS * fR * 1)))
    end.
    nra. }
  set (new_s := Design.successStability _ _ _ _ _) in *.
  rewrite due_date_of_overflow; [reflexivity |].
  rewrite interval_default.
  pose proof (max_mono 0.1 4000000 new_s Hup) as Hmono.
  assert (Hflip : Py.max 0.1 4000000 = 4000000)
    by (unfold Py.max; destruct (Rlt_dec 0.1 4000000); lra).
  unfold fits, timedelta_days, datetime_max.
  destruct (history_retrievability_reads (frozen_clock t)
              (card_state_of huge_stability_card)
              (clock_reads huge_stability_world)) as [-> | ->];
    unfold frozen_clock; lra.
Qed.

Lemma review_card_frame_witness :
  exists card' review wd',
    review_card ticking_clock 1 (Some 3%Z) one_card_world
    = Ok (Success card' review, wd')
    /\ (forall k, k <> 1%Z -> cards wd' k = cards one_card_world k)
    /\ cards wd' 1%Z = Some (cd_columns card')
    /\ reviews wd' = [review]
    /\ rv_grade review = 3%Z
    /\ rv_state_before review = "new"%string
    /\ rv_stability_after review = c_stability (cd_columns card').
Proof.
  destruct (review_card_new_card ticking_clock)
    as (card' & review & wd' & Hrun); [clock_headroom | clock_headroom |].
  destruct (review_card_frame ticking_clock 1 (Some 3%Z) one_card_world wd'
              _ Hrun)
    as (Hframe & old & g & Hold & Hgrade & Hnew & Hrev & _ & Hrg & Hsb & _
        & _ & _ & _ & Hsa & _).
  injection Hold as <-. injection Hgrade as <-.
  exists card', review, wd'.
  repeat split; assumption.
Defined.

(** What [schedule_card] of the module's scheduler returns carries the two
    last readings of the clock and an interval of at least 0.1 day. *)
Lemma schedule_card_timing
  (clk : clock) (g : Z) (card_state : CardState) (n m : nat) (out : Scheduled) :
  schedule_card fsrs_scheduler clk g card_state n = Ok (out, m) ->
  (n + 2 <= m <= n + 3)%nat
  /\ last_review out = clk (pred m)
  /\ due_date out = clk (pred (pred m)) + timedelta_days (interval out)
  /\ 0.1 <= interval out.
Proof.
  assert (Hdr : 0.9 <> 0) by lra.
  unfold fsrs_scheduler, FSRS_default. intros Hrun.
  destruct (first_review card_state) eqn:Hbranch.
  - rewrite schedule_card_first_review in Hrun by assumption.
    destruct (due_date_of _ _); [| discriminate].
    injection Hrun as <- <-.
    cbn [first_review_outcome last_review due_date interval pred].
    repeat split; [lia | lia | apply max_lower].
  - rewrite schedule_card_history in Hrun by assumption.
    cbv zeta in Hrun.
    destruct (next_stability _ _ _ _ g _) as [new_s |]; [| discriminate].
    destruct (due_date_of _ _); [| discriminate].
    injection Hrun as <- <-.
    unfold history_outcome, history_retrievability.
    destruct (cs_last_review card_state) as [lr |];
      cbn [snd last_review due_date interval pred];
      (repeat split; [lia | lia | apply max_lower]).
Qed.

(** X11: a card that has just been reviewed is not due again at once.
    A 200 from [review_card] has read the clock four or five times.  The
    stored [due_date] is the reading taken for it, the fourth from the
    end, plus the interval; [last_review] is the reading after it,
    [reviewed_at] of the review row the next one, and the last one is the
    reading at which ['is_due'] of the response is evaluated.  The interval
    is at least 0.1 day, so ['is_due'] is [False] unless that last reading
    is 8640 seconds or more past the one of [due_date], and [is_due]
    answers [False] at every later reading that is less than 8640 seconds
    past it. *)
Theorem reviewed_card_not_due
  (clk : clock) (card_id g : Z) (wd wd' : World)
  (card' : CardDict) (review : Review) :
  review_card clk card_id (Some g) wd = Ok (Success card' review, wd') ->
  let stored := cd_columns card' in
  let m := clock_reads wd' in
  (clock_reads wd + 4 <= m <= clock_reads wd + 5)%nat
  /\ cards wd' card_id = Some stored
  /\ c_due_date stored = clk (m - 4)%nat + c_interval stored * 86400
  /\ c_last_review stored = Some (clk (m - 3)%nat)
  /\ rv_reviewed_at review = clk (m - 2)%nat
  /\ cd_is_due card' = due_by (clk (m - 1)%nat) stored
  /\ 0.1 <= c_interval stored
  /\ (clk (m - 1)%nat < clk (m - 4)%nat + 8640 -> cd_is_due card' = false)
  /\ forall j,
       clk j < clk (m - 4)%nat + 8640 ->
       Card_is_due clk stored j = Ok (false, S j).
Proof.
  intros Hrun stored m.
  assert (Hcard : exists card, cards wd card_id = Some card
                               /\ grade_in_1234 (Some g) = true).
  { unfold review_card in Hrun.
    destruct (cards wd card_id) as [old |]; [| discriminate].
    exists old. split; [reflexivity |].
    destruct (grade_in_1234 (Some g)); [reflexivity | discriminate]. }
  destruct Hcard as (card & Hcard & Hg).
  rewrite (review_card_run clk card_id g wd card Hcard Hg) in Hrun.
  cbv zeta in Hrun.
  destruct (schedule_card fsrs_scheduler clk g (card_state_of card)
              (clock_reads wd)) as [[out m0] | e] eqn:Hsched; [| discriminate].
  destruct (schedule_card_timing clk g _ _ _ _ Hsched)
    as (Hm & Hlast & Hdue & Hint).
  unfold timedelta_days in Hdue.
  injection Hrun as Hcard' Hreview Hwd'.
  assert (Hreads : m = S (S m0)) by (unfold m; now rewrite <- Hwd').
  assert (Hstored : stored = card_after out)
    by (unfold stored; now rewrite <- Hcard').
  replace (m - 4)%nat with (pred (pred m0)) by lia.
  replace (m - 3)%nat with (pred m0) by lia.
  replace (m - 2)%nat with m0 by lia.
  replace (m - 1)%nat with (S m0) by lia.
  rewrite Hstored.
  cbn [card_after c_due_date c_last_review c_interval].
  assert (Hnot : forall t,
             t < clk (pred (pred m0)) + 8640 ->
             due_by t (card_after out) = false).
  { intros t Ht. unfold due_by. cbn [card_after c_due_date].
    destruct (Rle_dec (due_date out) t) as [Hle | _]; [| reflexivity].
    exfalso. rewrite Hdue in Hle. lra. }
  split; [lia |].
  split.
  { rewrite <- Hwd'. cbn [cards]. unfold put_card. now rewrite Z.eqb_refl. }
  split; [exact Hdue |].
  split; [now rewrite Hlast |].
  split; [now rewrite <- Hreview |].
  split; [now rewrite <- Hcard' |].
  split; [exact Hint |].
  split.
  { intros Hlt. rewrite <- Hcard'. cbn [cd_is_due]. now apply Hnot. }
  intros j Hj. unfold Card_is_due, io_bind, utcnow, io_ret.
  fold (due_by (clk j) (card_after out)). now rewrite Hnot.
Qed.

Lemma reviewed_card_not_due_witness :
  exists card' review wd',
    review_card (frozen_clock 5) 1 (Some 3%Z) one_card_world
    = Ok (Success card' review, wd')
    /\ cd_is_due card' = false
    /\ Card_is_due (frozen_clock 5) (cd_columns card') 4%nat
       = Ok (false, 5%nat).
Proof.
  destruct (review_card_new_card (frozen_clock 5))
    as (card' & review & wd' & Hrun); [clock_headroom | clock_headroom |].
  exists card', review, wd'. split; [exact Hrun |].
  destruct (reviewed_card_not_due (frozen_clock 5) 1 3 one_card_world wd'
              card' review Hrun)
    as (_ & _ & _ & _ & _ & _ & _ & Hresp & Hlater).
  split; [apply Hresp | apply Hlater]; unfold frozen_clock; lra.
Defined.

(** ** The due cards of a deck *)

Lemma Card_is_due_run (clk : clock) (c : Card) (n : nat) :
  Card_is_due clk c n = Ok (due_by (clk n) c, S n).
Proof. reflexivity. Qed.

(** The list comprehension reads the clock once for each card; what it
    keeps are cards of the list, each due at the reading taken for it. *)
Lemma filter_due_run (clk : clock) (l : list Card) (n : nat) :
  exists l',
    filter_due clk l n = Ok (l', (n + length l)%nat)
    /\ (forall c, In c l' ->
        In c l /\ exists k, (n <= k < n + length l)%nat /\ c_due_date c <= clk k)
    /\ (forall t,
          (forall c k, In c l -> (n <= k < n + length l)%nat ->
                       due_by (clk k) c = due_by t c) ->
          l' = filter (due_by t) l).
Proof.
  revert n. induction l as [| c rest IH]; intros n.
  - exists []. cbn [filter_due length filter]. unfold io_ret.
    rewrite Nat.add_0_r. split; [reflexivity |].
    split; [intros c [] | reflexivity].
  - destruct (IH (S n)) as (tl & Hrun & Hin & Hexact).
    exists (if due_by (clk n) c then c :: tl else tl).
    cbn [filter_due length]. unfold io_bind at 1.
    rewrite Card_is_due_run. unfold io_bind at 1. rewrite Hrun.
    unfold io_ret. split; [do 2 f_equal; lia |]. split.
    + intros x Hx.
      assert (Hcases : (x = c /\ due_by (clk n) c = true) \/ In x tl).
      { destruct (due_by (clk n) c) eqn:E; [| now right].
        destruct Hx as [<- | Hx]; [now left | now right]. }
      destruct Hcases as [[-> Hdue] | Hx'].
      * split; [now left |]. exists n. split; [lia |].
        unfold due_by in Hdue.
        destruct (Rle_dec (c_due_date c) (clk n)); [assumption | discriminate].
      * destruct (Hin x Hx') as (H1 & k & Hk & Hle).
        split; [now right |]. exists k. split; [lia | exact Hle].
    + intros t Ht. cbn [filter].
      rewrite (Ht c n) by (try (now left); lia).
      rewrite <- (Hexact t).
      * reflexivity.
      * intros c' k Hc' Hk. apply Ht; [now right | lia].
Qed.

(** Serialising reads the clock once for each card and keeps the order. *)
Lemma to_dicts_run (clk : clock) (l : list Card) (n : nat) :
  exists ds,
    to_dicts clk l n = Ok (ds, (n + length l)%nat)
    /\ map cd_columns ds = l
    /\ ((forall c k, In c l -> (n <= k)%nat -> c_due_date c <= clk k) ->
        Forall (fun d => cd_is_due d = true) ds).
Proof.
  revert n. induction l as [| c rest IH]; intros n.
  - exists []. cbn [to_dicts length map]. unfold io_ret.
    rewrite Nat.add_0_r. repeat split; constructor.
  - destruct (IH (S n)) as (tl & Hrun & Hmap & Hflags).
    exists ({| cd_columns := c; cd_is_due := due_by (clk n) c |} :: tl).
    cbn [to_dicts length map]. unfold io_bind at 1.
    unfold Card_to_dict, io_bind at 1. rewrite Card_is_due_run.
    unfold io_ret at 1. unfold io_bind at 1. rewrite Hrun. unfold io_ret.
    split; [do 2 f_equal; lia |].
    split; [cbn [cd_columns]; now rewrite Hmap |].
    intros Hdue. constructor.
    + cbn [cd_is_due]. unfold due_by.
      destruct (Rle_dec (c_due_date c) (clk n)) as [_ | Hn]; [reflexivity |].
      exfalso. apply Hn. apply Hdue; [now left | lia].
    + apply Hflags. intros c' k Hc' Hk. apply Hdue; [now right | lia].
Qed.

(** *** The sort *)

Lemma key_lt_irrefl_asym (k1 k2 : bool * datetime) :
  key_lt k1 k2 = true -> key_lt k2 k1 = false.
Proof.
  unfold key_lt. destruct (fst k1), (fst k2); try discriminate;
    try reflexivity;
    destruct (Rlt_dec (snd k1) (snd k2)), (Rlt_dec (snd k2) (snd k1));
    try discriminate; try reflexivity; lra.
Qed.

Lemma key_le_trans (k1 k2 k3 : bool * datetime) :
  key_lt k2 k1 = false -> key_lt k3 k2 = false -> key_lt k3 k1 = false.
Proof.
  unfold key_lt. destruct (fst k1), (fst k2), (fst k3);
    try discriminate; try reflexivity;
    destruct (Rlt_dec (snd k2) (snd k1)), (Rlt_dec (snd k3) (snd k2)),
             (Rlt_dec (snd k3) (snd k1));
    try discriminate; try reflexivity; lra.
Qed.

Lemma key_le_due_order (a b : Card) :
  key_lt (due_key b) (due_key a) = false -> due_order a b.
Proof.
  unfold key_lt, due_key, due_order. cbn [fst snd].
  destruct (String.eqb_spec (c_state a) "new"),
           (String.eqb_spec (c_state b) "new"); cbn [negb];
    try discriminate.
  - destruct (Rlt_dec (c_due_date b) (c_due_date a)); [discriminate |].
    intros _. split; [tauto | intros _; lra].
  - intros _. split; [tauto | tauto].
  - destruct (Rlt_dec (c_due_date b) (c_due_date a)); [discriminate |].
    intros _. split; [tauto | intros _; lra].
Qed.

Lemma insert_by_key_perm (x : Card) (l : list Card) :
  Permutation (insert_by_key x l) (x :: l).
Proof.
  induction l as [| y rest IH]; cbn [insert_by_key]; [reflexivity |].
  destruct (key_lt (due_key y) (due_key x)); [| reflexivity].
  rewrite IH. apply perm_swap.
Qed.

Lemma sort_by_key_perm (l : list Card) : Permutation (sort_by_key l) l.
Proof.
  induction l as [| x rest IH]; cbn [sort_by_key fold_right]; [reflexivity |].
  fold (sort_by_key rest). rewrite insert_by_key_perm. now constructor.
Qed.

Lemma insert_by_key_sorted (x : Card) (l : list Card) :
  StronglySorted (fun a b => key_lt (due_key b) (due_key a) = false) l ->
  StronglySorted (fun a b => key_lt (due_key b) (due_key a) = false)
    (insert_by_key x l).
Proof.
  induction 1 as [| y rest Hsorted IH Hall]; cbn [insert_by_key].
  - repeat constructor.
  - destruct (key_lt (due_key y) (due_key x)) eqn:E.
    + constructor; [exact IH |].
      apply (Permutation_Forall (Permutation_sym (insert_by_key_perm x rest))).
      constructor; [now apply key_lt_irrefl_asym | exact Hall].
    + constructor; [now constructor |].
      constructor; [exact E |].
      apply Forall_impl with (2 := Hall).
      intros z Hz. now apply key_le_trans with (due_key y).
Qed.

Lemma sort_by_key_sorted (l : list Card) :
  StronglySorted (fun a b => key_lt (due_key b) (due_key a) = false)
    (sort_by_key l).
Proof.
  induction l as [| x rest IH]; cbn [sort_by_key fold_right]; [constructor |].
  now apply insert_by_key_sorted.
Qed.

Lemma same_key_lt (x y : Card) :
  key_lt (due_key y) (due_key x) = true -> same_key x y = false.
Proof.
  unfold key_lt, same_key.
  destruct (fst (due_key y)), (fst (due_key x)); try discriminate;
    try reflexivity; cbn [Bool.eqb andb];
    destruct (Rlt_dec (snd (due_key y)) (snd (due_key x)));
    try discriminate;
    destruct (Req_dec_T (snd (due_key x)) (snd (due_key y)));
    try reflexivity; lra.
Qed.

(** The sort is stable: the cards that share a key with [c] come out in
    the order they went in. *)
Lemma insert_by_key_stable (c x : Card) (l : list Card) :
  filter (same_key c) (insert_by_key x l) = filter (same_key c) (x :: l).
Proof.
  induction l as [| y rest IH]; cbn [insert_by_key]; [reflexivity |].
  destruct (key_lt (due_key y) (due_key x)) eqn:E; [| reflexivity].
  cbn [filter] in *. rewrite IH.
  destruct (same_key c x) eqn:Ex; [| reflexivity].
  destruct (same_key c y) eqn:Ey; [| reflexivity].
  exfalso. apply same_key_lt in E.
  unfold same_key in *.
  apply andb_true_iff in Ex as [Ex1 Ex2], Ey as [Ey1 Ey2].
  apply Bool.eqb_prop in Ex1, Ey1.
  destruct (Req_dec_T (snd (due_key c)) (snd (due_key x))) as [Hx | ];
    [| discriminate].
  destruct (Req_dec_T (snd (due_key c)) (snd (due_key y))) as [Hy | ];
    [| discriminate].
  rewrite <- Ex1, <- Ey1, Bool.eqb_reflx in E. cbn [andb] in E.
  destruct (Req_dec_T (snd (due_key x)) (snd (due_key y))) as [| Hne];
    [discriminate | apply Hne; congruence].
Qed.

Lemma sort_by_key_stable (c : Card) (l : list Card) :
  filter (same_key c) (sort_by_key l) = filter (same_key c) l.
Proof.
  induction l as [| x rest IH]; cbn [sort_by_key fold_right]; [reflexivity |].
  fold (sort_by_key rest). rewrite insert_by_key_stable.
  cbn [filter]. now rewrite IH.
Qed.

Lemma sort_by_key_due_order (l : list Card) :
  StronglySorted due_order (sort_by_key l).
Proof.
  pose proof (sort_by_key_sorted l) as Hsorted.
  induction Hsorted as [| a rest Hs IH Hall]; constructor; [exact IH |].
  apply Forall_impl with (2 := Hall).
  intros b. apply key_le_due_order.
Qed.

Lemma filter_due_length (clk : clock) (l l' : list Card) (n m : nat) :
  filter_due clk l n = Ok (l', m) -> (length l' <= length l)%nat.
Proof.
  revert l' n m. induction l as [| c rest IH]; intros l' n m.
  - cbn [filter_due]. unfold io_ret. intros [= <- <-]. reflexivity.
  - cbn [filter_due]. unfold io_bind at 1. rewrite Card_is_due_run.
    unfold io_bind at 1.
    destruct (filter_due clk rest (S n)) as [[tl k] |] eqn:E; [| discriminate].
    unfold io_ret. intros [= <- <-].
    apply IH in E. destruct (due_by (clk n) c); cbn [length]; lia.
Qed.

(** X12: [get_due_cards] answers a deck that exists with a list that is
    always in order: no card that is not new stands before a new one and,
    among the new ones and among the others, due dates never decrease.
    Every card of the list is a card of the deck that was due at the
    reading of the clock taken for it; the clock is read once for each card
    of the deck and once more for each card returned.  An unknown deck
    gets the 404 without any reading. *)
Theorem get_due_cards_sorted
  (clk : clock) (decks : Z -> option Deck) (deck_id : Z) (n : nat) :
  (decks deck_id = None ->
   get_due_cards clk decks deck_id n = Ok (DeckNotFound, n))
  /\ (forall deck,
        decks deck_id = Some deck ->
        exists dicts,
          get_due_cards clk decks deck_id n
          = Ok (DueCards dicts,
                (n + length (d_cards deck) + length dicts)%nat)
          /\ StronglySorted due_order (map cd_columns dicts)
          /\ (forall c,
                In c (map cd_columns dicts) ->
                In c (d_cards deck)
                /\ exists k,
                     (n <= k < n + length (d_cards deck))%nat
                     /\ c_due_date c <= clk k)
          /\ (length dicts <= length (d_cards deck))%nat).
Proof.
  split.
  - intros Hnone. unfold get_due_cards. now rewrite Hnone.
  - intros deck Hdeck. unfold get_due_cards. rewrite Hdeck.
    destruct (filter_due_run clk (d_cards deck) n) as (due & Hrun & Hin & _).
    pose proof (filter_due_length clk _ _ _ _ Hrun) as Hlen.
    destruct (to_dicts_run clk (sort_by_key due) (n + length (d_cards deck)))
      as (ds & Hds & Hmap & _).
    pose proof (sort_by_key_perm due) as Hperm.
    assert (Hsl : length (sort_by_key due) = length ds)
      by (now rewrite <- Hmap, length_map).
    assert (Hlen' : length ds = length due)
      by (rewrite <- Hsl; now apply Permutation_length).
    exists ds. unfold io_bind at 1. rewrite Hrun.
    unfold io_bind at 1. rewrite Hds. unfold io_ret.
    split; [now rewrite Hsl |].
    rewrite Hmap. split; [| split].
    + apply sort_by_key_due_order.
    + intros c Hc. apply Hin.
      apply (Permutation_in c Hperm). exact Hc.
    + lia.
Qed.

Lemma get_due_cards_sorted_witness :
  get_due_cards (frozen_clock 50) sample_decks 2 0%nat = Ok (DeckNotFound, 0%nat)
  /\ exists dicts,
       get_due_cards (frozen_clock 50) sample_decks 1 0%nat
       = Ok (DueCards dicts, (0 + 2 + length dicts)%nat)
       /\ StronglySorted due_order (map cd_columns dicts).
Proof.
  destruct (get_due_cards_sorted (frozen_clock 50) sample_decks 2 0%nat)
    as [Hnone _].
  destruct (get_due_cards_sorted (frozen_clock 50) sample_decks 1 0%nat)
    as [_ Hsome].
  split; [apply Hnone; reflexivity |].
  destruct (Hsome sample_deck eq_refl) as (dicts & Hrun & Hsorted & _).
  exists dicts. split; assumption.
Defined.

(** X13: under a clock that never runs backwards, when no card of the deck
    becomes due while the deck is being filtered, [get_due_cards] returns
    exactly the cards that were due when the request started: a
    permutation of them, in which the cards that share a sort key keep the
    order they have in the deck (the sort is stable), each serialised with
    ['is_due'] true. *)
Theorem get_due_cards_exact
  (clk : clock) (decks : Z -> option Deck) (deck_id : Z) (deck : Deck) (n : nat) :
  decks deck_id = Some deck ->
  monotone clk ->
  (forall c, In c (d_cards deck) ->
     c_due_date c <= clk n
     \/ clk (n + length (d_cards deck))%nat < c_due_date c) ->
  exists dicts m,
    get_due_cards clk decks deck_id n = Ok (DueCards dicts, m)
    /\ Permutation (map cd_columns dicts)
         (filter (due_by (clk n)) (d_cards deck))
    /\ (forall c,
          filter (same_key c) (map cd_columns dicts)
          = filter (same_key c) (filter (due_by (clk n)) (d_cards deck)))
    /\ Forall (fun d => cd_is_due d = true) dicts.
Proof.
  intros Hdeck Hmono Hgap. unfold get_due_cards. rewrite Hdeck.
  destruct (filter_due_run clk (d_cards deck) n) as (due & Hrun & Hin & Hexact).
  assert (Hdue : due = filter (due_by (clk n)) (d_cards deck)).
  { apply Hexact. intros c k Hc Hk. unfold due_by.
    assert (Hnk : clk n <= clk k) by (apply Hmono; lia).
    assert (Hkend : clk k <= clk (n + length (d_cards deck))%nat)
      by (apply Hmono; lia).
    destruct (Hgap c Hc);
      destruct (Rle_dec (c_due_date c) (clk k)),
               (Rle_dec (c_due_date c) (clk n)); try reflexivity; lra. }
  destruct (to_dicts_run clk (sort_by_key due) (n + length (d_cards deck)))
    as (ds & Hds & Hmap & Hflags).
  exists ds. eexists. unfold io_bind at 1. rewrite Hrun.
  unfold io_bind at 1. rewrite Hds. unfold io_ret.
  split; [reflexivity |].
  rewrite Hmap, <- Hdue.
  split; [apply sort_by_key_perm |].
  split; [intros c; apply sort_by_key_stable |].
  apply Hflags. intros c k Hc Hk.
  apply (Permutation_in c (sort_by_key_perm due)) in Hc.
  rewrite Hdue in Hc. apply filter_In in Hc as [_ Hc].
  unfold due_by in Hc.
  destruct (Rle_dec (c_due_date c) (clk n)) as [Hle |]; [| discriminate].
  apply Rle_trans with (clk n); [exact Hle | apply Hmono; lia].
Qed.

Lemma get_due_cards_exact_witness :
  exists dicts m,
    get_due_cards (frozen_clock 50) sample_decks 1 0%nat
    = Ok (DueCards dicts, m)
    /\ Permutation (map cd_columns dicts) [new_card]
    /\ Forall (fun d => cd_is_due d = true) dicts.
Proof.
  assert (Hmono : monotone (frozen_clock 50))
    by (intros i j _; unfold frozen_clock; lra).
  assert (Hgap : forall c, In c (d_cards sample_deck) ->
            c_due_date c <= frozen_clock 50 0%nat
            \/ frozen_clock 50 (0 + length (d_cards sample_deck))%nat
               < c_due_date c).
  { unfold frozen_clock. cbn [d_cards sample_deck].
    intros c [<- | [<- | []]]; cbn [c_due_date new_card]; [right | left]; lra. }
  destruct (get_due_cards_exact (frozen_clock 50) sample_decks 1 sample_deck
              0%nat eq_refl Hmono Hgap)
    as (dicts & m & Hrun & Hperm & _ & Hflags).
  exists dicts, m. split; [exact Hrun |]. split; [| exact Hflags].
  assert (Hfilter : filter (due_by (frozen_clock 50 0%nat)) (d_cards sample_deck)
                    = [new_card]).
  { unfold frozen_clock, due_by. cbn [d_cards sample_deck filter c_due_date new_card].
    destruct (Rle_dec 100 50) as [H |]; [lra |].
    destruct (Rle_dec 0 50) as [| H]; [reflexivity | lra]. }
  now rewrite <- Hfilter.
Defined.

(** ** The statistics of a deck *)

Lemma sum_if_fold {A} (p : A -> bool) (l : list A) (acc : Z) :
  fold_left (fun a c => if p c then (a + 1)%Z else a) l acc
  = (acc + Z.of_nat (length (filter p l)))%Z.
Proof.
  revert acc. induction l as [| c rest IH]; intros acc;
    cbn [fold_left filter length]; [lia |].
  rewrite IH. destruct (p c); cbn [length]; lia.
Qed.

Lemma sum_if_count {A} (p : A -> bool) (l : list A) :
  sum_if p l = Z.of_nat (length (filter p l)).
Proof. unfold sum_if. now rewrite sum_if_fold. Qed.

Lemma sum_due_run (clk : clock) (l : list Card) (acc : Z) (n : nat) :
  exists v,
    sum_due clk l acc n = Ok (v, (n + length l)%nat)
    /\ (acc <= v <= acc + Z.of_nat (length l))%Z
    /\ (forall t,
          (forall c k, In c l -> (n <= k < n + length l)%nat ->
                       due_by (clk k) c = due_by t c) ->
          v = (acc + Z.of_nat (length (filter (due_by t) l)))%Z).
Proof.
  revert acc n. induction l as [| c rest IH]; intros acc n.
  - exists acc. cbn [sum_due length filter]. unfold io_ret.
    rewrite Nat.add_0_r. repeat split; lia.
  - destruct (IH (if due_by (clk n) c then (acc + 1)%Z else acc) (S n))
      as (v & Hrun & Hbound & Hexact).
    exists v. cbn [sum_due length]. unfold io_bind at 1.
    rewrite Card_is_due_run, Hrun.
    split; [do 2 f_equal; lia |]. split.
    + destruct (due_by (clk n) c); lia.
    + intros t Ht. rewrite (Hexact t).
      * cbn [filter]. rewrite (Ht c n) by (try (now left); lia).
        destruct (due_by t c); cbn [length]; lia.
      * intros c' k Hc' Hk. apply Ht; [now right | lia].
Qed.

(** The three counted states and the rest split a list of cards. *)
Lemma state_partition (l : list Card) :
  (length (filter (fun c => (c_state c =? "new")%string) l)
   + length (filter (fun c => (c_state c =? "learning")%string) l)
   + length (filter (fun c => (c_state c =? "review")%string) l)
   + length (filter uncounted l) = length l)%nat.
Proof.
  induction l as [| c rest IH]; [reflexivity |].
  cbn [filter length]. unfold uncounted at 1.
  destruct (String.eqb_spec (c_state c) "new") as [E | _].
  - rewrite E. cbn [String.eqb Ascii.eqb Bool.eqb orb negb length]. lia.
  - destruct (String.eqb_spec (c_state c) "learning") as [E | _].
    + rewrite E. cbn [String.eqb Ascii.eqb Bool.eqb orb negb length]. lia.
    + destruct (String.eqb_spec (c_state c) "review") as [E | _];
        cbn [orb negb length]; lia.
Qed.

(** X14: [Deck.to_dict] never fails and reads the clock once for each
    card.  In its statistics [total] is the number of cards, [due] is
    between 0 and [total], and [new + learning + review] falls short of
    [total] by the number of cards in any other state: a card in state
    ['relearning'], which [schedule_card] assigns after a lapse, is counted
    in none of the three.  When no card changes its due status between the
    readings, [due] is the number of cards due. *)
Theorem Deck_to_dict_stats (clk : clock) (deck : Deck) (n : nat) :
  exists dd,
    Deck_to_dict clk deck n = Ok (dd, (n + length (d_cards deck))%nat)
    /\ st_total (dd_stats dd) = Z.of_nat (length (d_cards deck))
    /\ (st_new (dd_stats dd) + st_learning (dd_stats dd)
        + st_review (dd_stats dd)
        + Z.of_nat (length (filter uncounted (d_cards deck)))
        = st_total (dd_stats dd))%Z
    /\ (0 <= st_due (dd_stats dd) <= st_total (dd_stats dd))%Z
    /\ (forall c, c_state c = "relearning"%string -> uncounted c = true)
    /\ (forall t,
          (forall c k, In c (d_cards deck) ->
                       (n <= k < n + length (d_cards deck))%nat ->
                       due_by (clk k) c = due_by t c) ->
          st_due (dd_stats dd)
          = Z.of_nat (length (filter (due_by t) (d_cards deck)))).
Proof.
  destruct (sum_due_run clk (d_cards deck) 0 n) as (v & Hrun & Hbound & Hexact).
  eexists. unfold Deck_to_dict, io_bind. rewrite Hrun. unfold io_ret.
  split; [reflexivity |].
  cbn [dd_stats st_total st_new st_learning st_review st_due].
  split; [reflexivity |].
  split.
  { rewrite !sum_if_count.
    pose proof (state_partition (d_cards deck)). lia. }
  split; [lia |].
  split.
  { intros c Hc. unfold uncounted. now rewrite Hc. }
  intros t Ht. rewrite (Hexact t Ht). lia.
Qed.

Lemma Deck_to_dict_stats_witness :
  exists dd,
    Deck_to_dict (frozen_clock 50) sample_deck 0%nat = Ok (dd, 2%nat)
    /\ st_total (dd_stats dd) = 2%Z
    /\ st_due (dd_stats dd) = 1%Z.
Proof.
  destruct (Deck_to_dict_stats (frozen_clock 50) sample_deck 0%nat)
    as (dd & Hrun & Htotal & _ & _ & _ & Hdue).
  exists dd. split; [exact Hrun |]. split; [exact Htotal |].
  rewrite (Hdue 50) by reflexivity.
  unfold due_by. cbn [d_cards sample_deck filter c_due_date new_card].
  destruct (Rle_dec 100 50) as [H |]; [lra |].
  destruct (Rle_dec 0 50) as [| H]; [reflexivity | lra].
Defined.

(** * The import of a deck: [clean_html] and the cards of [parse_apkg] *)

(** ** Tags *)

Lemma re_sub_tags_length (skip : nat) (text : pystr) :
  (length (re_sub_tags skip text) <= length text)%nat.
Proof.
  revert skip. induction text as [| c rest IH]; intros skip; [reflexivity |].
  cbn [re_sub_tags length]. destruct skip as [| k].
  - destruct (c =? 60)%N.
    + destruct (find_gt rest) as [[| i] |].
      * cbn [length]. specialize (IH 0%nat). lia.
      * specialize (IH (S (S i))). lia.
      * cbn [length]. specialize (IH 0%nat). lia.
    + cbn [length]. specialize (IH 0%nat). lia.
  - specialize (IH k). lia.
Qed.

(** A prefix without ['<'] is copied. *)
Lemma re_sub_tags_app (a text : pystr) :
  ~ In 60%N a -> re_sub_tags 0 (a ++ text) = a ++ re_sub_tags 0 text.
Proof.
  induction a as [| c a IH]; intros Hno; [reflexivity |].
  cbn [app re_sub_tags].
  destruct (N.eqb_spec c 60) as [-> | _]; [exfalso; apply Hno; now left |].
  rewrite IH; [reflexivity |]. intros H. apply Hno. now right.
Qed.

Lemma re_sub_tags_none (text : pystr) :
  ~ In 60%N text -> re_sub_tags 0 text = text.
Proof.
  intros Hno. rewrite <- (app_nil_r text) at 1.
  rewrite re_sub_tags_app by exact Hno. cbn. apply app_nil_r.
Qed.

Lemma re_sub_tags_skip (l text : pystr) :
  re_sub_tags (length l) (l ++ text) = re_sub_tags 0 text.
Proof. induction l as [| c l IH]; [reflexivity | exact IH]. Qed.

Lemma find_gt_app (body text : pystr) :
  ~ In 62%N body -> find_gt (body ++ 62%N :: text) = Some (length body).
Proof.
  induction body as [| c body IH]; intros Hno; [reflexivity |].
  cbn [app find_gt length].
  destruct (N.eqb_spec c 62) as [-> | _]; [exfalso; apply Hno; now left |].
  rewrite IH; [reflexivity |]. intros H. apply Hno. now right.
Qed.

(** A ['<'], a non-empty body without ['>'] and a ['>'] are one match. *)
Lemma re_sub_tags_tag (body text : pystr) :
  body <> [] -> ~ In 62%N body ->
  re_sub_tags 0 (60%N :: body ++ 62%N :: text) = re_sub_tags 0 text.
Proof.
  intros Hne Hno. cbn [re_sub_tags N.eqb Pos.eqb].
  rewrite find_gt_app by exact Hno.
  destruct body as [| c body]; [contradiction |]. cbn [length].
  replace ((c :: body) ++ 62%N :: text)
    with (((c :: body) ++ [62%N]) ++ text)
    by (rewrite <- app_assoc; reflexivity).
  replace (S (S (length body))) with (length ((c :: body) ++ [62%N]))
    by (rewrite length_app; cbn [length]; lia).
  apply re_sub_tags_skip.
Qed.

(** ** Replacements *)

Lemma starts_with_length (old text : pystr) :
  starts_with old text = true -> (length old <= length text)%nat.
Proof.
  revert text. induction old as [| a old IH]; intros text; [cbn; lia |].
  destruct text as [| c text]; [discriminate |].
  cbn [starts_with length]. intros H.
  apply andb_true_iff in H as [_ H]. apply IH in H. lia.
Qed.

Lemma replace_from_length (old new : pystr) (skip : nat) (text : pystr) :
  old <> [] -> (length new <= length old)%nat -> (skip <= length text)%nat ->
  (length (replace_from old new skip text) + skip <= length text)%nat.
Proof.
  intros Hne Hlen. revert skip.
  induction text as [| c rest IH]; intros skip Hskip.
  - cbn [length] in *. cbn. lia.
  - cbn [replace_from length] in *. destruct skip as [| k].
    + destruct (starts_with old (c :: rest)) eqn:E.
      * apply starts_with_length in E. cbn [length] in E.
        assert (Hold : (0 < length old)%nat)
          by (destruct old; [contradiction | cbn; lia]).
        rewrite length_app.
        specialize (IH (pred (length old))). lia.
      * cbn [length]. specialize (IH 0%nat). lia.
    + specialize (IH k). lia.
Qed.

(** Where the first character of [old] does not occur, nothing is
    replaced. *)
Lemma replace_from_app (a : N) (old new t text : pystr) :
  ~ In a t ->
  replace_from (a :: old) new 0 (t ++ text)
  = t ++ replace_from (a :: old) new 0 text.
Proof.
  induction t as [| c t IH]; intros Hno; [reflexivity |].
  cbn [app replace_from starts_with].
  destruct (N.eqb_spec a c) as [-> | _]; [exfalso; apply Hno; now left |].
  cbn [andb]. rewrite IH; [reflexivity |]. intros H. apply Hno. now right.
Qed.

Lemma replace_none (a : N) (old new text : pystr) :
  ~ In a text -> replace (a :: old) new text = text.
Proof.
  intros Hno. unfold replace. rewrite <- (app_nil_r text) at 1.
  rewrite replace_from_app by exact Hno. cbn. apply app_nil_r.
Qed.

(** ** White space at the ends *)

Lemma lstrip_suffix (text : pystr) :
  exists pre, text = pre ++ lstrip text.
Proof.
  induction text as [| c rest [pre IH]]; [now exists [] |].
  cbn [lstrip]. destruct (is_space c).
  - exists (c :: pre). cbn [app]. now f_equal.
  - now exists [].
Qed.

Lemma lstrip_head (text : pystr) :
  match lstrip text with
  | [] => True
  | c :: _ => is_space c = false
  end.
Proof.
  induction text as [| c rest IH]; [exact I |].
  cbn [lstrip]. destruct (is_space c) eqn:E; [exact IH | exact E].
Qed.

Lemma rstrip_prefix (text : pystr) :
  exists post, text = rstrip text ++ post.
Proof.
  destruct (lstrip_suffix (rev text)) as [pre Hpre].
  exists (rev pre). unfold rstrip.
  rewrite <- rev_app_distr, <- Hpre. symmetry. apply rev_involutive.
Qed.

Lemma last_rev_cons (c d : N) (l : pystr) : last (rev (c :: l)) d = c.
Proof. cbn [rev]. apply last_last. Qed.

Lemma strip_trimmed (text : pystr) : trimmed (strip text).
Proof.
  unfold strip.
  destruct (rstrip_prefix (lstrip text)) as [post Hpost].
  pose proof (lstrip_head text) as Hhead.
  pose proof (lstrip_head (rev (lstrip text))) as Hlast.
  unfold rstrip in *.
  destruct (lstrip (rev (lstrip text))) as [| c r] eqn:E; [exact I |].
  unfold trimmed.
  destruct (rev (c :: r)) as [| x xs] eqn:Erev.
  - exact I.
  - split.
    + rewrite Hpost in Hhead. exact Hhead.
    + rewrite <- Erev, last_rev_cons. exact Hlast.
Qed.

Lemma strip_idle (text : pystr) : trimmed text -> strip text = text.
Proof.
  destruct text as [| c rest]; [reflexivity |].
  intros [Hc Hlast]. unfold strip. cbn [lstrip]. rewrite Hc.
  unfold rstrip.
  assert (Hrev : rev (c :: rest)
                 = last (c :: rest) c :: rev (removelast (c :: rest))).
  { rewrite <- rev_unit. f_equal. apply app_removelast_last. discriminate. }
  rewrite Hrev. cbn [lstrip]. rewrite Hlast. rewrite <- Hrev.
  apply rev_involutive.
Qed.

Lemma strip_length (text : pystr) : (length (strip text) <= length text)%nat.
Proof.
  unfold strip.
  destruct (rstrip_prefix (lstrip text)) as [post Hpost].
  destruct (lstrip_suffix text) as [pre Hpre].
  apply (f_equal (@length N)) in Hpost, Hpre.
  rewrite length_app in Hpost, Hpre. lia.
Qed.

(** ** clean_html *)

Lemma u_nbsp : u "&nbsp;" = [38; 110; 98; 115; 112; 59]%N.
Proof. reflexivity. Qed.

Lemma u_lt : u "&lt;" = [38; 108; 116; 59]%N.
Proof. reflexivity. Qed.

Lemma u_gt : u "&gt;" = [38; 103; 116; 59]%N.
Proof. reflexivity. Qed.

Lemma u_amp : u "&amp;" = [38; 97; 109; 112; 59]%N.
Proof. reflexivity. Qed.

(** Without ['&'] in the text, none of the four entities is found. *)
Lemma entities_none (text : pystr) :
  ~ In 38%N text ->
  replace (u "&amp;") (u "&")
    (replace (u "&gt;") (u ">")
       (replace (u "&lt;") (u "<")
          (replace (u "&nbsp;") (u " ") text)))
  = text.
Proof.
  intros Hno. rewrite u_nbsp, u_lt, u_gt, u_amp.
  do 4 rewrite (replace_none 38 _ _ text) by exact Hno.
  reflexivity.
Qed.

(** X15: [clean_html] leaves plain text alone: a text without ['<'] and
    without ['&'] that neither starts nor ends with white space comes back
    as it is. *)
Theorem clean_html_plain (text : pystr) :
  plain text -> trimmed text -> clean_html text = text.
Proof.
  intros [Hlt Hamp] Htrim. unfold clean_html.
  rewrite re_sub_tags_none by exact Hlt.
  rewrite entities_none by exact Hamp.
  now apply strip_idle.
Qed.

Lemma clean_html_plain_witness :
  clean_html (u "What is 2 + 2?") = u "What is 2 + 2?".
Proof.
  apply clean_html_plain.
  - split; intros H; vm_compute in H; intuition discriminate.
  - vm_compute. split; reflexivity.
Defined.

(** X16: [clean_html] never returns more characters than it was given,
    and what it returns neither starts nor ends with white space. *)
Theorem clean_html_shrinks (text : pystr) :
  (length (clean_html text) <= length text)%nat
  /\ trimmed (clean_html text).
Proof.
  split; [| apply strip_trimmed].
  unfold clean_html.
  pose proof (re_sub_tags_length 0 text) as H0.
  set (t0 := re_sub_tags 0 text) in *.
  assert (Hrep : forall old new t,
            old <> [] -> (length new <= length old)%nat ->
            (length (replace old new t) <= length t)%nat).
  { intros old new t Hne Hlen. unfold replace.
    pose proof (replace_from_length old new 0 t Hne Hlen). lia. }
  pose proof (Hrep (u "&nbsp;") (u " ") t0) as H1.
  set (t1 := replace (u "&nbsp;") (u " ") t0) in *.
  pose proof (Hrep (u "&lt;") (u "<") t1) as H2.
  set (t2 := replace (u "&lt;") (u "<") t1) in *.
  pose proof (Hrep (u "&gt;") (u ">") t2) as H3.
  set (t3 := replace (u "&gt;") (u ">") t2) in *.
  pose proof (Hrep (u "&amp;") (u "&") t3) as H4.
  set (t4 := replace (u "&amp;") (u "&") t3) in *.
  pose proof (strip_length t4) as H5.
  assert (Hne : forall s : string, s <> ""%string -> u s <> [])
    by (intros [| a s] Hs; [contradiction | discriminate]).
  specialize (H1 ltac:(discriminate) ltac:(cbn; lia)).
  specialize (H2 ltac:(discriminate) ltac:(cbn; lia)).
  specialize (H3 ltac:(discriminate) ltac:(cbn; lia)).
  specialize (H4 ltac:(discriminate) ltac:(cbn; lia)).
  lia.
Qed.

(** X17: a tag between plain texts is removed and nothing else changes:
    for [a] and [b] without ['<'] and ['&'], a non-empty [body] without
    ['>'] and [a ++ b] without white space at its ends,
    [clean_html (a ++ "<" ++ body ++ ">" ++ b) = a ++ b]. *)
Theorem clean_html_removes_tag (a body b : pystr) :
  plain a -> plain b -> body <> [] -> ~ In 62%N body -> trimmed (a ++ b) ->
  clean_html (a ++ 60%N :: body ++ 62%N :: b) = a ++ b.
Proof.
  intros [Ha Ha'] [Hb Hb'] Hne Hbody Htrim. unfold clean_html.
  rewrite re_sub_tags_app by exact Ha.
  rewrite re_sub_tags_tag by assumption.
  rewrite re_sub_tags_none by exact Hb.
  rewrite entities_none.
  - now apply strip_idle.
  - intros H. apply in_app_or in H as [H | H]; [now apply Ha' | now apply Hb'].
Qed.

Lemma clean_html_removes_tag_witness :
  clean_html (u "Paris" ++ 60%N :: u "br /" ++ 62%N :: u "France")
  = u "Paris" ++ u "France".
Proof.
  apply clean_html_removes_tag.
  - split; intros H; vm_compute in H; intuition discriminate.
  - split; intros H; vm_compute in H; intuition discriminate.
  - discriminate.
  - intros H; vm_compute in H; intuition discriminate.
  - vm_compute. split; reflexivity.
Defined.

(** X18: [clean_html] removes tags before it decodes entities, so escaped
    markup comes out as markup: for [t] without ['<'] and ['&'],
    [clean_html ("&lt;" ++ t ++ "&gt;") = "<" ++ t ++ ">"].  When [t] is
    not empty and has no ['>'], a second [clean_html] removes that tag:
    [clean_html] is not idempotent. *)
Theorem clean_html_decodes_after_stripping (t : pystr) :
  plain t ->
  clean_html (u "&lt;" ++ t ++ u "&gt;") = 60%N :: t ++ [62%N]
  /\ (t <> [] -> ~ In 62%N t ->
      clean_html (clean_html (u "&lt;" ++ t ++ u "&gt;")) = []).
Proof.
  intros [Hlt Hamp].
  assert (Hfirst : clean_html (u "&lt;" ++ t ++ u "&gt;") = 60%N :: t ++ [62%N]).
  { unfold clean_html.
    rewrite re_sub_tags_none.
    2:{ rewrite u_lt, u_gt. intros H.
        cbn [app In] in H.
        destruct H as [H | [H | [H | [H | H]]]]; try discriminate H.
        apply in_app_or in H as [H | H]; [now apply Hlt |].
        cbn [In] in H. intuition discriminate. }
    rewrite u_nbsp, u_lt, u_gt, u_amp. unfold replace.
    change (u " ") with [32%N]. change (u "<") with [60%N].
    change (u ">") with [62%N]. change (u "&") with [38%N].
    set (text0 := [38; 108; 116; 59]%N ++ t ++ [38; 103; 116; 59]%N).
    assert (H1 : replace_from [38; 110; 98; 115; 112; 59]%N [32%N] 0 text0
                 = text0).
    { unfold text0.
      cbn [app replace_from starts_with N.eqb Pos.eqb andb].
      rewrite (replace_from_app 38 _ _ t) by exact Hamp. reflexivity. }
    assert (H2 : replace_from [38; 108; 116; 59]%N [60%N] 0 text0
                 = 60%N :: t ++ [38; 103; 116; 59]%N).
    { unfold text0.
      cbn [app replace_from starts_with N.eqb Pos.eqb andb length pred].
      rewrite (replace_from_app 38 _ _ t) by exact Hamp. reflexivity. }
    assert (H3 : replace_from [38; 103; 116; 59]%N [62%N] 0
                   (60%N :: t ++ [38; 103; 116; 59]%N)
                 = 60%N :: t ++ [62%N]).
    { cbn [replace_from starts_with N.eqb Pos.eqb andb].
      rewrite (replace_from_app 38 _ _ t) by exact Hamp. reflexivity. }
    assert (H4 : replace_from [38; 97; 109; 112; 59]%N [38%N] 0
                   (60%N :: t ++ [62%N])
                 = 60%N :: t ++ [62%N]).
    { cbn [replace_from starts_with N.eqb Pos.eqb andb].
      rewrite (replace_from_app 38 _ _ t) by exact Hamp. reflexivity. }
    rewrite H1, H2, H3, H4.
    apply strip_idle. unfold trimmed. split; [reflexivity |].
    change (60%N :: t ++ [62%N]) with ((60%N :: t) ++ [62%N]).
    rewrite last_last. reflexivity. }
  split; [exact Hfirst |].
  intros Hne Hgt. rewrite Hfirst. unfold clean_html.
  rewrite re_sub_tags_tag by assumption. reflexivity.
Qed.

Lemma clean_html_decodes_after_stripping_witness :
  clean_html (u "&lt;b&gt;") = u "<b>"
  /\ clean_html (clean_html (u "&lt;b&gt;")) = [].
Proof.
  assert (Hplain : plain (u "b"))
    by (split; intros H; vm_compute in H; intuition discriminate).
  destruct (clean_html_decodes_after_stripping (u "b") Hplain) as [H1 H2].
  split; [exact H1 |].
  apply H2; [discriminate |].
  intros H; vm_compute in H; intuition discriminate.
Defined.

(** ** The cards of parse_apkg *)

Lemma split_none (sep : N) (f : pystr) : ~ In sep f -> split sep f = [f].
Proof.
  induction f as [| c f IH]; intros Hno; [reflexivity |].
  cbn [split].
  destruct (N.eqb_spec c sep) as [-> | _]; [exfalso; apply Hno; now left |].
  rewrite IH; [reflexivity |]. intros H. apply Hno. now right.
Qed.

Lemma split_app (sep : N) (f rest : pystr) :
  ~ In sep f -> split sep (f ++ sep :: rest) = f :: split sep rest.
Proof.
  induction f as [| c f IH]; intros Hno.
  - cbn [app split]. now rewrite N.eqb_refl.
  - cbn [app split].
    destruct (N.eqb_spec c sep) as [-> | _]; [exfalso; apply Hno; now left |].
    rewrite IH; [reflexivity |]. intros H. apply Hno. now right.
Qed.

Lemma note_dict_fold (notes : list (Z * pystr)) (d : Z -> option pystr) (k : Z) :
  ~ In k (map fst notes) ->
  fold_left
    (fun d note k => if (k =? fst note)%Z then Some (snd note) else d k)
    notes d k
  = d k.
Proof.
  revert d. induction notes as [| [k' v'] notes IH]; intros d Hno;
    [reflexivity |].
  cbn [fold_left]. rewrite IH by (intros H; apply Hno; now right).
  cbn [fst snd]. destruct (Z.eqb_spec k k') as [-> | _]; [| reflexivity].
  exfalso. apply Hno. now left.
Qed.

(** A key that no row has is not in the dict; under distinct ids every row
    is found under its id. *)
Lemma note_dict_lookup (notes : list (Z * pystr)) (k : Z) :
  (~ In k (map fst notes) -> note_dict notes k = None)
  /\ (NoDup (map fst notes) ->
      forall v, In (k, v) notes -> note_dict notes k = Some v).
Proof.
  split.
  - intros Hno. unfold note_dict. now rewrite note_dict_fold.
  - unfold note_dict. generalize (fun _ : Z => @None pystr) as d.
    induction notes as [| [k' v'] notes IH]; intros d Hnodup v Hin;
      [contradiction |].
    cbn [map fst] in Hnodup. apply NoDup_cons_iff in Hnodup as [Hfresh Hnodup].
    cbn [fold_left]. destruct Hin as [[= -> ->] | Hin].
    + rewrite note_dict_fold by exact Hfresh.
      cbn [fst snd]. now rewrite Z.eqb_refl.
    + now apply IH.
Qed.

(** What one row of [cards] adds to the list. *)
Lemma parse_apkg_cards_fold
  (notes : list (Z * pystr)) (rows : list (Z * Z * Z))
  (acc : list (pystr * pystr)) :
  fold_left
    (fun cards row =>
       let '(card_id, note_id, ord_num) := row in
       match note_dict notes note_id with
       | Some flds =>
           let fields := split 31 flds in
           let front := if (0 <? length fields)%nat then nth 0 fields [] else [] in
           let back := if (1 <? length fields)%nat then nth 1 fields [] else [] in
           let front := clean_html front in
           let back := clean_html back in
           cards ++ [(front, back)]
       | None => cards
       end)
    rows acc
  = acc ++ parse_apkg_cards notes rows.
Proof.
  unfold parse_apkg_cards.
  revert acc. induction rows as [| [[cid nid] ord] rows IH]; intros acc.
  - cbn [fold_left]. now rewrite app_nil_r.
  - cbn [fold_left]. destruct (note_dict notes nid) as [flds |].
    + match goal with
      | |- fold_left _ _ (acc ++ [?x]) = _ =>
          rewrite (IH (acc ++ [x])), (IH ([] ++ [x]))
      end.
      now rewrite <- app_assoc.
    + apply IH.
Qed.

(** X19: the cards that [parse_apkg] builds from the rows of the archive.
    The rows of [cards] are taken in order, each on its own; a row whose
    note id is not in [notes] gives no card.  With distinct note ids, a
    row whose note has the fields [f], [b] and possibly more, separated by
    the character 0x1f, gives the card [(clean_html f, clean_html b)],
    and a row whose note has the single field [f] gives
    [(clean_html f, "")]; the card id and the template ordinal of the row
    play no part.  No more cards come out than rows went in, and no front
    or back starts or ends with white space. *)
Theorem parse_apkg_cards_rows
  (notes : list (Z * pystr)) (rows1 rows2 : list (Z * Z * Z))
  (cid nid ord : Z) :
  parse_apkg_cards notes (rows1 ++ rows2)
  = parse_apkg_cards notes rows1 ++ parse_apkg_cards notes rows2
  /\ (~ In nid (map fst notes) ->
      parse_apkg_cards notes [(cid, nid, ord)] = [])
  /\ (NoDup (map fst notes) ->
      forall f b more,
        ~ In 31%N f -> ~ In 31%N b ->
        (In (nid, f ++ 31%N :: b) notes
         \/ In (nid, f ++ 31%N :: b ++ 31%N :: more) notes) ->
        parse_apkg_cards notes [(cid, nid, ord)]
        = [(clean_html f, clean_html b)])
  /\ (NoDup (map fst notes) ->
      forall f,
        ~ In 31%N f -> In (nid, f) notes ->
        parse_apkg_cards notes [(cid, nid, ord)] = [(clean_html f, [])])
  /\ (length (parse_apkg_cards notes rows1) <= length rows1)%nat
  /\ Forall (fun card => trimmed (fst card) /\ trimmed (snd card))
       (parse_apkg_cards notes rows1).
Proof.
  split; [| split; [| split; [| split; [| split]]]].
  - unfold parse_apkg_cards at 1. rewrite fold_left_app.
    fold (parse_apkg_cards notes rows1).
    apply parse_apkg_cards_fold.
  - intros Hno. unfold parse_apkg_cards. cbn [fold_left].
    destruct (note_dict_lookup notes nid) as [Hnone _].
    now rewrite Hnone.
  - intros Hnodup f b more Hf Hb Hin.
    destruct (note_dict_lookup notes nid) as [_ Hsome].
    unfold parse_apkg_cards. cbn [fold_left].
    destruct Hin as [Hin | Hin]; rewrite (Hsome Hnodup _ Hin).
    + rewrite split_app, split_none by assumption. reflexivity.
    + rewrite split_app by assumption. rewrite split_app by assumption.
      reflexivity.
  - intros Hnodup f Hf Hin.
    destruct (note_dict_lookup notes nid) as [_ Hsome].
    unfold parse_apkg_cards. cbn [fold_left].
    rewrite (Hsome Hnodup _ Hin), split_none by assumption. reflexivity.
  - induction rows1 as [| [[c n] o] rows IH]; [reflexivity |].
    unfold parse_apkg_cards in *. cbn [fold_left].
    rewrite parse_apkg_cards_fold. unfold parse_apkg_cards.
    destruct (note_dict notes n); rewrite length_app; cbn [length app]; lia.
  - induction rows1 as [| [[c n] o] rows IH]; [constructor |].
    unfold parse_apkg_cards in *. cbn [fold_left].
    rewrite parse_apkg_cards_fold. unfold parse_apkg_cards.
    apply Forall_app. split; [| exact IH].
    destruct (note_dict notes n); [| constructor].
    constructor; [| constructor]. cbn [fst snd app].
    split; unfold clean_html; apply strip_trimmed.
Qed.

Lemma parse_apkg_cards_rows_witness :
  parse_apkg_cards [(10%Z, u "Capital of France?" ++ 31%N :: u "<b>Paris</b>")]
    [(1%Z, 10%Z, 0%Z)]
  = [(clean_html (u "Capital of France?"), clean_html (u "<b>Paris</b>"))]
  /\ parse_apkg_cards
       [(10%Z, u "Capital of France?" ++ 31%N :: u "<b>Paris</b>")]
       [(2%Z, 11%Z, 0%Z)]
     = [].
Proof.
  destruct (parse_apkg_cards_rows
              [(10%Z, u "Capital of France?" ++ 31%N :: u "<b>Paris</b>")]
              [] [] 1 10 0) as (_ & _ & Hboth & _).
  destruct (parse_apkg_cards_rows
              [(10%Z, u "Capital of France?" ++ 31%N :: u "<b>Paris</b>")]
              [] [] 2 11 0) as (_ & Hmissing & _).
  split.
  - apply (Hboth ltac:(repeat constructor; intros []) _ _ []).
    + intros H; vm_compute in H; intuition discriminate.
    + intros H; vm_compute in H; intuition discriminate.
    + left. now left.
  - apply Hmissing. cbn. intros [H | []]. discriminate H.
Defined.

(** * Start-up *)

Lemma wait_for_database_all_down
  (db_up : nat -> bool) (max_retries retry_count fuel : nat) :
  (forall k, (k < max_retries)%nat -> db_up k = false) ->
  (max_retries - retry_count <= fuel)%nat ->
  length (filter is_create_all
            (wait_for_database db_up max_retries retry_count fuel))
  = (max_retries - retry_count)%nat
  /\ length (filter is_sleep
               (wait_for_database db_up max_retries retry_count fuel))
     = (max_retries - retry_count)%nat
  /\ ~ In Ev_print_connected
         (wait_for_database db_up max_retries retry_count fuel).
Proof.
  intros Hdown. revert retry_count.
  induction fuel as [| fuel IH]; intros retry_count Hfuel.
  - cbn. split; [lia |]. split; [lia |]. intros [].
  - cbn [wait_for_database].
    destruct (Nat.ltb_spec retry_count max_retries) as [Hlt | Hge].
    + rewrite (Hdown retry_count Hlt). cbn [filter is_create_all is_sleep length].
      destruct (IH (S retry_count)) as (H1 & H2 & H3); [lia |].
      rewrite H1, H2. split; [lia |]. split; [lia |].
      intros [H | [H | [H | H]]]; try discriminate H. now apply H3.
    + cbn. split; [lia |]. split; [lia |]. intros [].
Qed.

Lemma wait_for_database_first_up
  (db_up : nat -> bool) (max_retries retry_count fuel k : nat) :
  (retry_count <= k < max_retries)%nat ->
  (forall j, (retry_count <= j < k)%nat -> db_up j = false) ->
  db_up k = true ->
  (k - retry_count < fuel)%nat ->
  length (filter is_create_all
            (wait_for_database db_up max_retries retry_count fuel))
  = (k - retry_count + 1)%nat
  /\ length (filter is_sleep
               (wait_for_database db_up max_retries retry_count fuel))
     = (k - retry_count)%nat
  /\ last (wait_for_database db_up max_retries retry_count fuel) Ev_app_run
     = Ev_print_connected.
Proof.
  intros Hk Hdown Hup. revert retry_count Hk Hdown.
  induction fuel as [| fuel IH]; intros retry_count Hk Hdown Hfuel; [lia |].
  cbn [wait_for_database].
  destruct (Nat.ltb_spec retry_count max_retries) as [_ | Hge]; [| lia].
  destruct (Nat.eq_dec retry_count k) as [-> | Hne].
  - rewrite Hup. cbn. split; [lia |]. split; [lia | reflexivity].
  - rewrite (Hdown retry_count) by lia.
    destruct (IH (S retry_count)) as (H1 & H2 & H3);
      [lia | intros j Hj; apply Hdown; lia | lia |].
    cbn [filter is_create_all is_sleep length]. rewrite H1, H2.
    split; [lia |]. split; [lia |].
    remember (wait_for_database db_up max_retries (S retry_count) fuel) as tl.
    destruct tl as [| e tl]; [cbn in H3; discriminate H3 |].
    exact H3.
Qed.

(** X20: the start-up script tries [db.create_all()] at most 30 times,
    sleeping one second after each failure, and then starts the server
    whether or not the database ever answered.  If the first 30 attempts
    all fail there are exactly 30 attempts and 30 sleeps, the success line
    is never printed, and [app.run] still follows; if the attempt after
    [k < 30] failures is the first to succeed there are [k + 1] attempts
    and [k] sleeps.  Thirty iterations are all the loop can make: a larger
    bound gives the same trace. *)
Theorem run_main_starts_anyway (db_up : nat -> bool) (fuel : nat) :
  (30 <= fuel)%nat ->
  run_main db_up fuel = run_main db_up 30
  /\ last (run_main db_up fuel) Ev_create_all = Ev_app_run
  /\ (length (filter is_create_all (run_main db_up fuel)) <= 30)%nat
  /\ ((forall k, (k < 30)%nat -> db_up k = false) ->
      length (filter is_create_all (run_main db_up fuel)) = 30%nat
      /\ length (filter is_sleep (run_main db_up fuel)) = 30%nat
      /\ ~ In Ev_print_connected (run_main db_up fuel))
  /\ (forall k,
        (k < 30)%nat -> db_up k = true ->
        (forall j, (j < k)%nat -> db_up j = false) ->
        length (filter is_create_all (run_main db_up fuel)) = (k + 1)%nat
        /\ length (filter is_sleep (run_main db_up fuel)) = k
        /\ In Ev_print_connected (run_main db_up fuel)).
Proof.
  intros Hfuel.
  assert (Hindep : forall m r f1 f2,
            (m - r <= f1)%nat -> (m - r <= f2)%nat ->
            wait_for_database db_up m r f1 = wait_for_database db_up m r f2).
  { intros m r f1. revert r.
    induction f1 as [| f1 IH]; intros r f2 H1 H2.
    - destruct f2 as [| f2]; [reflexivity |]. cbn [wait_for_database].
      destruct (Nat.ltb_spec r m); [lia | reflexivity].
    - destruct f2 as [| f2].
      + cbn [wait_for_database].
        destruct (Nat.ltb_spec r m); [lia | reflexivity].
      + cbn [wait_for_database].
        destruct (Nat.ltb_spec r m); [| reflexivity].
        destruct (db_up r); [reflexivity |].
        do 3 f_equal. apply IH; lia. }
  assert (Hcount : forall m r f,
            (length (filter is_create_all (wait_for_database db_up m r f))
             <= m - r)%nat).
  { intros m r f. revert r. induction f as [| f IH]; intros r; [cbn; lia |].
    cbn [wait_for_database].
    destruct (Nat.ltb_spec r m); [| cbn; lia].
    destruct (db_up r); cbn [filter is_create_all length]; [lia |].
    specialize (IH (S r)). lia. }
  unfold run_main.
  split; [f_equal; apply Hindep; lia |].
  split; [apply last_last |].
  split.
  { rewrite filter_app, length_app. cbn [filter is_create_all length].
    specialize (Hcount 30%nat 0%nat fuel). lia. }
  split.
  - intros Hdown.
    destruct (wait_for_database_all_down db_up 30 0 fuel Hdown)
      as (H1 & H2 & H3); [lia |].
    rewrite !filter_app, !length_app.
    cbn [filter is_create_all is_sleep length]. rewrite H1, H2.
    split; [lia |]. split; [lia |].
    intros H. apply in_app_or in H as [H | [H | []]];
      [now apply H3 | discriminate H].
  - intros k Hk Hup Hdown.
    destruct (wait_for_database_first_up db_up 30 0 fuel k)
      as (H1 & H2 & H3); try assumption; try lia.
    { intros j Hj. apply Hdown. lia. }
    rewrite !filter_app, !length_app.
    cbn [filter is_create_all is_sleep length]. rewrite H1, H2.
    split; [lia |]. split; [lia |].
    apply in_or_app. left.
    destruct (wait_for_database db_up 30 0 fuel) as [| e tl] eqn:E;
      [cbn in H3; discriminate H3 |].
    rewrite <- H3.
    destruct (@exists_last _ (e :: tl)) as (l' & a & Heq); [discriminate |].
    rewrite Heq, last_last. apply in_or_app. right. now left.
Qed.

Lemma run_main_starts_anyway_witness :
  last (run_main (fun k => (2 <=? k)%nat) 30) Ev_create_all = Ev_app_run
  /\ length (filter is_create_all (run_main (fun k => (2 <=? k)%nat) 30))
     = 3%nat
  /\ length (filter is_sleep (run_main (fun k => (2 <=? k)%nat) 30)) = 2%nat.
Proof.
  destruct (run_main_starts_anyway (fun k => (2 <=? k)%nat) 30 (le_n 30))
    as (_ & Hlast & _ & _ & Hup).
  split; [exact Hlast |].
  destruct (Hup 2%nat) as (H1 & H2 & _).
  - lia.
  - reflexivity.
  - intros j Hj. apply Nat.leb_gt. exact Hj.
  - split; [exact H1 | exact H2].
Defined.
